(** * lockfile: lock files with advisory locks, verified against the Go sources

    A shallow embedding of the package [lockfile] (file_linux.go, its
    windows counterpart with the [createFile] shim, the file of
    [IsTemporary], wait.go) and the properties of its acquisition,
    release, classification and waiting protocols.

    Layout:
    - Go values: errors, [errors.Is], machine integers;
    - the effect monad: state passing over an operating system, with a
      trace of the system calls issued;
    - the package: [IsTemporary], [Posix.Create], [Posix.Close],
      [Windows.Create], [Windows.Close], [randomBackoff], [WaitCtx];
    - a small simulated file system, an instance of the system interface;
    - the helpers of the tests and the example;
    - the theorems: the properties C1 to C10, then further properties of
      the code (X1 to X16). *)

From Stdlib Require Import ZArith Lia Bool List DecimalString.
From stdpp Require Import base strings gmap list.
Import ListNotations.

Local Open Scope string_scope.
Local Open Scope list_scope.
Local Open Scope Z_scope.

(** ** Go values *)

(** [int] (on a 64-bit platform), [int64] and [time.Duration] are 64-bit
    two's complement integers: arithmetic wraps around. *)
Definition wrap64 (z : Z) : Z := (z + 2 ^ 63) mod 2 ^ 64 - 2 ^ 63.

Definition min_int64 : Z := - 2 ^ 63.
Definition max_int64 : Z := 2 ^ 63 - 1.

(** [syscall.Errno] values of linux. *)
Definition EPERM : Z := 1.
Definition ENOENT : Z := 2.
Definition EIO : Z := 5.
Definition EBADF : Z := 9.
Definition EAGAIN : Z := 11.
Definition EWOULDBLOCK : Z := EAGAIN.
Definition EACCES : Z := 13.
Definition EEXIST : Z := 17.
Definition EINVAL : Z := 22.
Definition ENOSYS : Z := 38.
Definition ENOTEMPTY : Z := 39.
Definition ENOTSUP : Z := 95.

(** [syscall.Errno] values of windows. *)
Definition ERROR_ACCESS_DENIED : Z := 5.
Definition ERROR_FILE_EXISTS : Z := 80.

(** A non-nil value of the interface type [error].

    The sentinels of the standard library are package-level pointers; each
    is a constructor of its own, so that Go's [==] on them (pointer
    identity) is equality of constructors.  [errorString] is the value of
    a call of [fmt.Errorf] whose format has no [%w] (a fresh
    [*errors.errorString], identical to no sentinel), [wrapError] the
    value of a call whose format has one [%w]: [msg] is the format with
    the other verbs expanded, [err] the wrapped operand.  [PathError] is
    [*fs.PathError], what the functions of package [os] return. *)
Inductive error : Type :=
| ErrExist                                   (* os.ErrExist *)
| ErrPermission                              (* os.ErrPermission *)
| ErrNotExist                                (* os.ErrNotExist *)
| ErrClosed                                  (* os.ErrClosed *)
| ErrUnsupported                             (* errors.ErrUnsupported *)
| Canceled                                   (* context.Canceled *)
| DeadlineExceeded                           (* context.DeadlineExceeded *)
| Errno (e : Z)                              (* syscall.Errno *)
| PathError (op path : string) (err : error)
| errorString (s : string)
| wrapError (msg : string) (err : error).

(** Go's [==] on two non-nil interface values of type [error]. *)
Fixpoint error_eqb (a b : error) : bool :=
  match a, b with
  | ErrExist, ErrExist | ErrPermission, ErrPermission
  | ErrNotExist, ErrNotExist | ErrClosed, ErrClosed
  | ErrUnsupported, ErrUnsupported
  | Canceled, Canceled | DeadlineExceeded, DeadlineExceeded => true
  | Errno x, Errno y => x =? y
  | PathError o p e, PathError o' p' e' =>
      String.eqb o o' && String.eqb p p' && error_eqb e e'
  | errorString s, errorString s' => String.eqb s s'
  | wrapError m e, wrapError m' e' => String.eqb m m' && error_eqb e e'
  | _, _ => false
  end.

(** The method [Is] of [syscall.Errno]. *)
Definition Errno_Is (e : Z) (target : error) : bool :=
  match target with
  | ErrPermission => (e =? EACCES) || (e =? EPERM)
  | ErrExist => (e =? EEXIST) || (e =? ENOTEMPTY)
  | ErrNotExist => e =? ENOENT
  | ErrUnsupported => (e =? ENOSYS) || (e =? ENOTSUP)
  | _ => false
  end.

(** [errors.Is] on non-nil operands: the chain of [Unwrap] is followed
    until a link equals the target or says so through its [Is] method. *)
Fixpoint errors_Is (err target : error) : bool :=
  error_eqb err target
  || match err with
     | Errno e => Errno_Is e target
     | PathError _ _ inner => errors_Is inner target
     | wrapError _ inner => errors_Is inner target
     | _ => false
     end.

(** ** The classifier [IsTemporary] *)

(** [IsTemporary] switches on the identity of the error; [None] is the
    nil error.  [GOOS] is [runtime.GOOS]. *)
Definition IsTemporary (GOOS : string) (err : option error) : bool :=
  match err with
  | Some ErrExist => true
  | Some ErrPermission =>
      if String.eqb GOOS "windows" then
        (* On Windows, os.ErrPermission can be returned by Create if a
           previous lock file is in the process of being deleted. *)
        true
      else false
  | _ => false
  end.

(** ** The operating system and the Go runtime, as the package uses them *)

Definition Fd : Type := Z.

(** The fields of [syscall.Stat_t] that the package or [os.SameFile]
    reads. *)
Record Stat_t : Type := mkStat { Dev : Z; Ino : Z; Nlink : Z; Size : Z }.

(** The answer of the [select] of [WaitCtx]: the channel of [ctx.Done]
    was ready, or the channel of the timer.  [ctx.Err] is, once [Done] is
    closed, [context.Canceled] or [context.DeadlineExceeded] (the contract
    of [context.Context]); the answer says which. *)
Inductive CtxErr : Type := CtxCanceled | CtxDeadlineExceeded.

Inductive Select : Type := SelDone (why : CtxErr) | SelTimer.

(** What the process asks of its environment, with the answer it got. *)
Inductive Event : Type :=
| EvOpen (path : string) (flag perm : Z) (r : Fd + Z)
| EvFlock (fd : Fd) (how : Z) (r : option Z)
| EvFstat (fd : Fd) (r : Stat_t + Z)
| EvStat (path : string) (r : Stat_t + Z)
| EvUnlink (path : string) (r : option Z)
| EvClose (fd : Fd) (r : option Z)
| EvCreateFile (name : string) (access share mode attrs : Z) (r : Fd + Z)
| EvCloseHandle (h : Fd) (r : option Z)
| EvIntN (n : Z) (r : Z)
| EvNewTimer (d : Z)
| EvTimerReset (d : Z)
| EvSelect (r : Select).

(** The system calls of the POSIX build over a world [W].  A call answers
    with a value or with an errno ([inr], or [Some] where there is no
    value) and leaves a new world. *)
Class PosixSys (W : Type) : Type := {
  sys_open : string -> Z -> Z -> W -> (Fd + Z) * W;
  sys_flock : Fd -> Z -> W -> option Z * W;
  sys_fstat : Fd -> W -> (Stat_t + Z) * W;
  sys_stat : string -> W -> (Stat_t + Z) * W;
  sys_unlink : string -> W -> option Z * W;
  sys_close : Fd -> W -> option Z * W
}.

(** The system calls of the windows build. *)
Class WinSys (W : Type) : Type := {
  sys_CreateFile : string -> Z -> Z -> Z -> Z -> W -> (Fd + Z) * W;
  sys_CloseHandle : Fd -> W -> option Z * W
}.

(** The runtime services of wait.go: the default random source of
    [math/rand/v2], the timer and the context.  [IntN n] is, for [0 < n],
    a number of the half-open interval [[0,n)]. *)
Class Runtime (W : Type) : Type := {
  rt_IntN : Z -> W -> Z * W;
  rt_timer : Z -> W -> W;
  rt_select : W -> Select * W;
  rt_IntN_range : forall n w, 0 < n -> 0 <= fst (rt_IntN n w) < n
}.

(** ** The effect monad *)

Record State (W : Type) : Type := mkState { world : W; trace : list Event }.
Arguments mkState {W} _ _.
Arguments world {W} _.
Arguments trace {W} _.

(** A Go call returns, panics, or (in this embedding) exhausts the fuel
    given to its loop. *)
Inductive outcome (A : Type) : Type :=
| Ret (a : A)
| Panic (msg : string)
| OutOfFuel.
Arguments Ret {A} _.
Arguments Panic {A} _.
Arguments OutOfFuel {A}.

Definition M (W A : Type) : Type := State W -> outcome A * State W.

Definition ret {W A} (a : A) : M W A := fun s => (Ret a, s).

Definition bind {W A B} (c : M W A) (k : A -> M W B) : M W B :=
  fun s =>
    match c s with
    | (Ret a, s') => k a s'
    | (Panic msg, s') => (Panic msg, s')
    | (OutOfFuel, s') => (OutOfFuel, s')
    end.

Definition panic {W A} (msg : string) : M W A := fun s => (Panic msg, s).

Definition out_of_fuel {W A} : M W A := fun s => (OutOfFuel, s).

(** A request to the environment: the world moves and the event is
    appended to the trace. *)
Definition request {W A} (op : W -> A * W) (ev : A -> Event) : M W A :=
  fun s =>
    let (r, w) := op (world s) in
    (Ret r, mkState w (trace s ++ [ev r])).

Declare Scope go_scope.
Delimit Scope go_scope with go.
Notation "x <- c ;; k" := (bind c (fun x => k))
  (at level 100, c at next level, right associativity) : go_scope.
Notation "c ;;; k" := (bind c (fun _ => k))
  (at level 100, right associativity) : go_scope.
Local Open Scope go_scope.

(** ** The standard library over the system calls *)

(** A double quote, and [%s] between two of them as the formats of the
    package have it. *)
Definition dquote : string := String (Ascii.ascii_of_nat 34) EmptyString.
Definition quoted (s : string) : string := dquote +:+ s +:+ dquote.

(** The dynamic value behind [FileInfo.Sys()]: a [*syscall.Stat_t]
    (possibly the nil pointer) or a value of another type. *)
Inductive SysValue : Type :=
| SysStat_t (p : option Stat_t)
| SysOther.

Module os.

Definition O_CREATE : Z := 64.

(** [*os.File]: the descriptor and the name the file was opened with. *)
Record File : Type := mkFile { fd : Fd; name : string }.

(** [os.FileInfo] as [os.Stat] and [File.Stat] fill it on unix. *)
Record FileInfo : Type := mkFileInfo { fi_Size : Z; fi_Sys : SysValue }.

Definition FileInfo_of (st : Stat_t) : FileInfo :=
  mkFileInfo (Size st) (SysStat_t (Some st)).

Section Calls.
Context {W : Type} `{PosixSys W}.

(** Failures of [os] calls are [*PathError] values. *)
Definition OpenFile (name : string) (flag perm : Z)
  : M W (File + error) :=
  r <- request (sys_open name flag perm) (EvOpen name flag perm) ;;
  match r with
  | inl fd => ret (inl (mkFile fd name))
  | inr e => ret (inr (PathError "open" name (Errno e)))
  end.

Definition File_Stat (f : File) : M W (FileInfo + error) :=
  r <- request (sys_fstat (fd f)) (EvFstat (fd f)) ;;
  match r with
  | inl st => ret (inl (FileInfo_of st))
  | inr e => ret (inr (PathError "stat" (name f) (Errno e)))
  end.

Definition Stat (name : string) : M W (FileInfo + error) :=
  r <- request (sys_stat name) (EvStat name) ;;
  match r with
  | inl st => ret (inl (FileInfo_of st))
  | inr e => ret (inr (PathError "stat" name (Errno e)))
  end.

Definition File_Close (f : File) : M W (option error) :=
  r <- request (sys_close (fd f)) (EvClose (fd f)) ;;
  match r with
  | None => ret None
  | Some e => ret (Some (PathError "close" (name f) (Errno e)))
  end.
End Calls.

(** [os.SameFile]: on unix the device and inode fields of the two
    underlying structures are identical. *)
Definition SameFile (fi1 fi2 : FileInfo) : bool :=
  match fi_Sys fi1, fi_Sys fi2 with
  | SysStat_t (Some s1), SysStat_t (Some s2) =>
      (Dev s1 =? Dev s2) && (Ino s1 =? Ino s2)
  | _, _ => false
  end.

End os.

Module syscall.

Definition LOCK_EX : Z := 2.
Definition LOCK_NB : Z := 4.

Section Calls.
Context {W : Type} `{PosixSys W}.

(** Failures of [syscall] calls are [syscall.Errno] values. *)
Definition Flock (fd : Fd) (how : Z) : M W (option error) :=
  r <- request (sys_flock fd how) (EvFlock fd how) ;;
  ret (option_map Errno r).

Definition Unlink (path : string) : M W (option error) :=
  r <- request (sys_unlink path) (EvUnlink path) ;;
  ret (option_map Errno r).
End Calls.

End syscall.

(** ** file_linux.go (build tag [!windows]) *)

Module Posix.

(** [File] is an open lock file.  The mutex of the Go struct serializes
    the calls of [Close]; the embedding is sequential, a call runs from
    its entry to its return. *)
Record File : Type := mkFile { path : string; file : option os.File }.

Section Code.
Context {W : Type} `{PosixSys W}.

(** [Create]: one round of the [for] loop per unit of fuel. *)
Fixpoint Create (fuel : nat) (path : string)
  : M W (option File * option error) :=
  match fuel with
  | O => out_of_fuel
  | S fuel =>
    r <- os.OpenFile path os.O_CREATE 256 (* 0400 *) ;;
    match r with
    | inr err => ret (None, Some err)
    | inl file =>
      let fd := os.fd file in
      e <- syscall.Flock fd (Z.lor syscall.LOCK_EX syscall.LOCK_NB) ;;
      match e with
      | Some err =>
        os.File_Close file ;;;
        if errors_Is err (Errno EWOULDBLOCK)
        then ret (None, Some ErrExist)
        else ret (None, Some err)
      | None =>
        r <- os.File_Stat file ;;
        match r with
        | inr err =>
          os.File_Close file ;;;
          ret (None, Some (wrapError
            ("failed to stat lock file " +:+ quoted path
               +:+ " after creation: %w") err))
        | inl fi =>
          if negb (os.fi_Size fi =? 0) then
            ret (None, Some (errorString
              ("the lock file " +:+ quoted path +:+ " is not empty")))
          else
            match os.fi_Sys fi with
            | SysStat_t (Some stat) =>
              if Nlink stat =? 0 then
                os.File_Close file ;;;
                Create fuel path (* We lost this race. Try again. *)
              else
                ret (Some (mkFile path (Some file)), None)
            | _ =>
              os.File_Close file ;;;
              ret (None, Some (errorString
                ("the os.Stat call for lock file " +:+ quoted path
                   +:+ " returned an unexpected data type")))
            end
        end
      end
    end
  end.

(** The statements of [Close] between the [defer] and the end of the
    body: the value they leave in the named result [err]. *)
Definition Close_body (path : string) (file : os.File)
  : M W (option error) :=
  r1 <- os.File_Stat file ;;
  match r1 with
  | inr err =>
    ret (Some (wrapError
      ("failed to stat opened lock file " +:+ quoted path
         +:+ " before deletion: %w") err))
  | inl fi1 =>
    r2 <- os.Stat path ;;
    match r2 with
    | inr err =>
      ret (Some (wrapError
        ("failed to stat existing lock file " +:+ quoted path
           +:+ " by its before deletion: %w") err))
    | inl fi2 =>
      if negb (os.SameFile fi1 fi2) then
        ret (Some (errorString
          ("failed to unlink lock file " +:+ quoted path
             +:+ ": the file was moved or deleted")))
      else
        e <- syscall.Unlink path ;;
        match e with
        | Some err =>
          ret (Some (wrapError
            ("failed to unlink lock file " +:+ quoted path +:+ ": %w")
            err))
        | None => ret None
        end
    end
  end.

(** [Close]: the body, then the deferred function, which closes the
    file, sets [f.file] to nil and keeps the first error.  The second
    component is the struct after the call. *)
Definition Close (f : File) : M W (option error * File) :=
  match file f with
  | None => ret (Some ErrClosed, f)
  | Some file =>
    err <- Close_body (path f) file ;;
    closeErr <- os.File_Close file ;;
    let f := mkFile (path f) None in
    match err with
    | None => ret (closeErr, f)
    | Some _ => ret (err, f)
    end
  end.
End Code.

End Posix.

(** ** The windows build: [createFile], [Create], [Close] *)

Module Windows.

Definition GENERIC_READ : Z := 0x80000000.
Definition CREATE_NEW : Z := 1.
Definition FILE_ATTRIBUTE_TEMPORARY : Z := 0x00000100.
Definition FILE_FLAG_DELETE_ON_CLOSE : Z := 0x04000000.

(** [File] is an open lock file; the mutex is left out as in [Posix]. *)
Record File : Type := mkFile { file : option os.File }.

(** [syscall.UTF16PtrFromString] refuses a string with a NUL byte. *)
Fixpoint has_NUL (s : string) : bool :=
  match s with
  | EmptyString => false
  | String c s => Ascii.eqb c Ascii.zero || has_NUL s
  end.

Section Code.
Context {W : Type} `{WinSys W}.
(** [syscall.EINVAL] of windows, a value the library invents. *)
Variable EINVAL_windows : Z.

Definition createFile (fileName : string)
    (access shareMode createMode flagsAndAttributes : Z)
  : M W (Fd + error) :=
  if (String.length fileName =? 0)%nat then
    ret (inr (Errno EINVAL_windows))
  else if has_NUL fileName then
    ret (inr (Errno EINVAL_windows))
  else
    r <- request
           (sys_CreateFile fileName access shareMode createMode
              flagsAndAttributes)
           (EvCreateFile fileName access shareMode createMode
              flagsAndAttributes) ;;
    match r with
    | inl handle => ret (inl handle)
    | inr e => ret (inr (Errno e))
    end.

Definition Create (path : string) : M W (option File * option error) :=
  r <- createFile path GENERIC_READ 0 CREATE_NEW
         (Z.lor FILE_ATTRIBUTE_TEMPORARY FILE_FLAG_DELETE_ON_CLOSE) ;;
  match r with
  | inr err =>
    match err with
    | Errno errno =>
      if errno =? ERROR_FILE_EXISTS then ret (None, Some ErrExist)
      else if errno =? ERROR_ACCESS_DENIED then
        (* pending deletion, or missing privileges *)
        ret (None, Some ErrPermission)
      else ret (None, Some err)
    | _ => ret (None, Some err)
    end
  | inl handle =>
    ret (Some (mkFile (Some (os.mkFile handle path))), None)
  end.

(** [os.File.Close] on windows closes the handle. *)
Definition File_Close (f : os.File) : M W (option error) :=
  r <- request (sys_CloseHandle (os.fd f)) (EvCloseHandle (os.fd f)) ;;
  match r with
  | None => ret None
  | Some e => ret (Some (PathError "close" (os.name f) (Errno e)))
  end.

Definition Close (f : File) : M W (option error * File) :=
  match file f with
  | None => ret (Some ErrClosed, f)
  | Some file =>
    err <- File_Close file ;;
    ret (err, mkFile None)
  end.
End Code.

End Windows.

(** ** wait.go *)

Module time.
(** [time.Duration] counts nanoseconds. *)
Definition Millisecond : Z := 1000000.
End time.

Section Wait.
Context {W : Type} `{Runtime W}.

(** [rand.IntN] panics if [n <= 0]. *)
Definition rand_IntN (n : Z) : M W Z :=
  if n <=? 0 then panic "invalid argument to IntN"
  else request (rt_IntN n) (EvIntN n).

Definition time_NewTimer (d : Z) : M W unit :=
  fun s => (Ret tt, mkState (rt_timer d (world s))
                            (trace s ++ [EvNewTimer d])).

Definition timer_Reset (d : Z) : M W unit :=
  fun s => (Ret tt, mkState (rt_timer d (world s))
                            (trace s ++ [EvTimerReset d])).

(** [select] on [ctx.Done()] and [timer.C]. *)
Definition select_Done_or_timer : M W Select :=
  request rt_select EvSelect.

Definition ctx_Err (why : CtxErr) : error :=
  match why with
  | CtxCanceled => Canceled
  | CtxDeadlineExceeded => DeadlineExceeded
  end.

(** [randomBackoff] returns a random backoff time between 0 and 1
    second. *)
Definition randomBackoff (attempt : Z) : M W Z :=
  let attempt := if attempt >? 99 then 99 else attempt in
  milliseconds <- rand_IntN (wrap64 (wrap64 (1 + attempt) * 10)) ;;
  ret (wrap64 (time.Millisecond * milliseconds)).

(** The build's platform: [runtime.GOOS] and its [Create]. *)
Variable GOOS : string.
Variable File : Type.
Variable Create : string -> M W (option File * option error).

(** The [for] loop of [WaitCtx], one round per unit of fuel. *)
Fixpoint WaitCtx_loop (fuel : nat) (path : string) (attempt : Z)
  : M W (option File * option error) :=
  match fuel with
  | O => out_of_fuel
  | S fuel =>
    sel <- select_Done_or_timer ;;
    match sel with
    | SelDone why => ret (None, Some (ctx_Err why))
    | SelTimer =>
      r <- Create path ;;
      let '(file, err) := r in
      match err with
      | None => ret (file, None)
      | Some _ =>
        if negb (IsTemporary GOOS err) then ret (None, err)
        else
          let attempt := wrap64 (attempt + 1) in
          delay <- randomBackoff attempt ;;
          timer_Reset delay ;;;
          WaitCtx_loop fuel path attempt
      end
    end
  end.

Definition WaitCtx (fuel : nat) (path : string)
  : M W (option File * option error) :=
  r <- Create path ;;
  let '(file, err) := r in
  match err with
  | None => ret (file, None)
  | Some _ =>
    if negb (IsTemporary GOOS err) then ret (None, err)
    else
      let attempt := 0 in
      delay <- randomBackoff attempt ;;
      time_NewTimer delay ;;;
      WaitCtx_loop fuel path attempt
  end.
End Wait.

(** ** A simulated file system

    An instance of the interfaces, small enough to run: a directory of
    names, inodes with a size, a link count and the owner of the advisory
    lock, and the descriptors of this process.  Other processes appear
    only through the locks they hold.  Permissions are not modelled: every
    file can be opened.  A list of faults lets a run make chosen system
    calls fail: the n-th call consumes the n-th entry and, when the entry
    is an errno, fails with it and does nothing else. *)

Module Sim.

(** Who holds the lock of an inode: the open file description behind
    one of our descriptors, or another process. *)
Inductive Owner : Type := Self (fd : Fd) | Other.

Record Inode : Type :=
  mkInode { i_size : Z; i_nlink : Z; i_lock : option Owner }.

Record FS : Type := mkFS {
  dir : gmap string Z;
  inodes : gmap Z Inode;
  fds : gmap Z Z;
  next_fd : Z;
  next_ino : Z;
  faults : list (option Z);
  draws : list Z;
  selects : list Select
}.

Definition with_files (w : FS) (d : gmap string Z) (i : gmap Z Inode)
    (f : gmap Z Z) (nf ni : Z) : FS :=
  mkFS d i f nf ni (faults w) (draws w) (selects w).

Definition with_faults (w : FS) (fs : list (option Z)) : FS :=
  mkFS (dir w) (inodes w) (fds w) (next_fd w) (next_ino w) fs (draws w)
    (selects w).

Definition inject {A : Type} (fail : Z -> A) (op : FS -> A * FS) (w : FS)
  : A * FS :=
  match faults w with
  | [] => op w
  | None :: fs => op (with_faults w fs)
  | Some e :: fs => (fail e, with_faults w fs)
  end.

Definition stat_of (ino : Z) (i : Inode) : Stat_t :=
  mkStat 1 ino (i_nlink i) (i_size i).

Definition open (path : string) (flag perm : Z) : FS -> (Fd + Z) * FS :=
  inject inr (fun w =>
    match dir w !! path with
    | Some ino =>
      (inl (next_fd w),
       with_files w (dir w) (inodes w) (<[next_fd w := ino]> (fds w))
         (next_fd w + 1) (next_ino w))
    | None =>
      if Z.land flag os.O_CREATE =? 0 then (inr ENOENT, w)
      else
        (inl (next_fd w),
         with_files w (<[path := next_ino w]> (dir w))
           (<[next_ino w := mkInode 0 1 None]> (inodes w))
           (<[next_fd w := next_ino w]> (fds w))
           (next_fd w + 1) (next_ino w + 1))
    end).

Definition set_lock (ino : Z) (o : option Owner) (w : FS) : FS :=
  with_files w (dir w)
    (alter (fun i => mkInode (i_size i) (i_nlink i) o) ino (inodes w))
    (fds w) (next_fd w) (next_ino w).

(** [flock] with [LOCK_EX|LOCK_NB]: the lock is attached to the open
    file description, so a second descriptor of the same process
    conflicts like another process does. *)
Definition flock (fd : Fd) (how : Z) : FS -> option Z * FS :=
  inject Some (fun w =>
    match fds w !! fd with
    | None => (Some EBADF, w)
    | Some ino =>
      match inodes w !! ino with
      | None => (Some EBADF, w)
      | Some i =>
        match i_lock i with
        | None => (None, set_lock ino (Some (Self fd)) w)
        | Some (Self fd') =>
            if fd' =? fd then (None, w) else (Some EWOULDBLOCK, w)
        | Some Other => (Some EWOULDBLOCK, w)
        end
      end
    end).

Definition fstat (fd : Fd) : FS -> (Stat_t + Z) * FS :=
  inject inr (fun w =>
    match fds w !! fd with
    | None => (inr EBADF, w)
    | Some ino =>
      match inodes w !! ino with
      | None => (inr EBADF, w)
      | Some i => (inl (stat_of ino i), w)
      end
    end).

Definition stat (path : string) : FS -> (Stat_t + Z) * FS :=
  inject inr (fun w =>
    match dir w !! path with
    | None => (inr ENOENT, w)
    | Some ino =>
      match inodes w !! ino with
      | None => (inr ENOENT, w)
      | Some i => (inl (stat_of ino i), w)
      end
    end).

Definition unlink (path : string) : FS -> option Z * FS :=
  inject Some (fun w =>
    match dir w !! path with
    | None => (Some ENOENT, w)
    | Some ino =>
      (None,
       with_files w (delete path (dir w))
         (alter (fun i => mkInode (i_size i) (i_nlink i - 1) (i_lock i))
            ino (inodes w))
         (fds w) (next_fd w) (next_ino w))
    end).

Definition unlock_of (fd : Fd) (i : Inode) : Inode :=
  match i_lock i with
  | Some (Self fd') =>
      if fd' =? fd then mkInode (i_size i) (i_nlink i) None else i
  | _ => i
  end.

(** Closing the descriptor releases the lock of its description; a
    failing [close] releases the descriptor all the same, as on linux. *)
Definition release (fd : Fd) (w : FS) : FS :=
  match fds w !! fd with
  | None => w
  | Some ino =>
    with_files w (dir w) (alter (unlock_of fd) ino (inodes w))
      (delete fd (fds w)) (next_fd w) (next_ino w)
  end.

Definition close (fd : Fd) (w : FS) : option Z * FS :=
  match faults w with
  | Some e :: fs => (Some e, release fd (with_faults w fs))
  | None :: fs =>
    (match fds w !! fd with None => Some EBADF | Some _ => None end,
     release fd (with_faults w fs))
  | [] =>
    (match fds w !! fd with None => Some EBADF | Some _ => None end,
     release fd w)
  end.

#[global] Instance posix : PosixSys FS := {|
  sys_open := open;
  sys_flock := flock;
  sys_fstat := fstat;
  sys_stat := stat;
  sys_unlink := unlink;
  sys_close := close
|}.

(** The random source hands out the upcoming draws, reduced to the
    interval asked for; the [select] answers follow a script and report
    the deadline when the script is over. *)
Definition IntN (n : Z) (w : FS) : Z * FS :=
  match draws w with
  | [] => (0, w)
  | d :: ds =>
    (d mod n,
     mkFS (dir w) (inodes w) (fds w) (next_fd w) (next_ino w) (faults w)
       ds (selects w))
  end.

Definition select (w : FS) : Select * FS :=
  match selects w with
  | [] => (SelDone CtxDeadlineExceeded, w)
  | x :: xs =>
    (x, mkFS (dir w) (inodes w) (fds w) (next_fd w) (next_ino w)
          (faults w) (draws w) xs)
  end.

Lemma IntN_range n w : 0 < n -> 0 <= fst (IntN n w) < n.
Proof.
  intros Hn. unfold IntN. destruct (draws w) as [|d ds]; simpl.
  - lia.
  - apply Z.mod_pos_bound. exact Hn.
Qed.

#[global] Instance runtime : Runtime FS := {|
  rt_IntN := IntN;
  rt_timer := fun _ w => w;
  rt_select := select;
  rt_IntN_range := IntN_range
|}.

(** An empty file system, and one where a file of the given size and
    lock owner is at [path] (inode 2, one link). *)
Definition empty : FS := mkFS ∅ ∅ ∅ 3 2 [] [] [].

Definition with_file (path : string) (size : Z) (lock : option Owner)
  : FS :=
  mkFS {[ path := 2 ]} {[ 2 := mkInode size 1 lock ]} ∅ 3 3 [] [] [].

Definition start (w : FS) : State FS := mkState w [].

(** The windows name space: the files that exist and the handles of
    this process.  Every file was created delete-on-close. *)
Record WinFS : Type := mkWinFS {
  files : gset string;
  handles : gmap Z string;
  next_handle : Z
}.

Definition CreateFile (name : string) (access share mode attrs : Z)
    (w : WinFS) : (Fd + Z) * WinFS :=
  if decide (name ∈ files w) then (inr ERROR_FILE_EXISTS, w)
  else
    (inl (next_handle w),
     mkWinFS ({[ name ]} ∪ files w)
       (<[next_handle w := name]> (handles w)) (next_handle w + 1)).

Definition CloseHandle (h : Fd) (w : WinFS) : option Z * WinFS :=
  match handles w !! h with
  | None => (Some 6 (* ERROR_INVALID_HANDLE *), w)
  | Some name =>
    (None, mkWinFS (files w ∖ {[ name ]}) (delete h (handles w))
             (next_handle w))
  end.

#[global] Instance windows : WinSys WinFS := {|
  sys_CreateFile := CreateFile;
  sys_CloseHandle := CloseHandle
|}.

End Sim.

(** ** The helpers of the tests and the example *)

Module Tests.

(** [%d] of an integer. *)
Definition decimal (z : Z) : string :=
  DecimalString.NilZero.string_of_int (Z.to_int z).

(** [counter.Add]: the atomic addition on the shared [atomic.Int64].
    The additions of all goroutines happen one after the other; a
    sequence of calls is given in that order. *)
Definition counter_Add (delta : Z) (counter : Z) : Z * Z :=
  let value := wrap64 (counter + delta) in (value, value).

(** [acquire] records a lock acquisition by updating the counter. *)
Definition acquire (counter : Z) : option error * Z :=
  let '(value, counter) := counter_Add 1 counter in
  if negb (value =? 1) then
    (Some (errorString
       ("adding 1 to lock counter returned an unexpected value: "
          +:+ decimal value)), counter)
  else (None, counter).

(** [release] records a lock release by updating the counter. *)
Definition release (counter : Z) : option error * Z :=
  let '(value, counter) := counter_Add (-1) counter in
  if negb (value =? 0) then
    (Some (errorString
       ("subtracting 1 from the lock counter returned an unexpected value: "
          +:+ decimal value)), counter)
  else (None, counter).

(** A call of one of the two helpers, and a sequence of calls in the
    order of their additions. *)
Inductive Call : Type := Acquire | Release.

Definition call (c : Call) (counter : Z) : option error * Z :=
  match c with
  | Acquire => acquire counter
  | Release => release counter
  end.

Fixpoint calls (cs : list Call) (counter : Z) : list (option error) * Z :=
  match cs with
  | [] => ([], counter)
  | c :: cs =>
    let '(err, counter) := call c counter in
    let '(errs, counter) := calls cs counter in
    (err :: errs, counter)
  end.

(** The calls alternate: an [Acquire] only when the lock is not held, a
    [Release] only when it is. *)
Fixpoint alternate (held : bool) (cs : list Call) : bool :=
  match cs with
  | [] => true
  | Acquire :: cs => negb held && alternate true cs
  | Release :: cs => held && alternate false cs
  end.

(** A line written with [fmt.Printf]: the format and its operand. *)
Definition Line : Type := string * option error.

Definition newline : string := String (Ascii.ascii_of_nat 10) EmptyString.

Section Example.
Context {W : Type} `{PosixSys W} `{Runtime W}.
Variable GOOS : string.

(** [ExampleWaitCtx]: the value is what the example prints.  The [Close]
    is deferred, it runs after the line of the acquisition is printed.
    The deadline of the context is in the answers of the [select]. *)
Definition ExampleWaitCtx (fuel cfuel : nat) : M W (list Line) :=
  r <- WaitCtx GOOS Posix.File (Posix.Create cfuel) fuel "test.lock" ;;
  let '(lock, err) := r in
  match err with
  | Some e =>
    ret [("Lock Acquisition Failed: %v" +:+ newline, Some e)]
  | None =>
    match lock with
    | None => panic "invalid memory address or nil pointer dereference"
    | Some lock =>
      let acquired := ("Lock Acquired" +:+ newline, None) in
      r <- Posix.Close lock ;;
      match fst r with
      | Some e =>
        ret [acquired; ("Lock Release Failed: %v" +:+ newline, Some e)]
      | None => ret [acquired]
      end
    end
  end.
End Example.

End Tests.

(** ** The runs of [Create], as traces *)

(** The second argument of the [flock] call. *)
Definition LOCK_EX_NB : Z := Z.lor syscall.LOCK_EX syscall.LOCK_NB.

(** The errors [Create] builds. *)
Definition not_empty_error (path : string) : error :=
  errorString ("the lock file " +:+ quoted path +:+ " is not empty").

Definition stat_failed_error (path : string) (e : Z) : error :=
  wrapError
    ("failed to stat lock file " +:+ quoted path +:+ " after creation: %w")
    (PathError "stat" path (Errno e)).

(** [Create_run path evs o]: the events a call of [Create path] issues,
    and how it ends.  Every round opens the path; a round that finds the
    locked file unlinked closes it and is followed by the next round. *)
Inductive Create_run (path : string)
  : list Event -> outcome (option Posix.File * option error) -> Prop :=
| CR_out_of_fuel : Create_run path [] OutOfFuel
| CR_open_failed e :
    Create_run path [EvOpen path os.O_CREATE 256 (inr e)]
      (Ret (None, Some (PathError "open" path (Errno e))))
| CR_flock_failed fd e c :
    Create_run path
      [EvOpen path os.O_CREATE 256 (inl fd); EvFlock fd LOCK_EX_NB (Some e);
       EvClose fd c]
      (Ret (None, Some (if e =? EWOULDBLOCK then ErrExist else Errno e)))
| CR_stat_failed fd e c :
    Create_run path
      [EvOpen path os.O_CREATE 256 (inl fd); EvFlock fd LOCK_EX_NB None;
       EvFstat fd (inr e); EvClose fd c]
      (Ret (None, Some (stat_failed_error path e)))
| CR_not_empty fd st :
    Size st <> 0 ->
    Create_run path
      [EvOpen path os.O_CREATE 256 (inl fd); EvFlock fd LOCK_EX_NB None;
       EvFstat fd (inl st)]
      (Ret (None, Some (not_empty_error path)))
| CR_acquired fd st :
    Size st = 0 -> Nlink st <> 0 ->
    Create_run path
      [EvOpen path os.O_CREATE 256 (inl fd); EvFlock fd LOCK_EX_NB None;
       EvFstat fd (inl st)]
      (Ret (Some (Posix.mkFile path (Some (os.mkFile fd path))), None))
| CR_retry fd st c evs o :
    Size st = 0 -> Nlink st = 0 ->
    Create_run path evs o ->
    Create_run path
      ([EvOpen path os.O_CREATE 256 (inl fd); EvFlock fd LOCK_EX_NB None;
        EvFstat fd (inl st); EvClose fd c] ++ evs) o.

(** ** The runs of [Close], as traces *)

(** The errors [Close] builds. *)
Definition moved_error (path : string) : error :=
  errorString
    ("failed to unlink lock file " +:+ quoted path
       +:+ ": the file was moved or deleted").

Definition unlink_failed_error (path : string) (e : Z) : error :=
  wrapError ("failed to unlink lock file " +:+ quoted path +:+ ": %w")
    (Errno e).

Definition same_inode (st1 st2 : Stat_t) : Prop :=
  Dev st1 = Dev st2 /\ Ino st1 = Ino st2.

(** [Close_body_run path file evs err]: the events of the body of [Close]
    on an open handle, up to the deferred function, and the error the
    body leaves. *)
Inductive Close_body_run (path : string) (file : os.File)
  : list Event -> option error -> Prop :=
| CB_fstat_failed e :
    Close_body_run path file [EvFstat (os.fd file) (inr e)]
      (Some (wrapError
         ("failed to stat opened lock file " +:+ quoted path
            +:+ " before deletion: %w")
         (PathError "stat" (os.name file) (Errno e))))
| CB_stat_failed st1 e :
    Close_body_run path file
      [EvFstat (os.fd file) (inl st1); EvStat path (inr e)]
      (Some (wrapError
         ("failed to stat existing lock file " +:+ quoted path
            +:+ " by its before deletion: %w")
         (PathError "stat" path (Errno e))))
| CB_moved st1 st2 :
    ~ same_inode st1 st2 ->
    Close_body_run path file
      [EvFstat (os.fd file) (inl st1); EvStat path (inl st2)]
      (Some (moved_error path))
| CB_unlink_failed st1 st2 e :
    same_inode st1 st2 ->
    Close_body_run path file
      [EvFstat (os.fd file) (inl st1); EvStat path (inl st2);
       EvUnlink path (Some e)]
      (Some (unlink_failed_error path e))
| CB_unlinked st1 st2 :
    same_inode st1 st2 ->
    Close_body_run path file
      [EvFstat (os.fd file) (inl st1); EvStat path (inl st2);
       EvUnlink path None]
      None.

(** The error of [os.File.Close] for the answer of the system call. *)
Definition close_error (file : os.File) (c : option Z) : option error :=
  match c with
  | None => None
  | Some e => Some (PathError "close" (os.name file) (Errno e))
  end.

(** What the deferred function makes of the error of the body and the
    error of the close. *)
Definition first_error (err closeErr : option error) : option error :=
  match err with
  | None => closeErr
  | Some _ => err
  end.

(** ** Scenarios on the simulated file system *)

(** What [stat] can tell of the files of a simulated file system: the
    names, and the size and link count of every inode. *)
Definition Sim_same_files (w w' : Sim.FS) : Prop :=
  Sim.dir w' = Sim.dir w
  /\ forall ino,
       (fun i => (Sim.i_size i, Sim.i_nlink i)) <$> Sim.inodes w' !! ino
       = (fun i => (Sim.i_size i, Sim.i_nlink i)) <$> Sim.inodes w !! ino.

(** A lock file that was replaced under its holder: descriptor 3 is open
    on inode 2, which has no name left, and the path names inode 5. *)
Definition Sim_replaced : Sim.FS :=
  Sim.mkFS {[ "test.lock" := 5 ]}
    (<[ 2 := Sim.mkInode 0 0 (Some (Sim.Self 3)) ]>
       {[ 5 := Sim.mkInode 0 1 None ]})
    {[ 3 := 2 ]} 4 6 [] [] [].

Definition Sim_handle : Posix.File :=
  Posix.mkFile "test.lock" (Some (os.mkFile 3 "test.lock")).

(** The lock file held through descriptor 3, and a windows name space
    where the lock file is held through handle 7. *)
Definition Sim_locked : Sim.FS :=
  Sim.mkFS {[ "test.lock" := 2 ]}
    {[ 2 := Sim.mkInode 0 1 (Some (Sim.Self 3)) ]} {[ 3 := 2 ]} 4 3 [] [] [].

Definition Sim_win_locked : Sim.WinFS :=
  Sim.mkWinFS {[ "test.lock" ]} {[ 7 := "test.lock" ]} 8.

(** The lock file held by another process, two draws of the random
    source, and a context that is cancelled after the timer has fired
    once. *)
Definition Sim_contended (script : list Select) : Sim.FS :=
  Sim.mkFS {[ "test.lock" := 2 ]}
    {[ 2 := Sim.mkInode 0 1 (Some Sim.Other) ]} ∅ 3 3 [] [7; 15] script.

(** ** Descriptors in a trace *)

(** The descriptors a list of events leaves open.  An [open] that
    answered with a descriptor adds that descriptor; a [close] takes out
    the descriptor it names, once, and only that one: a [close] of a
    descriptor that is not open changes nothing. *)
Fixpoint close_one (fd : Fd) (opened : list Fd) : list Fd :=
  match opened with
  | [] => []
  | fd' :: opened =>
    if fd' =? fd then opened else fd' :: close_one fd opened
  end.

Definition track (opened : list Fd) (ev : Event) : list Fd :=
  match ev with
  | EvOpen _ _ _ (inl fd) => opened ++ [fd]
  | EvClose fd _ => close_one fd opened
  | _ => opened
  end.

Definition left_open (evs : list Event) : list Fd :=
  fold_left track evs [].

(** The simulated [open] accepts every string as a name.  It answers
    as a file system does for the plain names: one component of the
    working directory, that is a name that is not empty, is not [.] or
    [..], has at most 255 bytes and has no [/] and no NUL in it. *)
Fixpoint has_char (c : Ascii.ascii) (s : string) : bool :=
  match s with
  | EmptyString => false
  | String c' s => Ascii.eqb c' c || has_char c s
  end.

Definition plain_name (path : string) : bool :=
  negb (String.length path =? 0)%nat
  && (String.length path <=? 255)%nat
  && negb (has_char (Ascii.ascii_of_nat 47) path)
  && negb (has_char Ascii.zero path)
  && negb (String.eqb path ".")
  && negb (String.eqb path "..").

(** A path is free on the simulated file system when no fault is pending
    and the path is absent or names an empty, linked file that nobody has
    locked.  It is held through a descriptor of this process when the
    descriptor is open on the inode the path names and owns its lock. *)
Definition Sim_free (path : string) (w : Sim.FS) : Prop :=
  Sim.faults w = []
  /\ match Sim.dir w !! path with
     | None => True
     | Some ino =>
         exists i,
           Sim.inodes w !! ino = Some i
           /\ Sim.i_lock i = None /\ Sim.i_size i = 0 /\ Sim.i_nlink i <> 0
     end.

Definition Sim_held_by (path : string) (fd : Fd) (w : Sim.FS) : Prop :=
  Sim.faults w = []
  /\ fd < Sim.next_fd w
  /\ exists ino i,
       Sim.dir w !! path = Some ino
       /\ Sim.fds w !! fd = Some ino
       /\ Sim.inodes w !! ino = Some i
       /\ Sim.i_lock i = Some (Sim.Self fd).

(** The one event of the windows [Create] that goes to the system: no
    sharing, create-new, a temporary file deleted on close. *)
Definition EvCreateNew (path : string) (r : Fd + Z) : Event :=
  EvCreateFile path Windows.GENERIC_READ 0 Windows.CREATE_NEW
    (Z.lor Windows.FILE_ATTRIBUTE_TEMPORARY Windows.FILE_FLAG_DELETE_ON_CLOSE)
    r.

(** The path names a file whose lock another process holds. *)
Definition Sim_held_by_other (path : string) (w : Sim.FS) : Prop :=
  Sim.faults w = []
  /\ exists ino i,
       Sim.dir w !! path = Some ino
       /\ Sim.inodes w !! ino = Some i
       /\ Sim.i_lock i = Some Sim.Other.

(** ** The runs of [WaitCtx], as traces *)

(** The events of wait.go itself: draws, timers, selects. *)
Definition is_wait_event (ev : Event) : bool :=
  match ev with
  | EvIntN _ _ | EvNewTimer _ | EvTimerReset _ | EvSelect _ => true
  | _ => false
  end.

Definition quiet (evs : list Event) : Prop :=
  List.filter is_wait_event evs = [].

(** The ceiling of the delay of an attempt, in milliseconds. *)
Definition backoff_bound (attempt : Z) : Z := (Z.min attempt 99 + 1) * 10.

(** [Loop_run GOOS a evs o]: the events of the loop of [WaitCtx] entered
    with attempt number [a], and how it ends.  [cevs] are the events of a
    call of [Create], whatever the build. *)
Inductive Loop_run {File : Type} (GOOS : string)
  : Z -> list Event -> outcome (option File * option error) -> Prop :=
| LR_out_of_fuel a : Loop_run GOOS a [] OutOfFuel
| LR_done a why :
    Loop_run GOOS a [EvSelect (SelDone why)]
      (Ret (None, Some (ctx_Err why)))
| LR_acquired a cevs file :
    quiet cevs ->
    Loop_run GOOS a (EvSelect SelTimer :: cevs) (Ret (file, None))
| LR_permanent a cevs e :
    quiet cevs -> IsTemporary GOOS (Some e) = false ->
    Loop_run GOOS a (EvSelect SelTimer :: cevs) (Ret (None, Some e))
| LR_create_out_of_fuel a cevs :
    quiet cevs ->
    Loop_run GOOS a (EvSelect SelTimer :: cevs) OutOfFuel
| LR_again a cevs d evs o :
    quiet cevs -> 0 <= d < backoff_bound (a + 1) ->
    Loop_run GOOS (a + 1) evs o ->
    Loop_run GOOS a
      (EvSelect SelTimer :: cevs
       ++ [EvIntN (backoff_bound (a + 1)) d;
           EvTimerReset (time.Millisecond * d)] ++ evs) o.

(** The draws announced in a trace, each with the bound asked for, and
    the durations the timer was armed with. *)
Definition draws_of (evs : list Event) : list (Z * Z) :=
  flat_map (fun ev => match ev with EvIntN n d => [(n, d)] | _ => [] end) evs.

Definition timers_of (evs : list Event) : list Z :=
  flat_map
    (fun ev =>
       match ev with
       | EvNewTimer d | EvTimerReset d => [d]
       | _ => []
       end) evs.

(** The bounds of the attempts [a], [a+1], ..., [a+k-1]. *)
Definition bounds_from (a : Z) (k : nat) : list Z :=
  map (fun i => backoff_bound (a + Z.of_nat i)) (seq 0 k).

(** ** Rounds of [Create] that end at a file that is not empty *)

Section NotEmptyRounds.
Context {W : Type} {PS : PosixSys W}.

(** The round of [Create] that finds a file that is not empty: the
    path is opened and locked, and [fstat] reports a size other than
    zero.  The state after it has these three calls and nothing more. *)
Definition not_empty_round (path : string) (s s' : State W) : Prop :=
  exists fd st w1 w2 w3,
    sys_open path os.O_CREATE 256 (world s) = (inl fd, w1)
    /\ sys_flock fd LOCK_EX_NB w1 = (None, w2)
    /\ sys_fstat fd w2 = (inl st, w3)
    /\ Size st <> 0
    /\ s' = mkState w3
              (trace s ++ [EvOpen path os.O_CREATE 256 (inl fd);
                           EvFlock fd LOCK_EX_NB None;
                           EvFstat fd (inl st)]).

(** A round of [Create] that loses the race: the file that was opened
    and locked is empty and has no link left; it is closed and the loop
    goes on. *)
Definition lost_round (path : string) (s s' : State W) : Prop :=
  exists fd st c w1 w2 w3 w4,
    sys_open path os.O_CREATE 256 (world s) = (inl fd, w1)
    /\ sys_flock fd LOCK_EX_NB w1 = (None, w2)
    /\ sys_fstat fd w2 = (inl st, w3)
    /\ Size st = 0 /\ Nlink st = 0
    /\ sys_close fd w3 = (c, w4)
    /\ s' = mkState w4
              (trace s ++ [EvOpen path os.O_CREATE 256 (inl fd);
                           EvFlock fd LOCK_EX_NB None;
                           EvFstat fd (inl st); EvClose fd c]).

(** [meets_not_empty path k s s']: from [s], [k] rounds of [Create path]
    lose the race and the next one finds a file that is not empty;
    [s'] is the state after that round. *)
Inductive meets_not_empty (path : string)
  : nat -> State W -> State W -> Prop :=
| MNE_now s s' :
    not_empty_round path s s' -> meets_not_empty path 0 s s'
| MNE_lost k s s1 s' :
    lost_round path s s1 ->
    meets_not_empty path k s1 s' ->
    meets_not_empty path (S k) s s'.

End NotEmptyRounds.

(** ** A file system that follows a script

    The processes that replace the lock file between two rounds of
    [Create] appear as the list of the upcoming answers of [fstat]:
    every [fstat] takes the next one.  The other calls of [Create]
    succeed, the descriptors are numbered by the count of the opens,
    the random source draws 0 and the timer always fires. *)

Module Scripted.

Record FS : Type := mkFS { next_fd : Z; stats : list Stat_t }.

Definition open (path : string) (flag perm : Z) (w : FS)
  : (Fd + Z) * FS :=
  (inl (next_fd w), mkFS (next_fd w + 1) (stats w)).

Definition fstat (fd : Fd) (w : FS) : (Stat_t + Z) * FS :=
  match stats w with
  | [] => (inr EBADF, w)
  | st :: l => (inl st, mkFS (next_fd w) l)
  end.

#[global] Instance posix : PosixSys FS := {|
  sys_open := open;
  sys_flock := fun _ _ w => (None, w);
  sys_fstat := fstat;
  sys_stat := fun _ w => (inr ENOENT, w);
  sys_unlink := fun _ w => (Some ENOENT, w);
  sys_close := fun _ w => (None, w)
|}.

Lemma draw_range (n : Z) (w : FS) : 0 < n -> 0 <= fst (0, w) < n.
Proof. cbn. lia. Qed.

#[global] Instance runtime : Runtime FS := {|
  rt_IntN := fun _ w => (0, w);
  rt_timer := fun _ w => w;
  rt_select := fun w => (SelTimer, w);
  rt_IntN_range := draw_range
|}.

(** An unlinked empty file first, a linked file of five bytes next. *)
Definition replaced : FS :=
  mkFS 3 [mkStat 1 2 0 0; mkStat 1 5 1 5].

End Scripted.

(** The lock file has five bytes; the first [flock] of the run is
    refused, and the timer fires once. *)
Definition Sim_not_empty_later : Sim.FS :=
  Sim.mkFS {[ "test.lock" := 2 ]} {[ 2 := Sim.mkInode 5 1 None ]} ∅ 3 3
    [None; Some EWOULDBLOCK] [] [SelTimer].

(** * Properties *)

(** ** Running the code *)

Ltac finish_run H :=
  inversion H; subst; clear H; cbn [trace world];
  rewrite <- ?app_assoc;
  eexists; (split; [reflexivity|]); cbn [app].

Ltac simp_run H :=
  cbn [os.fd os.name world trace option_map os.FileInfo_of os.fi_Size
       os.fi_Sys negb fst snd Posix.path Posix.file] in H.

Lemma errors_Is_Errno e t : errors_Is (Errno e) (Errno t) = (e =? t).
Proof. simpl. apply orb_false_r. Qed.

Section PosixRuns.
Context {W : Type} {PS : PosixSys W}.

(** Every call of [Create] follows [Create_run]: its trace grows by the
    events of the run. *)
Lemma Create_sound fuel path : forall s o s',
  Posix.Create fuel path s = (o, s') ->
  exists evs, trace s' = trace s ++ evs /\ Create_run path evs o.
Proof.
  induction fuel as [|fuel IH]; intros s o s' Hrun.
  - inversion Hrun; subst. exists []. rewrite app_nil_r.
    split; [reflexivity|constructor].
  - cbn [Posix.Create] in Hrun.
    unfold os.OpenFile, syscall.Flock, os.File_Stat, os.File_Close, bind,
      request, ret in Hrun.
    fold LOCK_EX_NB in Hrun.
    destruct (sys_open path os.O_CREATE 256 (world s)) as [[fd|e] w1] eqn:Ho;
      simp_run Hrun.
    2:{ finish_run Hrun. constructor. }
    destruct (sys_flock fd _ w1) as [[e|] w2] eqn:Hf; simp_run Hrun.
    { destruct (sys_close fd w2) as [c w3] eqn:Hc.
      rewrite errors_Is_Errno in Hrun.
      destruct c, (e =? EWOULDBLOCK) eqn:He; finish_run Hrun.
      all: pose proof (CR_flock_failed path fd e) as X; rewrite He in X;
        apply X. }
    destruct (sys_fstat fd w2) as [[st|e] w3] eqn:Hs; simp_run Hrun.
    2:{ destruct (sys_close fd w3) as [c w4] eqn:Hc.
        destruct c; finish_run Hrun; apply CR_stat_failed. }
    destruct (Z.eqb_spec (Size st) 0) as [Hz|Hnz]; simp_run Hrun.
    2:{ finish_run Hrun. apply CR_not_empty. exact Hnz. }
    destruct (Z.eqb_spec (Nlink st) 0) as [Hl|Hl].
    2:{ finish_run Hrun. apply CR_acquired; assumption. }
    simp_run Hrun.
    destruct (sys_close fd w3) as [c w4] eqn:Hc.
    destruct c; simp_run Hrun; apply IH in Hrun as (evs & Htr & Hevs);
      cbn [trace] in Htr;
      rewrite Htr, <- !app_assoc; eexists; (split; [reflexivity|]);
      apply (CR_retry path fd st _ evs o Hz Hl Hevs).
Qed.

End PosixRuns.

Lemma last_two_inv {A} (l l' : list A) a b a' b' :
  l ++ [a; b] = l' ++ [a'; b'] -> a = a' /\ b = b'.
Proof.
  intros Heq.
  change (l ++ [a; b]) with (l ++ [a] ++ [b]) in Heq.
  change (l' ++ [a'; b']) with (l' ++ [a'] ++ [b']) in Heq.
  rewrite !app_assoc in Heq.
  apply app_inj_tail in Heq as [Heq ->].
  apply app_inj_tail in Heq as [_ ->]. split; reflexivity.
Qed.

Lemma last_one_inv {A} (l l' : list A) a a' :
  l ++ [a] = l' ++ [a'] -> a = a'.
Proof. intros Heq. apply app_inj_tail in Heq as [_ ->]. reflexivity. Qed.

(** A run of [Create] ends with [os.ErrExist] exactly when its last two
    events are a [flock] refused with [EWOULDBLOCK] and the [close] that
    follows it. *)
Lemma Create_run_ErrExist path evs r :
  Create_run path evs (Ret r) ->
  forall t,
    snd r = Some ErrExist <->
    exists pre fd c,
      t ++ evs
      = pre ++ [EvFlock fd LOCK_EX_NB (Some EWOULDBLOCK); EvClose fd c].
Proof.
  intros Hrun. remember (Ret r) as o eqn:Ho. revert r Ho.
  induction Hrun as [|e|fd e c|fd e c|fd st Hsz|fd st Hsz Hl
                     |fd st c evs o Hsz Hl Hrun IH];
    intros r Ho t; try discriminate Ho.
  - injection Ho as <-. cbn. split; [discriminate|].
    intros (pre & fd & c & Heq).
    change (pre ++ [?a; ?b]) with (pre ++ [a] ++ [b]) in Heq.
    rewrite app_assoc in Heq. apply last_one_inv in Heq. discriminate.
  - injection Ho as <-. cbn. split.
    + destruct (Z.eqb_spec e EWOULDBLOCK) as [->|]; [|discriminate].
      intros _. exists (t ++ [EvOpen path os.O_CREATE 256 (inl fd)]), fd, c.
      rewrite <- app_assoc. reflexivity.
    + intros (pre & fd' & c' & Heq).
      change (t ++ [?a; ?b; ?c]) with (t ++ [a] ++ [b; c]) in Heq.
      rewrite app_assoc in Heq. apply last_two_inv in Heq as [Heq _].
      injection Heq as _ ->. reflexivity.
  - injection Ho as <-. cbn. split; [discriminate|].
    intros (pre & fd' & c' & Heq).
    change (t ++ [?a; ?b; ?c; ?d]) with (t ++ [a; b] ++ [c; d]) in Heq.
    rewrite app_assoc in Heq. apply last_two_inv in Heq as [Heq _].
    discriminate.
  - injection Ho as <-. cbn. split; [discriminate|].
    intros (pre & fd' & c' & Heq).
    change (t ++ [?a; ?b; ?c]) with (t ++ [a; b] ++ [c]) in Heq.
    change (pre ++ [?a; ?b]) with (pre ++ [a] ++ [b]) in Heq.
    rewrite !app_assoc in Heq. apply last_one_inv in Heq. discriminate.
  - injection Ho as <-. cbn. split; [discriminate|].
    intros (pre & fd' & c' & Heq).
    change (t ++ [?a; ?b; ?c]) with (t ++ [a; b] ++ [c]) in Heq.
    change (pre ++ [?a; ?b]) with (pre ++ [a] ++ [b]) in Heq.
    rewrite !app_assoc in Heq. apply last_one_inv in Heq. discriminate.
  - subst o. rewrite app_assoc. apply IH. reflexivity.
Qed.

(** The system calls of the simulated file system, where no fault is
    pending. *)
Section SimRuns.
Import Sim.

Lemma Sim_open_existing path flag perm w ino :
  faults w = [] -> dir w !! path = Some ino ->
  open path flag perm w
  = (inl (next_fd w),
     with_files w (dir w) (inodes w) (<[next_fd w := ino]> (fds w))
       (next_fd w + 1) (next_ino w)).
Proof. intros Hf Hd. unfold open, inject. rewrite Hf, Hd. reflexivity. Qed.

Lemma Sim_flock_free fd how w ino i :
  faults w = [] -> fds w !! fd = Some ino -> inodes w !! ino = Some i ->
  i_lock i = None ->
  flock fd how w = (None, set_lock ino (Some (Self fd)) w).
Proof.
  intros Hf Hfd Hi Hl. unfold flock, inject. rewrite Hf, Hfd, Hi, Hl.
  reflexivity.
Qed.

Lemma Sim_flock_held fd how w ino i o :
  faults w = [] -> fds w !! fd = Some ino -> inodes w !! ino = Some i ->
  i_lock i = Some o -> o <> Self fd ->
  flock fd how w = (Some EWOULDBLOCK, w).
Proof.
  intros Hf Hfd Hi Hl Ho. unfold flock, inject. rewrite Hf, Hfd, Hi, Hl.
  destruct o as [fd'|]; [|reflexivity].
  destruct (Z.eqb_spec fd' fd) as [->|]; [congruence|reflexivity].
Qed.

Lemma Sim_fstat_open fd w ino i :
  faults w = [] -> fds w !! fd = Some ino -> inodes w !! ino = Some i ->
  fstat fd w = (inl (stat_of ino i), w).
Proof.
  intros Hf Hfd Hi. unfold fstat, inject. rewrite Hf, Hfd, Hi. reflexivity.
Qed.

(** An unlocked empty file at the path: [Create] takes it. *)
Lemma Sim_Create_stale fuel path w t ino i :
  faults w = [] -> dir w !! path = Some ino -> inodes w !! ino = Some i ->
  i_lock i = None -> i_size i = 0 -> i_nlink i <> 0 ->
  fst (Posix.Create (S fuel) path (mkState w t))
  = Ret (Some (Posix.mkFile path (Some (os.mkFile (next_fd w) path))), None).
Proof.
  intros Hf Hd Hi Hl Hsz Hn.
  cbn [Posix.Create].
  unfold os.OpenFile, syscall.Flock, os.File_Stat, bind, request, ret.
  cbn [sys_open sys_flock sys_fstat posix world trace].
  rewrite (Sim_open_existing _ _ _ _ _ Hf Hd).
  cbn [os.fd world trace option_map].
  erewrite Sim_flock_free;
    [| exact Hf | apply lookup_insert_eq | exact Hi | exact Hl].
  cbn [os.fd world trace option_map].
  erewrite Sim_fstat_open; [| exact Hf | apply lookup_insert_eq | ].
  2:{ cbn [set_lock with_files inodes]. rewrite lookup_alter_eq.
      cbn [inodes]. rewrite Hi. reflexivity. }
  cbn [os.FileInfo_of os.fi_Size os.fi_Sys stat_of Size Nlink i_size i_nlink].
  rewrite Hsz. cbn [Z.eqb negb].
  destruct (Z.eqb_spec (i_nlink i) 0); [contradiction|]. reflexivity.
Qed.
End SimRuns.

(** ** The classifier *)

(** C1. [IsTemporary] is true for [os.ErrExist] whatever the platform,
    true for [os.ErrPermission] exactly on windows, and false for every
    other error value: the already-closed sentinel, the errors the
    package builds itself (integrity, corruption), the failures of
    package [os] and of the system calls. *)
Theorem IsTemporary_classification :
  forall GOOS : string,
    IsTemporary GOOS (Some ErrExist) = true
    /\ (IsTemporary GOOS (Some ErrPermission) = true <-> GOOS = "windows")
    /\ (forall err : option error,
          err <> Some ErrExist -> err <> Some ErrPermission ->
          IsTemporary GOOS err = false)
    /\ IsTemporary GOOS (Some ErrClosed) = false
    /\ (forall msg, IsTemporary GOOS (Some (errorString msg)) = false)
    /\ (forall op path e,
          IsTemporary GOOS (Some (PathError op path (Errno e))) = false).
Proof.
  intros GOOS. repeat split; try reflexivity.
  - unfold IsTemporary. destruct (String.eqb_spec GOOS "windows"); congruence.
  - intros ->. reflexivity.
  - intros [[]|] Hexist Hperm; try reflexivity; congruence.
Qed.

Lemma IsTemporary_classification_witness :
  Some ErrNotExist <> Some ErrExist
  /\ Some ErrNotExist <> Some ErrPermission
  /\ IsTemporary "linux" (Some ErrNotExist) = false.
Proof.
  split; [discriminate|]. split; [discriminate|].
  apply (proj1 (proj2 (proj2 (IsTemporary_classification "linux"))));
    discriminate.
Defined.

(** ** Acquisition *)

(** A file at the path whose lock another holder has: [Create] reports
    [os.ErrExist]. *)
Lemma Sim_Create_held fuel path w t ino i o :
  Sim.faults w = [] -> Sim.dir w !! path = Some ino ->
  Sim.inodes w !! ino = Some i ->
  Sim.i_lock i = Some o -> o <> Sim.Self (Sim.next_fd w) ->
  fst (Posix.Create (S fuel) path (mkState w t)) = Ret (None, Some ErrExist).
Proof.
  intros Hf Hd Hi Hl Ho.
  cbn [Posix.Create].
  unfold os.OpenFile, syscall.Flock, os.File_Close, bind, request, ret.
  cbn [sys_open sys_flock sys_close Sim.posix world trace].
  rewrite (Sim_open_existing _ _ _ _ _ Hf Hd).
  cbn [os.fd world trace option_map].
  erewrite Sim_flock_held;
    [| exact Hf | apply lookup_insert_eq | exact Hi | exact Hl | exact Ho].
  cbn [os.fd world trace option_map].
  destruct (Sim.close _ _) as [c w']. destruct c; reflexivity.
Qed.

(** C3. [Create] returns [os.ErrExist] exactly when the non-blocking
    [flock] of the run was refused with [EWOULDBLOCK] (the call closes
    the file and returns).  That the file exists is no failure: on a file
    system where an empty, linked file is at the path, [Create] succeeds
    when nobody holds its lock and reports [os.ErrExist] when another
    holder does. *)
Theorem Create_ErrExist_iff_lock_held :
  (forall (W : Type) (PS : PosixSys W) fuel path (s s' : State W) r,
      Posix.Create fuel path s = (Ret r, s') ->
      (snd r = Some ErrExist <->
       exists pre fd c,
         trace s' =
         pre ++ [EvFlock fd LOCK_EX_NB (Some EWOULDBLOCK); EvClose fd c]))
  /\ (forall fuel path (w : Sim.FS) t ino i,
        Sim.faults w = [] -> Sim.dir w !! path = Some ino ->
        Sim.inodes w !! ino = Some i ->
        Sim.i_size i = 0 -> Sim.i_nlink i <> 0 ->
        (Sim.i_lock i = None ->
         fst (Posix.Create (S fuel) path (mkState w t))
         = Ret (Some (Posix.mkFile path
                        (Some (os.mkFile (Sim.next_fd w) path))), None))
        /\ (forall o, Sim.i_lock i = Some o -> o <> Sim.Self (Sim.next_fd w) ->
            fst (Posix.Create (S fuel) path (mkState w t))
            = Ret (None, Some ErrExist))).
Proof.
  split.
  - intros W PS fuel path s s' r Hrun.
    apply Create_sound in Hrun as (evs & -> & Hevs).
    exact (Create_run_ErrExist path evs r Hevs (trace s)).
  - intros fuel path w t ino i Hf Hd Hi Hsz Hn. split.
    + intros Hl. eapply Sim_Create_stale; eassumption.
    + intros o Hl Ho. eapply Sim_Create_held; eassumption.
Qed.

Lemma Create_ErrExist_iff_lock_held_witness :
  let held := Sim.with_file "test.lock" 0 (Some Sim.Other) in
  let run := Posix.Create 1 "test.lock" (Sim.start held) in
  (run = (Ret (None, Some ErrExist), snd run)
   /\ (snd (@None Posix.File, Some ErrExist) = Some ErrExist <->
       exists pre fd c,
         trace (snd run) =
         pre ++ [EvFlock fd LOCK_EX_NB (Some EWOULDBLOCK); EvClose fd c]))
  /\ fst (Posix.Create 1 "test.lock"
            (Sim.start (Sim.with_file "test.lock" 0 None)))
     = Ret (Some (Posix.mkFile "test.lock"
                    (Some (os.mkFile 3 "test.lock"))), None)
  /\ fst run = Ret (None, Some ErrExist).
Proof.
  intros held run.
  assert (Hrun : run = (Ret (None, Some ErrExist), snd run))
    by (vm_compute; reflexivity).
  split; [split; [exact Hrun|]|split].
  - exact (proj1 Create_ErrExist_iff_lock_held _ _ 1%nat "test.lock"
             (Sim.start held) (snd run) (None, Some ErrExist) Hrun).
  - refine (proj1 (proj2 Create_ErrExist_iff_lock_held 0%nat "test.lock"
                     (Sim.with_file "test.lock" 0 None) [] 2
                     (Sim.mkInode 0 1 None) _ _ _ _ _) _);
      try reflexivity; try (vm_compute; reflexivity); discriminate.
  - refine (proj2 (proj2 Create_ErrExist_iff_lock_held 0%nat "test.lock"
                     held [] 2 (Sim.mkInode 0 1 (Some Sim.Other)) _ _ _ _ _)
              Sim.Other _ _);
      try reflexivity; try (vm_compute; reflexivity); discriminate.
Defined.

(** The error returns of [Create], one by one: no [File] is built; the
    open failed and there is no descriptor, or the last event of the run
    closes the descriptor of its last round, or the file was not empty
    and the run ends with the [fstat] of a descriptor that it leaves
    open. *)
Lemma Create_error_paths {W : Type} {PS : PosixSys W} fuel path
    (s s' : State W) f err :
  Posix.Create fuel path s = (Ret (f, Some err), s') ->
  f = None
  /\ ((exists pre e,
         trace s' = pre ++ [EvOpen path os.O_CREATE 256 (inr e)])
      \/ (exists pre fd r c,
            trace s' = pre ++ [EvOpen path os.O_CREATE 256 (inl fd)]
                         ++ r ++ [EvClose fd c])
      \/ (exists pre fd st,
            err = not_empty_error path
            /\ trace s' = pre ++ [EvOpen path os.O_CREATE 256 (inl fd);
                                  EvFlock fd LOCK_EX_NB None;
                                  EvFstat fd (inl st)])).
Proof.
  intros Hrun. apply Create_sound in Hrun as (evs & -> & Hevs).
  remember (Ret (f, Some err)) as o eqn:Ho.
  revert Ho. generalize (trace s) as t.
  induction Hevs as [|e|fd e c|fd e c|fd st Hsz|fd st Hsz Hl
                     |fd st c evs o Hsz Hl Hevs IH];
    intros t Ho; try discriminate Ho.
  - injection Ho as <- _. split; [reflexivity|]. left. eauto.
  - injection Ho as <- _. split; [reflexivity|]. right; left.
    exists t, fd, [EvFlock fd LOCK_EX_NB (Some e)], c. reflexivity.
  - injection Ho as <- _. split; [reflexivity|]. right; left.
    exists t, fd, [EvFlock fd LOCK_EX_NB None; EvFstat fd (inr e)], c.
    reflexivity.
  - injection Ho as <- <-. split; [reflexivity|]. right; right.
    exists t, fd, st. split; reflexivity.
  - rewrite app_assoc. apply IH. exact Ho.
Qed.

(** C2, at the input where the code departs from it: an unlocked file of
    five bytes is at the path.  [Create] returns the not-empty error and
    no [File], but the descriptor it opened is still open and still holds
    the advisory lock: no [close] was issued, and the next [Create] of
    the same process is refused by that very lock. *)
Theorem Create_not_empty_leaks_descriptor :
  let run :=
    Posix.Create 1 "test.lock"
      (Sim.start (Sim.with_file "test.lock" 5 None)) in
  fst run = Ret (None, Some (not_empty_error "test.lock"))
  /\ Sim.fds (world (snd run)) !! 3 = Some 2
  /\ Sim.i_lock <$> Sim.inodes (world (snd run)) !! 2
     = Some (Some (Sim.Self 3))
  /\ trace (snd run)
     = [EvOpen "test.lock" os.O_CREATE 256 (inl 3);
        EvFlock 3 LOCK_EX_NB None;
        EvFstat 3 (inl (mkStat 1 2 1 5))]
  /\ fst (Posix.Create 1 "test.lock" (snd run)) = Ret (None, Some ErrExist).
Proof. vm_compute. repeat split; reflexivity. Qed.

(** ** Release *)

Lemma SameFile_same_inode st1 st2 :
  os.SameFile (os.FileInfo_of st1) (os.FileInfo_of st2) = true
  <-> same_inode st1 st2.
Proof.
  unfold os.SameFile, same_inode. cbn [os.FileInfo_of os.fi_Sys].
  rewrite andb_true_iff, !Z.eqb_eq. reflexivity.
Qed.

Section CloseRuns.
Context {W : Type} {PS : PosixSys W}.

(** The body of [Close] follows [Close_body_run]. *)
Lemma Close_body_sound path file (s : State W) :
  exists evs err w,
    Posix.Close_body path file s = (Ret err, mkState w (trace s ++ evs))
    /\ Close_body_run path file evs err.
Proof.
  unfold Posix.Close_body, os.File_Stat, os.Stat, syscall.Unlink, bind,
    request, ret.
  destruct (sys_fstat (os.fd file) (world s)) as [[st1|e] w1] eqn:H1;
    cbn [world trace].
  2:{ do 3 eexists. split; [reflexivity|]. constructor. }
  destruct (sys_stat path w1) as [[st2|e] w2] eqn:H2; cbn [world trace].
  2:{ do 3 eexists. rewrite <- app_assoc. split; [reflexivity|].
      constructor. }
  destruct (os.SameFile _ _) eqn:Hsame; cbn [negb world trace].
  2:{ do 3 eexists. rewrite <- app_assoc. split; [reflexivity|].
      apply CB_moved. rewrite <- SameFile_same_inode. congruence. }
  apply SameFile_same_inode in Hsame.
  destruct (sys_unlink path w2) as [[e|] w3] eqn:H3;
    cbn [world trace option_map]; do 3 eexists; rewrite <- !app_assoc;
    (split; [reflexivity|]); constructor; exact Hsame.
Qed.

(** A call of [Close] on an open handle: the body, then the close of the
    descriptor; the handle is closed whatever the error. *)
Lemma Close_sound (f : Posix.File) file (s : State W) :
  Posix.file f = Some file ->
  exists evs err c w,
    Posix.Close f s
    = (Ret (first_error err (close_error file c),
            Posix.mkFile (Posix.path f) None),
       mkState w (trace s ++ evs ++ [EvClose (os.fd file) c]))
    /\ Close_body_run (Posix.path f) file evs err.
Proof.
  intros Hfile. unfold Posix.Close. rewrite Hfile.
  destruct (Close_body_sound (Posix.path f) file s)
    as (evs & err & w & Hbody & Hevs).
  unfold bind at 1. rewrite Hbody.
  unfold os.File_Close, bind, request, ret. cbn [world trace].
  destruct (sys_close (os.fd file) w) as [c w'] eqn:Hc.
  exists evs, err, c, w'. rewrite <- app_assoc. split; [|exact Hevs].
  destruct c, err; reflexivity.
Qed.

End CloseRuns.

Lemma Sim_same_files_refl w : Sim_same_files w w.
Proof. split; reflexivity. Qed.

Lemma Sim_same_files_trans w1 w2 w3 :
  Sim_same_files w1 w2 -> Sim_same_files w2 w3 -> Sim_same_files w1 w3.
Proof.
  intros [Hd1 Hi1] [Hd2 Hi2]. split; [congruence|].
  intros ino. rewrite Hi2. apply Hi1.
Qed.

Lemma Sim_with_faults_same w fs : Sim_same_files w (Sim.with_faults w fs).
Proof. split; reflexivity. Qed.

Lemma Sim_inject_same {A} (fail : Z -> A) op w :
  (forall w0, Sim_same_files w0 (snd (op w0))) ->
  Sim_same_files w (snd (Sim.inject fail op w)).
Proof.
  intros Hop. unfold Sim.inject. destruct (Sim.faults w) as [|[e|] fs].
  - apply Hop.
  - apply Sim_with_faults_same.
  - eapply Sim_same_files_trans; [apply Sim_with_faults_same|apply Hop].
Qed.

Lemma Sim_fstat_same fd w : Sim_same_files w (snd (Sim.fstat fd w)).
Proof.
  apply Sim_inject_same. intros w0.
  destruct (Sim.fds w0 !! fd) as [ino|]; [|apply Sim_same_files_refl].
  destruct (Sim.inodes w0 !! ino); apply Sim_same_files_refl.
Qed.

Lemma Sim_stat_same path w : Sim_same_files w (snd (Sim.stat path w)).
Proof.
  apply Sim_inject_same. intros w0.
  destruct (Sim.dir w0 !! path) as [ino|]; [|apply Sim_same_files_refl].
  destruct (Sim.inodes w0 !! ino); apply Sim_same_files_refl.
Qed.

Lemma Sim_release_same fd w : Sim_same_files w (Sim.release fd w).
Proof.
  unfold Sim.release. destruct (Sim.fds w !! fd) as [ino|];
    [|apply Sim_same_files_refl].
  split; [reflexivity|]. intros j. cbn [Sim.with_files Sim.inodes].
  destruct (decide (ino = j)) as [->|Hne].
  - rewrite lookup_alter_eq. destruct (Sim.inodes w !! j) as [i|];
      [|reflexivity].
    cbn. unfold Sim.unlock_of. destruct (Sim.i_lock i) as [[fd'|]|];
      try reflexivity.
    destruct (fd' =? fd); reflexivity.
  - rewrite lookup_alter_ne by exact Hne. reflexivity.
Qed.

Lemma Sim_close_same fd w : Sim_same_files w (snd (Sim.close fd w)).
Proof.
  unfold Sim.close. destruct (Sim.faults w) as [|[e|] fs]; cbn [snd].
  - apply Sim_release_same.
  - eapply Sim_same_files_trans;
      [apply Sim_with_faults_same|apply Sim_release_same].
  - eapply Sim_same_files_trans;
      [apply Sim_with_faults_same|apply Sim_release_same].
Qed.

(** C5. When the stat of the open descriptor and the stat of the path do
    not name the same inode of the same device, [Close] returns the
    moved-or-deleted error and issues the two stats and the close of the
    descriptor, nothing else: no unlink.  On the simulated file system
    such a call leaves the names, sizes and link counts as they were. *)
Theorem Close_moved_file_not_unlinked :
  (forall (W : Type) (PS : PosixSys W) (f : Posix.File) file (s : State W)
          st1 st2 w1 w2,
      Posix.file f = Some file ->
      sys_fstat (os.fd file) (world s) = (inl st1, w1) ->
      sys_stat (Posix.path f) w1 = (inl st2, w2) ->
      ~ same_inode st1 st2 ->
      Posix.Close f s
      = (Ret (Some (moved_error (Posix.path f)),
              Posix.mkFile (Posix.path f) None),
         mkState (snd (sys_close (os.fd file) w2))
           (trace s ++ [EvFstat (os.fd file) (inl st1);
                        EvStat (Posix.path f) (inl st2);
                        EvClose (os.fd file)
                          (fst (sys_close (os.fd file) w2))])))
  /\ (forall (f f' : Posix.File) file (w : Sim.FS) t s',
        Posix.file f = Some file ->
        Posix.Close f (mkState w t)
        = (Ret (Some (moved_error (Posix.path f)), f'), s') ->
        Sim_same_files w (world s')).
Proof.
  split.
  - intros W PS f file s st1 st2 w1 w2 Hfile H1 H2 Hne.
    unfold Posix.Close. rewrite Hfile.
    unfold Posix.Close_body, os.File_Stat, os.Stat, os.File_Close, bind,
      request, ret.
    rewrite H1. cbn [world trace]. rewrite H2. cbn [world trace].
    destruct (os.SameFile _ _) eqn:Hsame.
    { apply SameFile_same_inode in Hsame. contradiction. }
    cbn [negb world trace].
    destruct (sys_close (os.fd file) w2) as [c w3].
    rewrite <- !app_assoc. destruct c; reflexivity.
  - intros f f' file w t s' Hfile Hrun.
    unfold Posix.Close in Hrun. rewrite Hfile in Hrun.
    unfold Posix.Close_body, os.File_Stat, os.Stat, syscall.Unlink,
      os.File_Close, bind, request, ret in Hrun.
    cbn [world trace sys_fstat sys_stat sys_unlink sys_close Sim.posix]
      in Hrun.
    pose proof (Sim_fstat_same (os.fd file) w) as S1.
    destruct (Sim.fstat (os.fd file) w) as [[st1|e] w1]; cbn [snd] in S1;
      cbn [world trace] in Hrun.
    2:{ destruct (Sim.close _ _) as [[?|] ?]; discriminate Hrun. }
    pose proof (Sim_stat_same (Posix.path f) w1) as S2.
    destruct (Sim.stat (Posix.path f) w1) as [[st2|e] w2]; cbn [snd] in S2;
      cbn [world trace] in Hrun.
    2:{ destruct (Sim.close _ _) as [[?|] ?]; discriminate Hrun. }
    destruct (os.SameFile _ _); cbn [negb world trace] in Hrun.
    { destruct (Sim.unlink _ _) as [[?|] ?];
        cbn [world trace option_map] in Hrun;
        destruct (Sim.close _ _) as [[?|] ?]; discriminate Hrun. }
    pose proof (Sim_close_same (os.fd file) w2) as S3.
    destruct (Sim.close (os.fd file) w2) as [c w3]; cbn [snd] in S3.
    assert (world s' = w3) as -> by (destruct c; inversion Hrun; reflexivity).
    eapply Sim_same_files_trans; [exact S1|].
    eapply Sim_same_files_trans; [exact S2|exact S3].
Qed.

Lemma Close_moved_file_not_unlinked_witness :
  let st1 := mkStat 1 2 0 0 in
  let st2 := mkStat 1 5 1 0 in
  let run := Posix.Close Sim_handle (Sim.start Sim_replaced) in
  (Posix.file Sim_handle = Some (os.mkFile 3 "test.lock")
   /\ sys_fstat 3 Sim_replaced = (inl st1, Sim_replaced)
   /\ sys_stat "test.lock" Sim_replaced = (inl st2, Sim_replaced)
   /\ ~ same_inode st1 st2
   /\ run
      = (Ret (Some (moved_error "test.lock"), Posix.mkFile "test.lock" None),
         mkState (snd (sys_close 3 Sim_replaced))
           [EvFstat 3 (inl st1); EvStat "test.lock" (inl st2);
            EvClose 3 (fst (sys_close 3 Sim_replaced))]))
  /\ (run = (Ret (Some (moved_error "test.lock"),
                  Posix.mkFile "test.lock" None), snd run)
      /\ Sim_same_files Sim_replaced (world (snd run))).
Proof.
  intros st1 st2 run.
  assert (H1 : sys_fstat 3 Sim_replaced = (inl st1, Sim_replaced))
    by (vm_compute; reflexivity).
  assert (H2 : sys_stat "test.lock" Sim_replaced = (inl st2, Sim_replaced))
    by (vm_compute; reflexivity).
  assert (Hne : ~ same_inode st1 st2) by (intros [_ Hino]; discriminate Hino).
  assert (Hrun : run = (Ret (Some (moved_error "test.lock"),
                             Posix.mkFile "test.lock" None), snd run))
    by (vm_compute; reflexivity).
  split; [repeat (split; [first [reflexivity|assumption]|])|split].
  - exact (proj1 Close_moved_file_not_unlinked _ _ Sim_handle
             (os.mkFile 3 "test.lock") (Sim.start Sim_replaced) st1 st2
             Sim_replaced Sim_replaced eq_refl H1 H2 Hne).
  - exact Hrun.
  - exact (proj2 Close_moved_file_not_unlinked Sim_handle
             (Posix.mkFile "test.lock" None) (os.mkFile 3 "test.lock")
             Sim_replaced [] (snd run) eq_refl Hrun).
Defined.

(** The deferred function of [Close] after the body: the world it
    leaves is the one the [close] of the descriptor leaves. *)
Lemma Close_after_body (W : Type) (PS : PosixSys W) (f : Posix.File)
    file (s : State W) berr w0 pre :
  Posix.file f = Some file ->
  Posix.Close_body (Posix.path f) file s
  = (Ret berr, mkState w0 (trace s ++ pre)) ->
  Posix.Close f s
  = (Ret (first_error berr
            (close_error file (fst (sys_close (os.fd file) w0))),
          Posix.mkFile (Posix.path f) None),
     mkState (snd (sys_close (os.fd file) w0))
       (trace s ++ pre
          ++ [EvClose (os.fd file) (fst (sys_close (os.fd file) w0))])).
Proof.
  intros Hfile Hbody. unfold Posix.Close. rewrite Hfile.
  unfold bind at 1. rewrite Hbody.
  unfold os.File_Close, bind, request, ret. cbn [world trace].
  destruct (sys_close (os.fd file) w0) as [c w'].
  cbn [fst snd]. rewrite <- app_assoc.
  destruct c, berr; reflexivity.
Qed.

(** The handle of windows: one [CloseHandle], whose world is kept. *)
Lemma Windows_Close_open (W : Type) (WS : WinSys W) (f : Windows.File)
    file (s : State W) :
  Windows.file f = Some file ->
  Windows.Close f s
  = (Ret (close_error file (fst (sys_CloseHandle (os.fd file) (world s))),
          Windows.mkFile None),
     mkState (snd (sys_CloseHandle (os.fd file) (world s)))
       (trace s
          ++ [EvCloseHandle (os.fd file)
                (fst (sys_CloseHandle (os.fd file) (world s)))])).
Proof.
  intros Hfile. unfold Windows.Close. rewrite Hfile.
  unfold Windows.File_Close, bind, request, ret.
  destruct (sys_CloseHandle (os.fd file) (world s)) as [c w].
  cbn [fst snd]. destruct c; reflexivity.
Qed.

(** On the simulated file system a [close] takes the descriptor out of
    the table, whether it reports an error or not. *)
Lemma Sim_release_closes fd (w : Sim.FS) :
  Sim.fds (Sim.release fd w) !! fd = None.
Proof.
  unfold Sim.release. destruct (Sim.fds w !! fd) eqn:Hfd.
  - cbn. apply lookup_delete_eq.
  - exact Hfd.
Qed.

Lemma Sim_close_closes fd (w : Sim.FS) :
  Sim.fds (snd (Sim.close fd w)) !! fd = None.
Proof.
  unfold Sim.close. destruct (Sim.faults w) as [|[e|] fs]; cbn [snd];
    apply Sim_release_closes.
Qed.

Lemma SimWin_CloseHandle_closes h (w : Sim.WinFS) :
  Sim.handles (snd (Sim.CloseHandle h w)) !! h = None.
Proof.
  unfold Sim.CloseHandle. destruct (Sim.handles w !! h) eqn:Hh.
  - cbn. apply lookup_delete_eq.
  - exact Hh.
Qed.

(** C4. On both builds a call of [Close] on a closed handle returns
    [os.ErrClosed] and does nothing: no event, the world and the handle
    as they were, so that every later call does the same.  A call on an
    open handle closes the descriptor and leaves the handle closed
    whatever error it returns: the world after the call is the one the
    [close] of the descriptor (the [CloseHandle] of the handle) leaves,
    applied to the world after the body, and that call is the last
    event and the only close.  On the simulated file systems the
    descriptor is then no longer in the table of the process. *)
Theorem Close_again_ErrClosed :
  (forall (W : Type) (PS : PosixSys W) (f : Posix.File) (s : State W),
      (Posix.file f = None ->
       Posix.Close f s = (Ret (Some ErrClosed, f), s))
      /\ (forall file, Posix.file f = Some file ->
          exists berr pre w0,
            Posix.Close_body (Posix.path f) file s
            = (Ret berr, mkState w0 (trace s ++ pre))
            /\ Posix.Close f s
               = (Ret (first_error berr
                         (close_error file
                            (fst (sys_close (os.fd file) w0))),
                       Posix.mkFile (Posix.path f) None),
                  mkState (snd (sys_close (os.fd file) w0))
                    (trace s ++ pre
                       ++ [EvClose (os.fd file)
                             (fst (sys_close (os.fd file) w0))]))
            /\ (forall fd' c', ~ In (EvClose fd' c') pre)
            /\ forall s2 : State W,
                 Posix.Close (Posix.mkFile (Posix.path f) None) s2
                 = (Ret (Some ErrClosed, Posix.mkFile (Posix.path f) None),
                    s2)))
  /\ (forall (W : Type) (WS : WinSys W) (f : Windows.File) (s : State W),
      (Windows.file f = None ->
       Windows.Close f s = (Ret (Some ErrClosed, f), s))
      /\ (forall file, Windows.file f = Some file ->
          Windows.Close f s
          = (Ret (close_error file
                    (fst (sys_CloseHandle (os.fd file) (world s))),
                  Windows.mkFile None),
             mkState (snd (sys_CloseHandle (os.fd file) (world s)))
               (trace s
                  ++ [EvCloseHandle (os.fd file)
                        (fst (sys_CloseHandle (os.fd file) (world s)))]))
          /\ forall s2 : State W,
               Windows.Close (Windows.mkFile None) s2
               = (Ret (Some ErrClosed, Windows.mkFile None), s2)))
  /\ (forall (f : Posix.File) file (s : State Sim.FS),
      Posix.file f = Some file ->
      Sim.fds (world (snd (Posix.Close f s))) !! os.fd file = None)
  /\ (forall (f : Windows.File) file (s : State Sim.WinFS),
      Windows.file f = Some file ->
      Sim.handles (world (snd (Windows.Close f s))) !! os.fd file = None).
Proof.
  split; [|split; [|split]].
  - intros W PS f s. split.
    + intros Hfile. unfold Posix.Close. rewrite Hfile. reflexivity.
    + intros file Hfile.
      destruct (Close_body_sound (Posix.path f) file s)
        as (evs & berr & w0 & Hbody & Hevs).
      exists berr, evs, w0. split; [exact Hbody|].
      split; [exact (Close_after_body _ _ f file s berr w0 evs Hfile Hbody)|].
      split; [|reflexivity].
      intros fd' c' Hin.
      destruct Hevs; cbn in Hin; intuition discriminate.
  - intros W WS f s. split.
    + intros Hfile. unfold Windows.Close. rewrite Hfile. reflexivity.
    + intros file Hfile.
      split; [exact (Windows_Close_open _ _ f file s Hfile)|reflexivity].
  - intros f file s Hfile.
    destruct (Close_body_sound (Posix.path f) file s)
      as (evs & berr & w0 & Hbody & _).
    rewrite (Close_after_body _ _ f file s berr w0 evs Hfile Hbody).
    cbn [snd world]. apply Sim_close_closes.
  - intros f file s Hfile.
    rewrite (Windows_Close_open _ _ f file s Hfile).
    cbn [snd world]. apply SimWin_CloseHandle_closes.
Qed.

Lemma Close_again_ErrClosed_witness :
  let closed := Posix.mkFile "test.lock" None in
  let first := Posix.Close Sim_handle (Sim.start Sim_replaced) in
  let wfile := Windows.mkFile (Some (os.mkFile 7 "test.lock")) in
  let wfirst := Windows.Close wfile (mkState Sim_win_locked []) in
  (fst first = Ret (Some (moved_error "test.lock"), closed)
   /\ Sim.fds Sim_replaced !! 3 = Some 2
   /\ Sim.fds (world (snd first)) !! 3 = None
   /\ Posix.file closed = None
   /\ Posix.Close closed (snd first)
      = (Ret (Some ErrClosed, closed), snd first))
  /\ (exists berr pre w0,
        Posix.Close_body "test.lock" (os.mkFile 3 "test.lock")
          (Sim.start Sim_replaced)
        = (Ret berr, mkState w0 ([] ++ pre))
        /\ first
           = (Ret (first_error berr
                     (close_error (os.mkFile 3 "test.lock")
                        (fst (Sim.close 3 w0))),
                   closed),
              mkState (snd (Sim.close 3 w0))
                ([] ++ pre ++ [EvClose 3 (fst (Sim.close 3 w0))]))
        /\ (forall fd' c', ~ In (EvClose fd' c') pre)
        /\ forall s2 : State Sim.FS,
             Posix.Close closed s2 = (Ret (Some ErrClosed, closed), s2))
  /\ (Windows.file (Windows.mkFile None) = None
      /\ Windows.Close (Windows.mkFile None) (snd wfirst)
         = (Ret (Some ErrClosed, Windows.mkFile None), snd wfirst))
  /\ (wfirst
      = (Ret (None, Windows.mkFile None),
         mkState (snd (Sim.CloseHandle 7 Sim_win_locked))
           [EvCloseHandle 7 None])
      /\ Sim.handles Sim_win_locked !! 7 = Some "test.lock"
      /\ Sim.handles (world (snd wfirst)) !! 7 = None).
Proof.
  intros closed first wfile wfirst.
  pose proof (proj1 Close_again_ErrClosed) as HP.
  pose proof (proj1 (proj2 Close_again_ErrClosed)) as HW.
  pose proof (proj1 (proj2 (proj2 Close_again_ErrClosed))) as HSP.
  pose proof (proj2 (proj2 (proj2 Close_again_ErrClosed))) as HSW.
  split; [|split; [|split]].
  - split; [vm_compute; reflexivity|].
    split; [vm_compute; reflexivity|].
    split; [exact (HSP Sim_handle (os.mkFile 3 "test.lock")
                     (Sim.start Sim_replaced) eq_refl)|].
    split; [reflexivity|].
    exact (proj1 (HP _ _ closed (snd first)) eq_refl).
  - exact (proj2 (HP _ _ Sim_handle (Sim.start Sim_replaced))
             (os.mkFile 3 "test.lock") eq_refl).
  - split; [reflexivity|].
    exact (proj1 (HW _ _ (Windows.mkFile None) (snd wfirst)) eq_refl).
  - split; [|split].
    + exact (proj1 (proj2 (HW _ _ wfile (mkState Sim_win_locked []))
                      (os.mkFile 7 "test.lock") eq_refl)).
    + vm_compute. reflexivity.
    + exact (HSW wfile (os.mkFile 7 "test.lock")
               (mkState Sim_win_locked []) eq_refl).
Defined.

(** C6. A call of [Close] on an open handle issues exactly one [close]
    of the descriptor, as its last event.  When the call reaches the
    deletion, the [unlink] of the path is the event just before that
    [close]; when it does not, the body has left an error. *)
Theorem Close_unlinks_before_closing :
  forall (W : Type) (PS : PosixSys W) (f : Posix.File) file (s : State W),
    Posix.file f = Some file ->
    exists err pre c w,
      Posix.Close f s
      = (Ret (err, Posix.mkFile (Posix.path f) None),
         mkState w (trace s ++ pre ++ [EvClose (os.fd file) c]))
      /\ (forall fd' c', ~ In (EvClose fd' c') pre)
      /\ (forall p r, In (EvUnlink p r) pre ->
          exists st1 st2,
            same_inode st1 st2
            /\ p = Posix.path f
            /\ pre = [EvFstat (os.fd file) (inl st1);
                      EvStat (Posix.path f) (inl st2);
                      EvUnlink (Posix.path f) r])
      /\ ((forall p r, ~ In (EvUnlink p r) pre) -> exists e, err = Some e).
Proof.
  intros W PS f file s Hfile.
  destruct (Close_sound f file s Hfile) as (evs & err & c & w & Hrun & Hevs).
  eexists _, evs, c, w. split; [exact Hrun|].
  assert (Hclose : forall fd' c', ~ In (EvClose fd' c') evs)
    by (intros fd' c' Hin; destruct Hevs; cbn in Hin; intuition discriminate).
  split; [exact Hclose|].
  destruct Hevs as [e|st1 e|st1 st2 Hne|st1 st2 e Hsame|st1 st2 Hsame].
  - split; [intros p r Hin; cbn in Hin; intuition discriminate|].
    intros _. eexists. reflexivity.
  - split; [intros p r Hin; cbn in Hin; intuition discriminate|].
    intros _. eexists. reflexivity.
  - split; [intros p r Hin; cbn in Hin; intuition discriminate|].
    intros _. eexists. reflexivity.
  - split.
    + intros p r [Hin|[Hin|[Hin|[]]]]; try discriminate Hin.
      injection Hin as <- <-. exists st1, st2. auto.
    + intros _. eexists. reflexivity.
  - split.
    + intros p r [Hin|[Hin|[Hin|[]]]]; try discriminate Hin.
      injection Hin as <- <-. exists st1, st2. auto.
    + intros Hno. exfalso. apply (Hno (Posix.path f) None). cbn. auto.
Qed.

Lemma Close_unlinks_before_closing_witness :
  Posix.file Sim_handle = Some (os.mkFile 3 "test.lock")
  /\ exists err pre c w,
       Posix.Close Sim_handle (Sim.start Sim_locked)
       = (Ret (err, Posix.mkFile "test.lock" None),
          mkState w ([] ++ pre ++ [EvClose 3 c]))
       /\ (forall fd' c', ~ In (EvClose fd' c') pre)
       /\ (forall p r, In (EvUnlink p r) pre ->
           exists st1 st2,
             same_inode st1 st2
             /\ p = "test.lock"
             /\ pre = [EvFstat 3 (inl st1); EvStat "test.lock" (inl st2);
                       EvUnlink "test.lock" r])
       /\ ((forall p r, ~ In (EvUnlink p r) pre) -> exists e, err = Some e).
Proof.
  split; [reflexivity|].
  exact (Close_unlinks_before_closing _ _ Sim_handle
           (os.mkFile 3 "test.lock") (Sim.start Sim_locked) eq_refl).
Defined.

Example Close_held_lock_trace :
  Posix.Close Sim_handle (Sim.start Sim_locked)
  = (Ret (None, Posix.mkFile "test.lock" None),
     mkState (Sim.mkFS ∅ {[ 2 := Sim.mkInode 0 0 None ]} ∅ 4 3 [] [] [])
       [EvFstat 3 (inl (mkStat 1 2 1 0));
        EvStat "test.lock" (inl (mkStat 1 2 1 0));
        EvUnlink "test.lock" None; EvClose 3 None]).
Proof. vm_compute. reflexivity. Qed.

(** ** A file that is not empty *)

Section NotEmptyRuns.
Context {W : Type} {PS : PosixSys W}.

(** The round that finds the file not empty returns at once. *)
Lemma Create_not_empty_round fuel path (s after : State W) :
  not_empty_round path s after ->
  Posix.Create (S fuel) path s
  = (Ret (None, Some (not_empty_error path)), after).
Proof.
  intros (fd & st & w1 & w2 & w3 & Ho & Hf & Hs & Hsz & ->).
  cbn [Posix.Create].
  unfold os.OpenFile, syscall.Flock, os.File_Stat, bind, request, ret.
  fold LOCK_EX_NB.
  rewrite Ho. cbn [os.fd world trace option_map].
  rewrite Hf. cbn [os.fd world trace option_map].
  rewrite Hs. cbn [os.FileInfo_of os.fi_Size world trace].
  destruct (Z.eqb_spec (Size st) 0) as [|_]; [contradiction|].
  cbn [negb]. rewrite <- !app_assoc. reflexivity.
Qed.

(** A round that loses the race is followed by the next round. *)
Lemma Create_lost_round fuel path (s s1 : State W) :
  lost_round path s s1 ->
  Posix.Create (S fuel) path s = Posix.Create fuel path s1.
Proof.
  intros (fd & st & c & w1 & w2 & w3 & w4
          & Ho & Hf & Hs & Hsz & Hnl & Hc & ->).
  cbn [Posix.Create].
  unfold os.OpenFile, syscall.Flock, os.File_Stat, os.File_Close, bind,
    request, ret.
  fold LOCK_EX_NB.
  rewrite Ho. cbn [os.fd world trace option_map].
  rewrite Hf. cbn [os.fd world trace option_map].
  rewrite Hs.
  cbn [os.FileInfo_of os.fi_Size os.fi_Sys os.fd world trace].
  rewrite Hsz, Hnl. cbn [Z.eqb negb world trace].
  rewrite Hc. rewrite <- !app_assoc.
  destruct c; reflexivity.
Qed.

Lemma Create_meets_not_empty k path (s after : State W) :
  meets_not_empty path k s after ->
  forall fuel,
    Posix.Create (k + S fuel) path s
    = (Ret (None, Some (not_empty_error path)), after).
Proof.
  induction 1 as [s s' Hne|k s s1 s' Hlost _ IH]; intros fuel.
  - exact (Create_not_empty_round fuel path s s' Hne).
  - change (S k + S fuel)%nat with (S (k + S fuel)).
    rewrite (Create_lost_round _ path s s1 Hlost). apply IH.
Qed.

Context {RT : Runtime W}.
Variable GOOS : string.

Lemma not_empty_not_temporary path :
  IsTemporary GOOS (Some (not_empty_error path)) = false.
Proof. reflexivity. Qed.

(** The first attempt of [WaitCtx]. *)
Lemma WaitCtx_meets_not_empty k fuel wfuel path (s after : State W) :
  meets_not_empty path k s after ->
  WaitCtx GOOS Posix.File (Posix.Create (k + S fuel)) wfuel path s
  = (Ret (None, Some (not_empty_error path)), after).
Proof.
  intros Hmne. unfold WaitCtx. unfold bind at 1.
  rewrite (Create_meets_not_empty k path s after Hmne fuel). reflexivity.
Qed.

(** A round of the loop of [WaitCtx] whose timer fires. *)
Lemma WaitCtx_loop_meets_not_empty k fuel wfuel path attempt
    (s : State W) w after :
  rt_select (world s) = (SelTimer, w) ->
  meets_not_empty path k (mkState w (trace s ++ [EvSelect SelTimer]))
    after ->
  WaitCtx_loop GOOS Posix.File (Posix.Create (k + S fuel)) (S wfuel) path
    attempt s
  = (Ret (None, Some (not_empty_error path)), after).
Proof.
  intros Hsel Hmne. cbn [WaitCtx_loop].
  unfold select_Done_or_timer. unfold bind at 1. unfold request.
  rewrite Hsel. unfold bind at 1.
  rewrite (Create_meets_not_empty k path _ after Hmne fuel). reflexivity.
Qed.

(** A run of [WaitCtx] whose first attempt fails with a temporary
    error and whose second attempt meets the file that is not empty. *)
Lemma WaitCtx_second_attempt_not_empty k fuel wfuel path
    (s s1 s2 : State W) f err d w after :
  Posix.Create (k + S fuel) path s = (Ret (f, Some err), s1) ->
  IsTemporary GOOS (Some err) = true ->
  randomBackoff 0 s1 = (Ret d, s2) ->
  rt_select (rt_timer d (world s2)) = (SelTimer, w) ->
  meets_not_empty path k
    (mkState w (trace s2 ++ [EvNewTimer d; EvSelect SelTimer])) after ->
  WaitCtx GOOS Posix.File (Posix.Create (k + S fuel)) (S wfuel) path s
  = (Ret (None, Some (not_empty_error path)), after).
Proof.
  intros Hcreate Htemp Hback Hsel Hmne.
  unfold WaitCtx. unfold bind at 1. rewrite Hcreate.
  rewrite Htemp. cbn [negb].
  unfold bind at 1. rewrite Hback.
  unfold bind at 1. unfold time_NewTimer at 1.
  apply WaitCtx_loop_meets_not_empty with (w := w).
  - exact Hsel.
  - cbn [trace]. rewrite <- app_assoc. exact Hmne.
Qed.

End NotEmptyRuns.

(** C7. When the file that [Create] has opened and locked has a size
    other than zero, [Create] returns the not-empty error; the error is
    permanent on every platform; [WaitCtx] returns it after that single
    attempt, without drawing a delay, arming a timer or waiting.  The
    same holds in every round of [Create] and in every attempt of
    [WaitCtx]: after any number of rounds that lost the race [Create]
    returns the error with the state the [fstat] left; a round of the
    loop of [WaitCtx] whose timer fires and whose [Create] meets the
    file returns the error with that state, at every attempt number,
    with no draw, no reset of the timer and no further round; so does
    the run of [WaitCtx] whose first attempt failed with a temporary
    error. *)
Theorem Create_not_empty_is_permanent :
  (forall (W : Type) (PS : PosixSys W) (RT : Runtime W) (GOOS : string)
          (fuel wfuel : nat) (path : string) (s : State W) fd st w1 w2 w3,
      sys_open path os.O_CREATE 256 (world s) = (inl fd, w1) ->
      sys_flock fd LOCK_EX_NB w1 = (None, w2) ->
      sys_fstat fd w2 = (inl st, w3) ->
      Size st <> 0 ->
      let after :=
        mkState w3
          (trace s ++ [EvOpen path os.O_CREATE 256 (inl fd);
                       EvFlock fd LOCK_EX_NB None; EvFstat fd (inl st)]) in
      Posix.Create (S fuel) path s
      = (Ret (None, Some (not_empty_error path)), after)
      /\ IsTemporary GOOS (Some (not_empty_error path)) = false
      /\ WaitCtx GOOS Posix.File (Posix.Create (S fuel)) wfuel path s
         = (Ret (None, Some (not_empty_error path)), after))
  /\ (forall (W : Type) (PS : PosixSys W) (RT : Runtime W) (GOOS : string)
             (k fuel wfuel : nat) (path : string) (s after : State W),
      meets_not_empty path k s after ->
      Posix.Create (k + S fuel) path s
      = (Ret (None, Some (not_empty_error path)), after)
      /\ WaitCtx GOOS Posix.File (Posix.Create (k + S fuel)) wfuel path s
         = (Ret (None, Some (not_empty_error path)), after))
  /\ (forall (W : Type) (PS : PosixSys W) (RT : Runtime W) (GOOS : string)
             (k fuel wfuel : nat) (path : string) (attempt : Z)
             (s : State W) w after,
      rt_select (world s) = (SelTimer, w) ->
      meets_not_empty path k (mkState w (trace s ++ [EvSelect SelTimer]))
        after ->
      WaitCtx_loop GOOS Posix.File (Posix.Create (k + S fuel)) (S wfuel)
        path attempt s
      = (Ret (None, Some (not_empty_error path)), after))
  /\ (forall (W : Type) (PS : PosixSys W) (RT : Runtime W) (GOOS : string)
             (k fuel wfuel : nat) (path : string) (s s1 s2 : State W)
             f err d w after,
      Posix.Create (k + S fuel) path s = (Ret (f, Some err), s1) ->
      IsTemporary GOOS (Some err) = true ->
      randomBackoff 0 s1 = (Ret d, s2) ->
      rt_select (rt_timer d (world s2)) = (SelTimer, w) ->
      meets_not_empty path k
        (mkState w (trace s2 ++ [EvNewTimer d; EvSelect SelTimer]))
        after ->
      WaitCtx GOOS Posix.File (Posix.Create (k + S fuel)) (S wfuel) path s
      = (Ret (None, Some (not_empty_error path)), after)).
Proof.
  split; [|split; [|split]].
  - intros W PS RT GOOS fuel wfuel path s fd st w1 w2 w3 Ho Hf Hs Hsz after.
    assert (Hmne : meets_not_empty path 0 s after).
    { apply MNE_now. exists fd, st, w1, w2, w3. repeat split; assumption. }
    split; [exact (Create_meets_not_empty 0 path s after Hmne fuel)|].
    split; [reflexivity|].
    exact (WaitCtx_meets_not_empty GOOS 0 fuel wfuel path s after Hmne).
  - intros W PS RT GOOS k fuel wfuel path s after Hmne. split.
    + exact (Create_meets_not_empty k path s after Hmne fuel).
    + exact (WaitCtx_meets_not_empty GOOS k fuel wfuel path s after Hmne).
  - intros W PS RT GOOS k fuel wfuel path attempt s w after Hsel Hmne.
    exact (WaitCtx_loop_meets_not_empty GOOS k fuel wfuel path attempt s w
             after Hsel Hmne).
  - intros W PS RT GOOS k fuel wfuel path s s1 s2 f err d w after
      Hcreate Htemp Hback Hsel Hmne.
    exact (WaitCtx_second_attempt_not_empty GOOS k fuel wfuel path s s1 s2
             f err d w after Hcreate Htemp Hback Hsel Hmne).
Qed.

Lemma Create_not_empty_is_permanent_witness :
  let w := Sim.with_file "test.lock" 5 None in
  let w1 := snd (sys_open "test.lock" os.O_CREATE 256 w) in
  let w2 := snd (sys_flock 3 LOCK_EX_NB w1) in
  let st := mkStat 1 2 1 5 in
  let after :=
    mkState w2
      ([] ++ [EvOpen "test.lock" os.O_CREATE 256 (inl 3);
              EvFlock 3 LOCK_EX_NB None; EvFstat 3 (inl st)]) in
  let gone := mkStat 1 2 0 0 in
  let full := mkStat 1 5 1 5 in
  let after2 :=
    mkState (Scripted.mkFS 5 [])
      [EvOpen "test.lock" os.O_CREATE 256 (inl 3);
       EvFlock 3 LOCK_EX_NB None; EvFstat 3 (inl gone); EvClose 3 None;
       EvOpen "test.lock" os.O_CREATE 256 (inl 4);
       EvFlock 4 LOCK_EX_NB None; EvFstat 4 (inl full)] in
  let s0 := Sim.start Sim_not_empty_later in
  let s1 := snd (Posix.Create 1 "test.lock" s0) in
  let s2 := snd (randomBackoff 0 s1) in
  let armed := mkState (world s2) (trace s2 ++ [EvNewTimer 0]) in
  let w4 := snd (Sim.select (world s2)) in
  let w5 := snd (sys_open "test.lock" os.O_CREATE 256 w4) in
  let w6 := snd (sys_flock 4 LOCK_EX_NB w5) in
  let after3 :=
    mkState w6
      [EvOpen "test.lock" os.O_CREATE 256 (inl 3);
       EvFlock 3 LOCK_EX_NB (Some EWOULDBLOCK); EvClose 3 None;
       EvIntN 10 0; EvNewTimer 0; EvSelect SelTimer;
       EvOpen "test.lock" os.O_CREATE 256 (inl 4);
       EvFlock 4 LOCK_EX_NB None; EvFstat 4 (inl st)] in
  (sys_open "test.lock" os.O_CREATE 256 w = (inl 3, w1)
   /\ sys_flock 3 LOCK_EX_NB w1 = (None, w2)
   /\ sys_fstat 3 w2 = (inl st, w2)
   /\ Size st <> 0
   /\ Posix.Create 1 "test.lock" (Sim.start w)
      = (Ret (None, Some (not_empty_error "test.lock")), after)
   /\ IsTemporary "linux" (Some (not_empty_error "test.lock")) = false
   /\ WaitCtx "linux" Posix.File (Posix.Create 1) 8 "test.lock"
        (Sim.start w)
      = (Ret (None, Some (not_empty_error "test.lock")), after))
  /\ (meets_not_empty "test.lock" 1 (mkState Scripted.replaced []) after2
      /\ Posix.Create 2 "test.lock" (mkState Scripted.replaced [])
         = (Ret (None, Some (not_empty_error "test.lock")), after2)
      /\ WaitCtx "linux" Posix.File (Posix.Create 2) 8 "test.lock"
           (mkState Scripted.replaced [])
         = (Ret (None, Some (not_empty_error "test.lock")), after2))
  /\ (rt_select (world armed) = (SelTimer, w4)
      /\ meets_not_empty "test.lock" 0
           (mkState w4 (trace armed ++ [EvSelect SelTimer])) after3
      /\ WaitCtx_loop "linux" Posix.File (Posix.Create 1) 1 "test.lock" 0
           armed
         = (Ret (None, Some (not_empty_error "test.lock")), after3))
  /\ (Posix.Create 1 "test.lock" s0 = (Ret (None, Some ErrExist), s1)
      /\ IsTemporary "linux" (Some ErrExist) = true
      /\ randomBackoff 0 s1 = (Ret 0, s2)
      /\ rt_select (rt_timer 0 (world s2)) = (SelTimer, w4)
      /\ WaitCtx "linux" Posix.File (Posix.Create 1) 1 "test.lock" s0
         = (Ret (None, Some (not_empty_error "test.lock")), after3)).
Proof.
  intros w w1 w2 st after gone full after2 s0 s1 s2 armed w4 w5 w6 after3.
  pose proof (proj1 Create_not_empty_is_permanent) as H1.
  pose proof (proj1 (proj2 Create_not_empty_is_permanent)) as H2.
  pose proof (proj1 (proj2 (proj2 Create_not_empty_is_permanent))) as H3.
  pose proof (proj2 (proj2 (proj2 Create_not_empty_is_permanent))) as H4.
  assert (Ho : sys_open "test.lock" os.O_CREATE 256 w = (inl 3, w1))
    by (vm_compute; reflexivity).
  assert (Hf : sys_flock 3 LOCK_EX_NB w1 = (None, w2))
    by (vm_compute; reflexivity).
  assert (Hs : sys_fstat 3 w2 = (inl st, w2)) by (vm_compute; reflexivity).
  assert (Hsz : Size st <> 0) by discriminate.
  assert (Hlost : meets_not_empty "test.lock" 1
                    (mkState Scripted.replaced []) after2).
  { apply MNE_lost
      with (s1 := mkState (Scripted.mkFS 4 [full])
                    [EvOpen "test.lock" os.O_CREATE 256 (inl 3);
                     EvFlock 3 LOCK_EX_NB None; EvFstat 3 (inl gone);
                     EvClose 3 None]).
    - exists 3, gone, None, (Scripted.mkFS 4 [gone; full]),
        (Scripted.mkFS 4 [gone; full]), (Scripted.mkFS 4 [full]),
        (Scripted.mkFS 4 [full]).
      repeat split; reflexivity.
    - apply MNE_now.
      exists 4, full, (Scripted.mkFS 5 [full]), (Scripted.mkFS 5 [full]),
        (Scripted.mkFS 5 []).
      repeat split; try reflexivity. discriminate. }
  assert (Hsel : rt_select (world armed) = (SelTimer, w4))
    by (vm_compute; reflexivity).
  assert (Hmne : meets_not_empty "test.lock" 0
                   (mkState w4 (trace armed ++ [EvSelect SelTimer]))
                   after3).
  { apply MNE_now. exists 4, st, w5, w6, w6.
    split; [vm_compute; reflexivity|].
    split; [vm_compute; reflexivity|].
    split; [vm_compute; reflexivity|].
    split; [discriminate|]. vm_compute. reflexivity. }
  assert (Hc : Posix.Create 1 "test.lock" s0
               = (Ret (None, Some ErrExist), s1))
    by (vm_compute; reflexivity).
  assert (Hb : randomBackoff 0 s1 = (Ret 0, s2))
    by (vm_compute; reflexivity).
  split; [|split; [|split]].
  - split; [exact Ho|]. split; [exact Hf|]. split; [exact Hs|].
    split; [exact Hsz|].
    exact (H1 Sim.FS _ _ "linux" 0%nat 8%nat "test.lock" (Sim.start w) 3 st
             w1 w2 w2 Ho Hf Hs Hsz).
  - split; [exact Hlost|].
    exact (H2 Scripted.FS _ _ "linux" 1%nat 0%nat 8%nat "test.lock"
             (mkState Scripted.replaced []) after2 Hlost).
  - split; [exact Hsel|]. split; [exact Hmne|].
    exact (H3 Sim.FS _ _ "linux" 0%nat 0%nat 0%nat "test.lock" 0 armed w4
             after3 Hsel Hmne).
  - split; [exact Hc|]. split; [reflexivity|]. split; [exact Hb|].
    split; [exact Hsel|].
    exact (H4 Sim.FS _ _ "linux" 0%nat 0%nat 0%nat "test.lock" s0 s1 s2
             None ErrExist 0 w4 after3 Hc eq_refl Hb Hsel Hmne).
Defined.

(** ** Identity, not unwrapping *)

(** C10. [IsTemporary] is false for the nil error and for every error
    that is not one of the two sentinels itself, whatever it wraps: a
    [fmt.Errorf] value with [%w], a [*PathError], a bare errno.  The
    error [Create] builds when the stat of the locked file fails is such
    a value: it is permanent even when it wraps [EEXIST] or [EACCES],
    which [errors.Is] would match with [os.ErrExist] and
    [os.ErrPermission]. *)
Theorem IsTemporary_by_identity :
  forall GOOS : string,
    IsTemporary GOOS None = false
    /\ (forall msg err, IsTemporary GOOS (Some (wrapError msg err)) = false)
    /\ (forall op path err,
          IsTemporary GOOS (Some (PathError op path err)) = false)
    /\ (forall e, IsTemporary GOOS (Some (Errno e)) = false)
    /\ (forall path,
          errors_Is (stat_failed_error path EEXIST) ErrExist = true
          /\ errors_Is (stat_failed_error path EACCES) ErrPermission = true)
    /\ (forall (W : Type) (PS : PosixSys W) fuel path (s : State W)
               fd e w1 w2 w3,
          sys_open path os.O_CREATE 256 (world s) = (inl fd, w1) ->
          sys_flock fd LOCK_EX_NB w1 = (None, w2) ->
          sys_fstat fd w2 = (inr e, w3) ->
          fst (Posix.Create (S fuel) path s)
          = Ret (None, Some (stat_failed_error path e))
          /\ IsTemporary GOOS (Some (stat_failed_error path e)) = false).
Proof.
  intros GOOS. do 5 (split; [try reflexivity|]).
  - intros path. split; reflexivity.
  - intros W PS fuel path s fd e w1 w2 w3 Ho Hf Hs. split; [|reflexivity].
    cbn [Posix.Create].
    unfold os.OpenFile, syscall.Flock, os.File_Stat, os.File_Close, bind,
      request, ret.
    fold LOCK_EX_NB.
    rewrite Ho. cbn [os.fd os.name world trace option_map].
    rewrite Hf. cbn [os.fd os.name world trace option_map].
    rewrite Hs. cbn [os.fd os.name world trace option_map].
    destruct (sys_close fd w3) as [[c|] w4]; reflexivity.
Qed.

Lemma IsTemporary_by_identity_witness :
  let w :=
    Sim.with_faults (Sim.with_file "test.lock" 0 None)
      [None; None; Some EEXIST] in
  let w1 := snd (sys_open "test.lock" os.O_CREATE 256 w) in
  let w2 := snd (sys_flock 3 LOCK_EX_NB w1) in
  let w3 := snd (sys_fstat 3 w2) in
  sys_open "test.lock" os.O_CREATE 256 w = (inl 3, w1)
  /\ sys_flock 3 LOCK_EX_NB w1 = (None, w2)
  /\ sys_fstat 3 w2 = (inr EEXIST, w3)
  /\ fst (Posix.Create 1 "test.lock" (Sim.start w))
     = Ret (None, Some (stat_failed_error "test.lock" EEXIST))
  /\ IsTemporary "linux" (Some (stat_failed_error "test.lock" EEXIST))
     = false.
Proof.
  intros w w1 w2 w3.
  assert (Ho : sys_open "test.lock" os.O_CREATE 256 w = (inl 3, w1))
    by (vm_compute; reflexivity).
  assert (Hf : sys_flock 3 LOCK_EX_NB w1 = (None, w2))
    by (vm_compute; reflexivity).
  assert (Hs : sys_fstat 3 w2 = (inr EEXIST, w3))
    by (vm_compute; reflexivity).
  split; [exact Ho|]. split; [exact Hf|]. split; [exact Hs|].
  exact (proj2 (proj2 (proj2 (proj2 (proj2
           (IsTemporary_by_identity "linux"))))) Sim.FS _ 0%nat "test.lock"
           (Sim.start w) 3 EEXIST w1 w2 w3 Ho Hf Hs).
Defined.

(** ** Backoff *)

Lemma wrap64_small z : min_int64 <= z <= max_int64 -> wrap64 z = z.
Proof.
  unfold wrap64, min_int64, max_int64. intros Hz.
  rewrite Z.mod_small; lia.
Qed.

(** The argument [randomBackoff] passes to [rand.IntN]. *)
Lemma backoff_bound_eq n :
  0 <= n ->
  wrap64 (wrap64 (1 + (if n >? 99 then 99 else n)) * 10)
  = (Z.min n 99 + 1) * 10.
Proof.
  intros Hn. destruct (Z.gtb_spec n 99) as [Hgt|Hle].
  - rewrite Z.min_r by lia. reflexivity.
  - rewrite Z.min_l by lia.
    rewrite (wrap64_small (1 + n)) by (unfold min_int64, max_int64; lia).
    rewrite wrap64_small by (unfold min_int64, max_int64; lia). lia.
Qed.

(** C8. For an attempt number [n >= 0], [randomBackoff n] asks the
    random source for one number below [(min n 99 + 1) * 10] and returns
    that many milliseconds: a whole number of milliseconds of the
    interval, below one second.  Distinct draws give distinct delays and
    every number of the interval is the delay of some draw, so the delay
    is as uniform as the draw of [rand.IntN] is.  The ceiling grows with
    the attempt up to 1000 ms at attempt 99 and stays there. *)
Theorem randomBackoff_range :
  forall (W : Type) (RT : Runtime W) (n : Z) (s : State W),
    0 <= n ->
    let bound := (Z.min n 99 + 1) * 10 in
    let draw := fst (rt_IntN bound (world s)) in
    randomBackoff n s
    = (Ret (time.Millisecond * draw),
       mkState (snd (rt_IntN bound (world s)))
         (trace s ++ [EvIntN bound draw]))
    /\ 0 <= draw < bound
    /\ 0 <= time.Millisecond * draw < 1000 * time.Millisecond
    /\ (forall d d',
          time.Millisecond * d = time.Millisecond * d' -> d = d')
    /\ (forall k (w : Sim.FS) ds t,
          0 <= k < bound -> Sim.draws w = k :: ds ->
          fst (randomBackoff n (mkState w t)) = Ret (time.Millisecond * k))
    /\ 10 <= bound <= 1000
    /\ (bound = 1000 <-> 99 <= n)
    /\ (forall m, n <= m -> bound <= (Z.min m 99 + 1) * 10).
Proof.
  intros W RT n s Hn bound draw.
  assert (Hb : 10 <= bound <= 1000) by (unfold bound; lia).
  assert (Hrun : forall (W' : Type) (RT' : Runtime W') (s' : State W'),
            randomBackoff n s'
            = (Ret (time.Millisecond * fst (rt_IntN bound (world s'))),
               mkState (snd (rt_IntN bound (world s')))
                 (trace s' ++ [EvIntN bound (fst (rt_IntN bound (world s')))]))
            /\ 0 <= fst (rt_IntN bound (world s')) < bound).
  { intros W' RT' s'.
    pose proof (rt_IntN_range bound (world s') ltac:(lia)) as Hd.
    split; [|exact Hd].
    unfold randomBackoff. rewrite (backoff_bound_eq n Hn). fold bound.
    unfold rand_IntN, bind, request, ret.
    destruct (Z.leb_spec bound 0) as [|_]; [lia|].
    destruct (rt_IntN bound (world s')) as [d w'] eqn:Hdraw.
    cbn [fst snd] in *.
    rewrite wrap64_small
      by (unfold time.Millisecond, min_int64, max_int64; lia).
    reflexivity. }
  destruct (Hrun W RT s) as [Hs Hd]. fold draw in Hs, Hd.
  split; [exact Hs|]. split; [exact Hd|].
  split; [unfold time.Millisecond; lia|].
  split; [unfold time.Millisecond; lia|].
  split.
  { intros k w ds t Hk Hdraws.
    destruct (Hrun Sim.FS _ (mkState w t)) as [-> _]. cbn [fst world].
    cbn [rt_IntN Sim.runtime]. unfold Sim.IntN. rewrite Hdraws. cbn [fst].
    rewrite Z.mod_small by lia. reflexivity. }
  split; [exact Hb|]. split; [unfold bound; lia|].
  intros m Hm. unfold bound. lia.
Qed.

Lemma randomBackoff_range_witness :
  let w := Sim.mkFS ∅ ∅ ∅ 3 2 [] [1234567] [] in
  let s := Sim.start w in
  0 <= 120
  /\ randomBackoff 120 s
     = (Ret (time.Millisecond * 567),
        mkState (snd (rt_IntN 1000 w)) ([] ++ [EvIntN 1000 567]))
  /\ 0 <= 567 < 1000
  /\ (0 <= 999 < 1000
      /\ Sim.draws (Sim.mkFS ∅ ∅ ∅ 3 2 [] [999] []) = [999]
      /\ fst (randomBackoff 120 (Sim.start (Sim.mkFS ∅ ∅ ∅ 3 2 [] [999] [])))
         = Ret (time.Millisecond * 999))
  /\ (120 <= 500 /\ 1000 <= (Z.min 500 99 + 1) * 10).
Proof.
  intros w s.
  pose proof (randomBackoff_range Sim.FS _ 120 s ltac:(lia)) as H.
  split; [lia|]. split; [exact (proj1 H)|].
  split; [exact (proj1 (proj2 H))|]. split.
  - assert (Hk : 0 <= 999 < 1000) by lia.
    split; [exact Hk|]. split; [reflexivity|].
    exact (proj1 (proj2 (proj2 (proj2 (proj2 H))))
             999 (Sim.mkFS ∅ ∅ ∅ 3 2 [] [999] []) [] [] Hk eq_refl).
  - assert (Hm : 120 <= 500) by lia.
    split; [exact Hm|].
    exact (proj2 (proj2 (proj2 (proj2 (proj2 (proj2 (proj2 H)))))) 500 Hm).
Defined.

(** ** Waiting *)

Section WaitRuns.
Context {W : Type} {RT : Runtime W}.
Variable GOOS : string.
Variable File : Type.
Variable Create : string -> M W (option File * option error).

Lemma ctx_Err_not_temporary why :
  IsTemporary GOOS (Some (ctx_Err why)) = false.
Proof. destruct why; reflexivity. Qed.

(** A computation that does not panic here passes its result on. *)
Lemma bind_Ret_inv {A B} (c : M W A) (k : A -> M W B) s b s' :
  bind c k s = (Ret b, s') ->
  exists a s1, c s = (Ret a, s1) /\ k a s1 = (Ret b, s').
Proof.
  unfold bind. destruct (c s) as [[a|msg|] s1]; intros Hrun;
    try discriminate Hrun.
  exists a, s1. split; [reflexivity|exact Hrun].
Qed.

(** The decision after a call of [Create], in the loop and before it:
    an error that is returned at once is a permanent one. *)
Lemma decision_error_not_temporary
    (k : M W (option File * option error)) r s1 file e s' :
  (let '(file, err) := r in
   match err with
   | None => ret (file, None)
   | Some _ => if negb (IsTemporary GOOS err) then ret (None, err) else k
   end) s1 = (Ret (file, Some e), s') ->
  (k s1 = (Ret (file, Some e), s') ->
   file = None /\ IsTemporary GOOS (Some e) = false) ->
  file = None /\ IsTemporary GOOS (Some e) = false.
Proof.
  destruct r as [file0 [e0|]]; [|discriminate].
  destruct (IsTemporary GOOS (Some e0)) eqn:Htemp; cbn [negb].
  - intros Hk Hcont. apply Hcont. exact Hk.
  - unfold ret. intros [= <- <- <-] _. split; [reflexivity|exact Htemp].
Qed.

Lemma WaitCtx_loop_error_not_temporary fuel path :
  forall attempt s file e s',
    WaitCtx_loop GOOS File Create fuel path attempt s
    = (Ret (file, Some e), s') ->
    file = None /\ IsTemporary GOOS (Some e) = false.
Proof.
  induction fuel as [|fuel IH]; intros attempt s file e s' Hrun;
    [discriminate Hrun|].
  cbn [WaitCtx_loop] in Hrun.
  apply bind_Ret_inv in Hrun as (sel & s1 & _ & Hrun).
  destruct sel as [why|].
  - unfold ret in Hrun. injection Hrun as <- <- <-.
    split; [reflexivity|apply ctx_Err_not_temporary].
  - apply bind_Ret_inv in Hrun as (r & s2 & _ & Hrun).
    eapply decision_error_not_temporary; [exact Hrun|].
    intros Hk.
    apply bind_Ret_inv in Hk as (delay & s3 & _ & Hk).
    apply bind_Ret_inv in Hk as (u & s4 & _ & Hk).
    eapply IH. exact Hk.
Qed.

Lemma WaitCtx_error_not_temporary fuel path s file e s' :
  WaitCtx GOOS File Create fuel path s = (Ret (file, Some e), s') ->
  file = None /\ IsTemporary GOOS (Some e) = false.
Proof.
  intros Hrun. unfold WaitCtx in Hrun.
  apply bind_Ret_inv in Hrun as (r & s1 & _ & Hrun).
  eapply decision_error_not_temporary; [exact Hrun|].
  intros Hk.
  apply bind_Ret_inv in Hk as (delay & s2 & _ & Hk).
  apply bind_Ret_inv in Hk as (u & s3 & _ & Hk).
  eapply WaitCtx_loop_error_not_temporary. exact Hk.
Qed.

End WaitRuns.

(** C9. [WaitCtx] calls [Create] once and returns its result when the
    call succeeded or failed with an error that is not temporary;
    otherwise it draws the first delay, arms the timer and enters the
    loop.  A round of the loop waits for the context or the timer.  When
    the context is done the round returns the error of the context, which
    is none of the contention errors, and the state is the one the
    [select] left: [Create] was not called.  When the timer fired the
    round calls [Create] and decides as before: success and permanent
    errors are returned; after a temporary error the attempt is counted,
    a new delay drawn, the timer reset and the next round entered.  So an
    error that [WaitCtx] returns, after any number of rounds, is never a
    temporary one, and comes with no [File]. *)
Theorem WaitCtx_control_flow :
  forall (W : Type) (RT : Runtime W) (GOOS : string) (File : Type)
         (Create : string -> M W (option File * option error))
         (fuel : nat) (path : string) (s : State W),
    let decide (k : M W (option File * option error))
               (r : outcome (option File * option error)) (s1 : State W) :=
      match r with
      | Ret (file, None) => (Ret (file, None), s1)
      | Ret (file, Some e) =>
          if IsTemporary GOOS (Some e) then k s1 else (Ret (None, Some e), s1)
      | Panic msg => (Panic msg, s1)
      | OutOfFuel => (OutOfFuel, s1)
      end in
    (* the first attempt *)
    WaitCtx GOOS File Create fuel path s
    = decide
        (delay <- randomBackoff 0 ;;
         time_NewTimer delay ;;;
         WaitCtx_loop GOOS File Create fuel path 0)
        (fst (Create path s)) (snd (Create path s))
    (* a round of the loop *)
    /\ (forall attempt why w1,
          rt_select (world s) = (SelDone why, w1) ->
          WaitCtx_loop GOOS File Create (S fuel) path attempt s
          = (Ret (None, Some (ctx_Err why)),
             mkState w1 (trace s ++ [EvSelect (SelDone why)]))
          /\ ctx_Err why <> ErrExist
          /\ ctx_Err why <> ErrPermission
          /\ IsTemporary GOOS (Some (ctx_Err why)) = false)
    /\ (forall attempt w1,
          rt_select (world s) = (SelTimer, w1) ->
          let s1 := mkState w1 (trace s ++ [EvSelect SelTimer]) in
          WaitCtx_loop GOOS File Create (S fuel) path attempt s
          = decide
              (delay <- randomBackoff (wrap64 (attempt + 1)) ;;
               timer_Reset delay ;;;
               WaitCtx_loop GOOS File Create fuel path (wrap64 (attempt + 1)))
              (fst (Create path s1)) (snd (Create path s1)))
    (* all rounds *)
    /\ (forall file e s',
          WaitCtx GOOS File Create fuel path s = (Ret (file, Some e), s') ->
          file = None /\ IsTemporary GOOS (Some e) = false).
Proof.
  intros W RT GOOS File Create fuel path s decide.
  split; [|split; [|split]].
  - unfold WaitCtx, decide. unfold bind at 1.
    destruct (Create path s) as [[[file [e|]]|msg|] s1]; cbn [fst snd];
      try reflexivity.
    destruct (IsTemporary GOOS (Some e)); reflexivity.
  - intros attempt why w1 Hsel.
    split; [|destruct why; repeat split; discriminate].
    cbn [WaitCtx_loop]. unfold select_Done_or_timer, bind, request, ret.
    rewrite Hsel. reflexivity.
  - intros attempt w1 Hsel s1.
    cbn [WaitCtx_loop]. unfold select_Done_or_timer.
    unfold bind at 1. unfold request. rewrite Hsel. fold s1.
    unfold bind at 1, decide.
    destruct (Create path s1) as [[[file [e|]]|msg|] s2]; cbn [fst snd];
      try reflexivity.
    destruct (IsTemporary GOOS (Some e)); reflexivity.
  - intros file e s' Hrun.
    eapply WaitCtx_error_not_temporary. exact Hrun.
Qed.

Lemma WaitCtx_control_flow_witness :
  let wait := WaitCtx "linux" Posix.File (Posix.Create 1) in
  let loop := WaitCtx_loop "linux" Posix.File (Posix.Create 1) in
  let s := Sim.start (Sim_contended [SelTimer; SelDone CtxCanceled]) in
  let sdone := Sim.start (Sim_contended [SelDone CtxCanceled]) in
  (wait 4%nat "test.lock" s
   = (Ret (None, Some Canceled), snd (wait 4%nat "test.lock" s))
   /\ @None Posix.File = None
   /\ IsTemporary "linux" (Some Canceled) = false)
  /\ (rt_select (world sdone) = (SelDone CtxCanceled, Sim_contended [])
      /\ loop 1%nat "test.lock" 0 sdone
         = (Ret (None, Some (ctx_Err CtxCanceled)),
            mkState (Sim_contended [])
              (trace sdone ++ [EvSelect (SelDone CtxCanceled)]))
      /\ ctx_Err CtxCanceled <> ErrExist
      /\ ctx_Err CtxCanceled <> ErrPermission
      /\ IsTemporary "linux" (Some (ctx_Err CtxCanceled)) = false)
  /\ (rt_select (world s)
      = (SelTimer, Sim_contended [SelDone CtxCanceled])
      /\ fst (loop 2%nat "test.lock" 0 s) = Ret (None, Some Canceled)).
Proof.
  intros wait loop s sdone.
  assert (Hrun : wait 4%nat "test.lock" s
                 = (Ret (None, Some Canceled),
                    snd (wait 4%nat "test.lock" s)))
    by (vm_compute; reflexivity).
  assert (Hdone : rt_select (world sdone)
                  = (SelDone CtxCanceled, Sim_contended []))
    by reflexivity.
  assert (Htimer : rt_select (world s)
                   = (SelTimer, Sim_contended [SelDone CtxCanceled]))
    by reflexivity.
  split; [split; [exact Hrun|]|split].
  - exact (proj2 (proj2 (proj2
             (WaitCtx_control_flow Sim.FS _ "linux" Posix.File
                (Posix.Create 1) 4%nat "test.lock" s)))
             None Canceled _ Hrun).
  - split; [exact Hdone|].
    exact (proj1 (proj2
             (WaitCtx_control_flow Sim.FS _ "linux" Posix.File
                (Posix.Create 1) 0%nat "test.lock" sdone))
             0 CtxCanceled _ Hdone).
  - split; [exact Htimer|].
    unfold loop.
    rewrite (proj1 (proj2 (proj2
               (WaitCtx_control_flow Sim.FS _ "linux" Posix.File
                  (Posix.Create 1) 1%nat "test.lock" s)))
               0 _ Htimer).
    vm_compute. reflexivity.
Defined.

(** Two attempts against a lock that stays held, then the cancellation:
    the trace has the two calls of [Create], each refused by the lock,
    the delays drawn below 10 and 20 milliseconds, and no third call. *)
Example WaitCtx_contended_trace :
  WaitCtx "linux" Posix.File (Posix.Create 1) 4%nat "test.lock"
    (Sim.start (Sim_contended [SelTimer; SelDone CtxCanceled]))
  = (Ret (None, Some Canceled),
     mkState
       (Sim.mkFS {[ "test.lock" := 2 ]}
          {[ 2 := Sim.mkInode 0 1 (Some Sim.Other) ]} ∅ 5 3 [] [] [])
       [EvOpen "test.lock" os.O_CREATE 256 (inl 3);
        EvFlock 3 LOCK_EX_NB (Some EWOULDBLOCK); EvClose 3 None;
        EvIntN 10 7; EvNewTimer (7 * time.Millisecond);
        EvSelect SelTimer;
        EvOpen "test.lock" os.O_CREATE 256 (inl 4);
        EvFlock 4 LOCK_EX_NB (Some EWOULDBLOCK); EvClose 4 None;
        EvIntN 20 15; EvTimerReset (15 * time.Millisecond);
        EvSelect (SelDone CtxCanceled)]).
Proof. vm_compute. reflexivity. Qed.

(** * Further properties of the code *)

(** ** [Create]: descriptors, results, errors *)

(** A round of [Create] that was given up leaves nothing open. *)
Lemma left_open_round path fd st c evs :
  left_open
    ([EvOpen path os.O_CREATE 256 (inl fd); EvFlock fd LOCK_EX_NB None;
      EvFstat fd (inl st); EvClose fd c] ++ evs)
  = left_open evs.
Proof.
  unfold left_open. rewrite fold_left_app.
  cbn [fold_left track app close_one]. rewrite Z.eqb_refl. reflexivity.
Qed.

(** The descriptors a run of [Create] leaves open, by its outcome. *)
Lemma Create_run_balance path evs o :
  Create_run path evs o ->
  (exists fd,
      left_open evs = [fd]
      /\ (o = Ret (Some (Posix.mkFile path (Some (os.mkFile fd path))),
                   None)
          \/ o = Ret (None, Some (not_empty_error path))))
  \/ (left_open evs = []
      /\ (o = OutOfFuel
          \/ exists e, o = Ret (None, Some e) /\ e <> not_empty_error path)).
Proof.
  assert (Hclosed : forall fd : Fd, close_one fd [fd] = []).
  { intros fd. cbn [close_one]. rewrite Z.eqb_refl. reflexivity. }
  induction 1 as [|e|fd e c|fd e c|fd st Hsz|fd st Hsz Hl
                  |fd st c evs o Hsz Hl Hrun IH].
  - right. split; [reflexivity|]. left. reflexivity.
  - right. split; [reflexivity|]. right. eexists. split; [reflexivity|].
    discriminate.
  - right. split; [exact (Hclosed fd)|]. right. eexists.
    split; [reflexivity|]. destruct (e =? EWOULDBLOCK); discriminate.
  - right. split; [exact (Hclosed fd)|]. right. eexists.
    split; [reflexivity|]. discriminate.
  - left. exists fd. split; [reflexivity|]. right. reflexivity.
  - left. exists fd. split; [reflexivity|]. left. reflexivity.
  - rewrite left_open_round. exact IH.
Qed.

(** X1. Whatever the system calls answer and however many rounds the
    loop takes, a call of [Create] leaves at most one of the descriptors
    it opened open, where a descriptor counts as closed only when the
    [close] names that very descriptor.  When the call returns a [File]
    the descriptor left open is the one of the [File]; when it returns
    the not-empty error one descriptor is left open as well; in every
    other case (any other error, the rounds given up because the locked
    file had no link left, the fuel running out) none is. *)
Theorem Create_descriptor_balance :
  forall (W : Type) (PS : PosixSys W) fuel path (s s' : State W) o,
    Posix.Create fuel path s = (o, s') ->
    exists evs,
      trace s' = trace s ++ evs
      /\ ((exists fd,
              left_open evs = [fd]
              /\ (o = Ret (Some (Posix.mkFile path
                                   (Some (os.mkFile fd path))), None)
                  \/ o = Ret (None, Some (not_empty_error path))))
          \/ (left_open evs = []
              /\ (o = OutOfFuel
                  \/ exists e, o = Ret (None, Some e)
                               /\ e <> not_empty_error path))).
Proof.
  intros W PS fuel path s s' o Hrun.
  destruct (Create_sound fuel path s o s' Hrun) as (evs & Htr & Hevs).
  exists evs. split; [exact Htr|]. apply Create_run_balance. exact Hevs.
Qed.

Lemma Create_descriptor_balance_witness :
  let run := Posix.Create 2 "test.lock" (mkState Scripted.replaced []) in
  run = (fst run, snd run)
  /\ fst run = Ret (None, Some (not_empty_error "test.lock"))
  /\ left_open (trace (snd run)) = [4]
  /\ exists evs,
       trace (snd run) = [] ++ evs
       /\ ((exists fd,
               left_open evs = [fd]
               /\ (fst run
                   = Ret (Some (Posix.mkFile "test.lock"
                                  (Some (os.mkFile fd "test.lock"))), None)
                   \/ fst run
                      = Ret (None, Some (not_empty_error "test.lock"))))
           \/ (left_open evs = []
               /\ (fst run = OutOfFuel
                   \/ exists e, fst run = Ret (None, Some e)
                                /\ e <> not_empty_error "test.lock"))).
Proof.
  intros run.
  assert (Hrun : run = (fst run, snd run)) by (vm_compute; reflexivity).
  split; [exact Hrun|].
  split; [vm_compute; reflexivity|].
  split; [vm_compute; reflexivity|].
  exact (Create_descriptor_balance Scripted.FS _ 2%nat "test.lock" _ _ _
           Hrun).
Defined.

(** What a run of [Create] that returns has returned. *)
Lemma Create_run_result path evs f err :
  Create_run path evs (Ret (f, err)) ->
  forall t,
    match f with
    | Some file =>
        err = None
        /\ exists pre fd st,
             t ++ evs = pre ++ [EvOpen path os.O_CREATE 256 (inl fd);
                               EvFlock fd LOCK_EX_NB None;
                               EvFstat fd (inl st)]
             /\ Size st = 0 /\ Nlink st <> 0
             /\ file = Posix.mkFile path (Some (os.mkFile fd path))
    | None =>
        exists e,
          err = Some e /\ e <> ErrPermission
          /\ forall GOOS, IsTemporary GOOS (Some e) = true <-> e = ErrExist
    end.
Proof.
  intros Hrun. remember (Ret (f, err)) as o eqn:Ho. revert f err Ho.
  induction Hrun as [|e|fd e c|fd e c|fd st Hsz|fd st Hsz Hl
                     |fd st c evs o Hsz Hl Hrun IH];
    intros f err Ho t; try discriminate Ho.
  - injection Ho as <- <-. eexists. split; [reflexivity|].
    split; [discriminate|]. intros GOOS. split; discriminate.
  - injection Ho as <- <-. eexists. split; [reflexivity|].
    destruct (e =? EWOULDBLOCK).
    + split; [discriminate|]. intros GOOS. split; reflexivity.
    + split; [discriminate|]. intros GOOS. split; discriminate.
  - injection Ho as <- <-. eexists. split; [reflexivity|].
    split; [discriminate|]. intros GOOS. split; discriminate.
  - injection Ho as <- <-. eexists. split; [reflexivity|].
    split; [discriminate|]. intros GOOS. split; discriminate.
  - injection Ho as <- <-. split; [reflexivity|].
    exists t, fd, st. auto.
  - subst o. rewrite app_assoc. apply IH. reflexivity.
Qed.

(** X2. [Create] returns a [File] only together with a nil error, and
    only from a round in which the [flock] succeeded and the stat of the
    locked descriptor showed an empty file that still has a link.  The
    [File] holds the path given and the descriptor of that round, which
    the call has not closed. *)
Theorem Create_File_holds_lock :
  forall (W : Type) (PS : PosixSys W) fuel path (s s' : State W) file err,
    Posix.Create fuel path s = (Ret (Some file, err), s') ->
    err = None
    /\ exists pre fd st,
         trace s' = pre ++ [EvOpen path os.O_CREATE 256 (inl fd);
                            EvFlock fd LOCK_EX_NB None;
                            EvFstat fd (inl st)]
         /\ Size st = 0 /\ Nlink st <> 0
         /\ file = Posix.mkFile path (Some (os.mkFile fd path)).
Proof.
  intros W PS fuel path s s' file err Hrun.
  apply Create_sound in Hrun as (evs & -> & Hevs).
  exact (Create_run_result path evs (Some file) err Hevs (trace s)).
Qed.

Lemma Create_File_holds_lock_witness :
  let run := Posix.Create 1 "test.lock" (Sim.start Sim.empty) in
  let file := Posix.mkFile "test.lock" (Some (os.mkFile 3 "test.lock")) in
  run = (Ret (Some file, None), snd run)
  /\ @None error = None
  /\ exists pre fd st,
       trace (snd run)
       = pre ++ [EvOpen "test.lock" os.O_CREATE 256 (inl fd);
                 EvFlock fd LOCK_EX_NB None; EvFstat fd (inl st)]
       /\ Size st = 0 /\ Nlink st <> 0
       /\ file = Posix.mkFile "test.lock" (Some (os.mkFile fd "test.lock")).
Proof.
  intros run file.
  assert (Hrun : run = (Ret (Some file, None), snd run))
    by (vm_compute; reflexivity).
  split; [exact Hrun|].
  exact (Create_File_holds_lock Sim.FS _ 1%nat "test.lock" _ _ file None
           Hrun).
Defined.

(** X3. An error returned by the POSIX [Create] is never the sentinel
    [os.ErrPermission], not even when the open was refused for lack of
    permission, and it is temporary exactly when it is [os.ErrExist]:
    how [IsTemporary] classifies it does not depend on the platform
    string. *)
Theorem Create_error_temporary_iff_ErrExist :
  forall (W : Type) (PS : PosixSys W) fuel path (s s' : State W) e,
    Posix.Create fuel path s = (Ret (None, Some e), s') ->
    e <> ErrPermission
    /\ forall GOOS, IsTemporary GOOS (Some e) = true <-> e = ErrExist.
Proof.
  intros W PS fuel path s s' e Hrun.
  apply Create_sound in Hrun as (evs & _ & Hevs).
  destruct (Create_run_result path evs None (Some e) Hevs [])
    as (e' & [= <-] & Hperm & Htemp).
  split; assumption.
Qed.

Lemma Create_error_temporary_iff_ErrExist_witness :
  let w := Sim.with_faults Sim.empty [Some EACCES] in
  let run := Posix.Create 1 "test.lock" (Sim.start w) in
  let e := PathError "open" "test.lock" (Errno EACCES) in
  run = (Ret (None, Some e), snd run)
  /\ e <> ErrPermission
  /\ forall GOOS, IsTemporary GOOS (Some e) = true <-> e = ErrExist.
Proof.
  intros w run e.
  assert (Hrun : run = (Ret (None, Some e), snd run))
    by (vm_compute; reflexivity).
  split; [exact Hrun|].
  exact (Create_error_temporary_iff_ErrExist Sim.FS _ 1%nat "test.lock" _ _
           e Hrun).
Defined.

(** ** [Close]: what its result says *)

(** X4. [Close] on an open handle returns nil exactly when the two
    stats succeeded and agreed, the path was unlinked and the descriptor
    was closed, all without error; these four calls are then the events of
    the call. *)
Theorem Close_nil_iff_unlinked_and_closed :
  forall (W : Type) (PS : PosixSys W) (f f' : Posix.File) file
         (s s' : State W) err,
    Posix.file f = Some file ->
    Posix.Close f s = (Ret (err, f'), s') ->
    (err = None <->
     exists st1 st2,
       same_inode st1 st2
       /\ trace s'
          = trace s ++ [EvFstat (os.fd file) (inl st1);
                        EvStat (Posix.path f) (inl st2);
                        EvUnlink (Posix.path f) None;
                        EvClose (os.fd file) None]).
Proof.
  intros W PS f f' file s s' err Hfile Hrun.
  destruct (Close_sound f file s Hfile) as (evs & err0 & c & w & Heq & Hevs).
  rewrite Hrun in Heq. injection Heq as -> _ ->. cbn [trace].
  split.
  - intros Hnil.
    destruct err0 as [e|]; [discriminate Hnil|].
    destruct c as [e|]; [discriminate Hnil|].
    inversion Hevs as [| | | |st1 st2 Hsame]; subst.
    exists st1, st2. split; [exact Hsame|reflexivity].
  - intros (st1 & st2 & Hsame & Htr).
    apply app_inv_head in Htr.
    change [?a; ?b; ?u; ?k] with ([a; b; u] ++ [k]) in Htr.
    apply app_inj_tail in Htr as [-> [= ->]].
    inversion Hevs; subst. reflexivity.
Qed.

Lemma Close_nil_iff_unlinked_and_closed_witness :
  let run := Posix.Close Sim_handle (Sim.start Sim_locked) in
  Posix.file Sim_handle = Some (os.mkFile 3 "test.lock")
  /\ run = (Ret (None, Posix.mkFile "test.lock" None), snd run)
  /\ (@None error = None <->
      exists st1 st2,
        same_inode st1 st2
        /\ trace (snd run)
           = [] ++ [EvFstat 3 (inl st1); EvStat "test.lock" (inl st2);
                    EvUnlink "test.lock" None; EvClose 3 None]).
Proof.
  intros run.
  assert (Hrun : run = (Ret (None, Posix.mkFile "test.lock" None), snd run))
    by (vm_compute; reflexivity).
  split; [reflexivity|]. split; [exact Hrun|].
  exact (Close_nil_iff_unlinked_and_closed Sim.FS _ Sim_handle _
           (os.mkFile 3 "test.lock") _ _ None eq_refl Hrun).
Defined.

(** X5. [Close] reports the first failure only.  The events before the
    close of the descriptor are a run of the body ([Close_body_run]),
    which fixes the error [berr] the body leaves: the wrapped error of
    the [fstat], of the [stat] or of the [unlink] that failed, the
    moved-file error, or nil after a successful unlink.  The result of
    [Close] is [berr] when it is an error and what the close of the
    descriptor answered when it is nil.  So when the body reached a
    successful unlink, the result is the error of the close or nil;
    when it did not, the result is the error of the body, never the
    [*PathError] of the close: a failure to close the descriptor is
    then not reported. *)
Theorem Close_reports_first_error :
  forall (W : Type) (PS : PosixSys W) (f f' : Posix.File) file
         (s s' : State W) err,
    Posix.file f = Some file ->
    Posix.Close f s = (Ret (err, f'), s') ->
    exists evs berr c,
      trace s' = trace s ++ evs ++ [EvClose (os.fd file) c]
      /\ Close_body_run (Posix.path f) file evs berr
      /\ err = first_error berr (close_error file c)
      /\ (In (EvUnlink (Posix.path f) None) evs ->
          berr = None /\ err = close_error file c)
      /\ (~ In (EvUnlink (Posix.path f) None) evs ->
          exists e, berr = Some e /\ err = Some e
                    /\ forall op p x, e <> PathError op p x).
Proof.
  intros W PS f f' file s s' err Hfile Hrun.
  destruct (Close_sound f file s Hfile) as (evs & err0 & c & w & Heq & Hevs).
  rewrite Hrun in Heq. injection Heq as -> _ ->. cbn [trace].
  exists evs, err0, c. split; [reflexivity|]. split; [exact Hevs|].
  split; [reflexivity|].
  destruct Hevs as [e|st1 e|st1 st2 Hne|st1 st2 e Hsame|st1 st2 Hsame];
    cbn [first_error].
  - split; [intros Hin; cbn in Hin; intuition discriminate|].
    intros _. eexists. split; [reflexivity|]. split; [reflexivity|].
    discriminate.
  - split; [intros Hin; cbn in Hin; intuition discriminate|].
    intros _. eexists. split; [reflexivity|]. split; [reflexivity|].
    discriminate.
  - split; [intros Hin; cbn in Hin; intuition discriminate|].
    intros _. eexists. split; [reflexivity|]. split; [reflexivity|].
    discriminate.
  - split; [intros Hin; cbn in Hin; intuition discriminate|].
    intros _. eexists. split; [reflexivity|]. split; [reflexivity|].
    discriminate.
  - split; [intros _; split; reflexivity|].
    intros Hno. exfalso. apply Hno. cbn. auto.
Qed.

Lemma Close_reports_first_error_witness :
  let w := Sim.with_faults Sim_locked [None; Some EIO; Some EBADF] in
  let run := Posix.Close Sim_handle (Sim.start w) in
  let err :=
    wrapError
      ("failed to stat existing lock file " +:+ quoted "test.lock"
         +:+ " by its before deletion: %w")
      (PathError "stat" "test.lock" (Errno EIO)) in
  Posix.file Sim_handle = Some (os.mkFile 3 "test.lock")
  /\ run = (Ret (Some err, Posix.mkFile "test.lock" None), snd run)
  /\ trace (snd run)
     = [EvFstat 3 (inl (mkStat 1 2 1 0)); EvStat "test.lock" (inr EIO);
        EvClose 3 (Some EBADF)]
  /\ exists evs berr c,
       trace (snd run) = [] ++ evs ++ [EvClose 3 c]
       /\ Close_body_run "test.lock" (os.mkFile 3 "test.lock") evs berr
       /\ Some err = first_error berr (close_error (os.mkFile 3 "test.lock") c)
       /\ (In (EvUnlink "test.lock" None) evs ->
           berr = None
           /\ Some err = close_error (os.mkFile 3 "test.lock") c)
       /\ (~ In (EvUnlink "test.lock" None) evs ->
           exists e, berr = Some e /\ Some err = Some e
                     /\ forall op p x, e <> PathError op p x).
Proof.
  intros w run err.
  assert (Hrun : run = (Ret (Some err, Posix.mkFile "test.lock" None),
                        snd run))
    by (vm_compute; reflexivity).
  split; [reflexivity|]. split; [exact Hrun|].
  split; [vm_compute; reflexivity|].
  exact (Close_reports_first_error Sim.FS _ Sim_handle _
           (os.mkFile 3 "test.lock") _ _ (Some err) eq_refl Hrun).
Defined.

(** ** Acquire and release on the simulated file system *)

Section SimCalls.
Import Sim.

Lemma Sim_open_create path flag perm w :
  faults w = [] -> dir w !! path = None -> Z.land flag os.O_CREATE <> 0 ->
  open path flag perm w
  = (inl (next_fd w),
     with_files w (<[path := next_ino w]> (dir w))
       (<[next_ino w := mkInode 0 1 None]> (inodes w))
       (<[next_fd w := next_ino w]> (fds w))
       (next_fd w + 1) (next_ino w + 1)).
Proof.
  intros Hf Hd Hflag. unfold open, inject. rewrite Hf, Hd.
  destruct (Z.eqb_spec (Z.land flag os.O_CREATE) 0); [contradiction|].
  reflexivity.
Qed.

Lemma Sim_stat_existing path w ino i :
  faults w = [] -> dir w !! path = Some ino -> inodes w !! ino = Some i ->
  stat path w = (inl (stat_of ino i), w).
Proof.
  intros Hf Hd Hi. unfold stat, inject. rewrite Hf, Hd, Hi. reflexivity.
Qed.

Lemma Sim_unlink_existing path w ino :
  faults w = [] -> dir w !! path = Some ino ->
  unlink path w
  = (None,
     with_files w (delete path (dir w))
       (alter (fun i => mkInode (i_size i) (i_nlink i - 1) (i_lock i))
          ino (inodes w))
       (fds w) (next_fd w) (next_ino w)).
Proof. intros Hf Hd. unfold unlink, inject. rewrite Hf, Hd. reflexivity. Qed.

Lemma Sim_close_open fd w ino :
  faults w = [] -> fds w !! fd = Some ino ->
  close fd w
  = (None,
     with_files w (dir w) (alter (unlock_of fd) ino (inodes w))
       (delete fd (fds w)) (next_fd w) (next_ino w)).
Proof.
  intros Hf Hfd. unfold close, release. rewrite Hf, Hfd. reflexivity.
Qed.

(** One round of [Create] on a world where the open, the [flock] and the
    stat go through and the file is empty and linked. *)
Lemma Sim_Create_round fuel path w t w1 w2 fd ino i :
  open path os.O_CREATE 256 w = (inl fd, w1) ->
  flock fd LOCK_EX_NB w1 = (None, w2) ->
  faults w2 = [] -> fds w2 !! fd = Some ino -> inodes w2 !! ino = Some i ->
  i_size i = 0 -> i_nlink i <> 0 ->
  Posix.Create (S fuel) path (mkState w t)
  = (Ret (Some (Posix.mkFile path (Some (os.mkFile fd path))), None),
     mkState w2
       (t ++ [EvOpen path os.O_CREATE 256 (inl fd);
              EvFlock fd LOCK_EX_NB None;
              EvFstat fd (inl (stat_of ino i))])).
Proof.
  intros Ho Hl Hf Hfd Hi Hsz Hn.
  cbn [Posix.Create].
  unfold os.OpenFile, syscall.Flock, os.File_Stat, bind, request, ret.
  fold LOCK_EX_NB.
  cbn [sys_open sys_flock sys_fstat posix world trace].
  rewrite Ho. cbn [os.fd world trace option_map].
  rewrite Hl. cbn [os.fd world trace option_map].
  rewrite (Sim_fstat_open fd w2 ino i Hf Hfd Hi).
  cbn [os.FileInfo_of os.fi_Size os.fi_Sys stat_of Size Nlink world trace].
  rewrite Hsz. cbn [Z.eqb negb].
  destruct (Z.eqb_spec (i_nlink i) 0); [contradiction|].
  rewrite <- !app_assoc. reflexivity.
Qed.

End SimCalls.

Section SimProtocol.
Import Sim.

(** [Create] on a free path takes the lock through a new descriptor and
    touches no other name. *)
Lemma Sim_Create_free fuel path w t :
  Sim_free path w ->
  exists w1 evs,
    Posix.Create (S fuel) path (mkState w t)
    = (Ret (Some (Posix.mkFile path (Some (os.mkFile (next_fd w) path))),
            None),
       mkState w1 (t ++ evs))
    /\ Sim_held_by path (next_fd w) w1
    /\ (forall p, p <> path -> dir w1 !! p = dir w !! p)
    /\ (forall fd, fd <> next_fd w -> fds w1 !! fd = fds w !! fd).
Proof.
  intros [Hf Hfree].
  destruct (dir w !! path) as [ino|] eqn:Hd.
  - destruct Hfree as (i & Hi & Hl & Hsz & Hn).
    pose proof (Sim_open_existing path os.O_CREATE 256 w ino Hf Hd) as Ho.
    set (w1 := with_files w (dir w) (inodes w) (<[next_fd w := ino]> (fds w))
                 (next_fd w + 1) (next_ino w)) in Ho.
    assert (Hfd1 : fds w1 !! next_fd w = Some ino)
      by apply lookup_insert_eq.
    pose proof (Sim_flock_free (next_fd w) LOCK_EX_NB w1 ino i Hf Hfd1 Hi Hl)
      as Hlock.
    set (w2 := set_lock ino (Some (Self (next_fd w))) w1) in Hlock.
    assert (Hi2 : inodes w2 !! ino
                  = Some (mkInode (i_size i) (i_nlink i)
                            (Some (Self (next_fd w))))).
    { unfold w2, set_lock. cbn [with_files inodes].
      rewrite lookup_alter_eq. unfold w1. cbn [with_files inodes].
      rewrite Hi. reflexivity. }
    eexists w2, _. split; [|split; [|split]].
    + eapply Sim_Create_round; [exact Ho|exact Hlock|exact Hf|exact Hfd1
                                |exact Hi2|exact Hsz|exact Hn].
    + split; [exact Hf|]. split; [cbn; lia|].
      exists ino, (mkInode (i_size i) (i_nlink i) (Some (Self (next_fd w)))).
      split; [exact Hd|]. split; [exact Hfd1|]. split; [exact Hi2|].
      reflexivity.
    + intros p _. reflexivity.
    + intros fd Hfd. cbn [w2 set_lock w1 with_files fds].
      apply lookup_insert_ne. congruence.
  - assert (Hflag : Z.land os.O_CREATE os.O_CREATE <> 0) by discriminate.
    pose proof (Sim_open_create path os.O_CREATE 256 w Hf Hd Hflag) as Ho.
    set (w1 := with_files w (<[path := next_ino w]> (dir w))
                 (<[next_ino w := mkInode 0 1 None]> (inodes w))
                 (<[next_fd w := next_ino w]> (fds w))
                 (next_fd w + 1) (next_ino w + 1)) in Ho.
    assert (Hfd1 : fds w1 !! next_fd w = Some (next_ino w))
      by apply lookup_insert_eq.
    assert (Hi1 : inodes w1 !! next_ino w = Some (mkInode 0 1 None))
      by apply lookup_insert_eq.
    pose proof (Sim_flock_free (next_fd w) LOCK_EX_NB w1 (next_ino w) _ Hf
                  Hfd1 Hi1 eq_refl) as Hlock.
    set (w2 := set_lock (next_ino w) (Some (Self (next_fd w))) w1) in Hlock.
    assert (Hi2 : inodes w2 !! next_ino w
                  = Some (mkInode 0 1 (Some (Self (next_fd w))))).
    { unfold w2, set_lock. cbn [with_files inodes].
      rewrite lookup_alter_eq, Hi1. reflexivity. }
    eexists w2, _. split; [|split; [|split]].
    + eapply Sim_Create_round; [exact Ho|exact Hlock|exact Hf|exact Hfd1
                                |exact Hi2|reflexivity|discriminate].
    + split; [exact Hf|]. split; [cbn; lia|].
      exists (next_ino w), (mkInode 0 1 (Some (Self (next_fd w)))).
      split; [apply lookup_insert_eq|]. split; [exact Hfd1|].
      split; [exact Hi2|]. reflexivity.
    + intros p Hp. cbn [w2 set_lock w1 with_files dir].
      apply lookup_insert_ne. congruence.
    + intros fd Hfd. cbn [w2 set_lock w1 with_files fds].
      apply lookup_insert_ne. congruence.
Qed.

(** [Create] on a path that this process already holds is refused with
    [os.ErrExist]; the holder keeps the lock. *)
Lemma Sim_Create_while_held fuel path fd w t :
  Sim_held_by path fd w ->
  exists w1 evs,
    Posix.Create (S fuel) path (mkState w t)
    = (Ret (None, Some ErrExist), mkState w1 (t ++ evs))
    /\ Sim_held_by path fd w1
    /\ dir w1 = dir w.
Proof.
  intros (Hf & Hlt & ino & i & Hd & Hfd & Hi & Hl).
  pose proof (Sim_open_existing path os.O_CREATE 256 w ino Hf Hd) as Ho.
  set (w1 := with_files w (dir w) (inodes w) (<[next_fd w := ino]> (fds w))
               (next_fd w + 1) (next_ino w)) in Ho.
  assert (Hfd1 : fds w1 !! next_fd w = Some ino) by apply lookup_insert_eq.
  assert (Hne : Self fd <> Self (next_fd w)) by (intros [= ->]; lia).
  pose proof (Sim_flock_held (next_fd w) LOCK_EX_NB w1 ino i (Self fd) Hf
                Hfd1 Hi Hl Hne) as Hlock.
  pose proof (Sim_close_open (next_fd w) w1 ino Hf Hfd1) as Hclose.
  set (w2 := with_files w1 (dir w1)
               (alter (unlock_of (next_fd w)) ino (inodes w1))
               (delete (next_fd w) (fds w1)) (next_fd w1) (next_ino w1))
    in Hclose.
  exists w2, [EvOpen path os.O_CREATE 256 (inl (next_fd w));
              EvFlock (next_fd w) LOCK_EX_NB (Some EWOULDBLOCK);
              EvClose (next_fd w) None].
  split; [|split].
  - cbn [Posix.Create].
    unfold os.OpenFile, syscall.Flock, os.File_Close, bind, request, ret.
    fold LOCK_EX_NB.
    cbn [sys_open sys_flock sys_close posix world trace].
    rewrite Ho. cbn [os.fd world trace option_map].
    rewrite Hlock. cbn [os.fd world trace option_map].
    rewrite Hclose. cbn [world trace]. rewrite <- !app_assoc. reflexivity.
  - split; [exact Hf|]. split; [cbn; lia|].
    exists ino, i. split; [exact Hd|]. split; [|split; [|exact Hl]].
    + cbn [w2 w1 with_files fds].
      rewrite lookup_delete_ne by lia.
      rewrite lookup_insert_ne by lia. exact Hfd.
    + cbn [w2 w1 with_files inodes]. rewrite lookup_alter_eq, Hi.
      cbn. unfold unlock_of. rewrite Hl.
      destruct (Z.eqb_spec fd (next_fd w)); [lia|reflexivity].
  - reflexivity.
Qed.

(** [Close] by the holder unlinks the path, closes the descriptor and
    returns nil; no other name changes. *)
Lemma Sim_Close_by_holder path fd name w t :
  Sim_held_by path fd w ->
  exists w1 evs,
    Posix.Close (Posix.mkFile path (Some (os.mkFile fd name))) (mkState w t)
    = (Ret (None, Posix.mkFile path None), mkState w1 (t ++ evs))
    /\ faults w1 = []
    /\ dir w1 = delete path (dir w)
    /\ fds w1 = delete fd (fds w).
Proof.
  intros (Hf & Hlt & ino & i & Hd & Hfd & Hi & Hl).
  pose proof (Sim_fstat_open fd w ino i Hf Hfd Hi) as H1.
  pose proof (Sim_stat_existing path w ino i Hf Hd Hi) as H2.
  pose proof (Sim_unlink_existing path w ino Hf Hd) as H3.
  set (w1 := with_files w (delete path (dir w))
               (alter (fun i => mkInode (i_size i) (i_nlink i - 1) (i_lock i))
                  ino (inodes w))
               (fds w) (next_fd w) (next_ino w)) in H3.
  pose proof (Sim_close_open fd w1 ino Hf Hfd) as H4.
  eexists _, _. split; [|split; [|split]].
  - unfold Posix.Close. cbn [Posix.file Posix.path].
    unfold Posix.Close_body, os.File_Stat, os.Stat, syscall.Unlink,
      os.File_Close, bind, request, ret.
    cbn [sys_fstat sys_stat sys_unlink sys_close posix world trace os.fd].
    rewrite H1. cbn [world trace]. rewrite H2. cbn [world trace].
    unfold os.SameFile. cbn [os.FileInfo_of os.fi_Sys stat_of Dev Ino].
    rewrite !Z.eqb_refl. cbn [andb negb].
    cbn [world trace]. rewrite H3. cbn [world trace option_map].
    rewrite H4. cbn [world trace]. rewrite <- !app_assoc. reflexivity.
  - exact Hf.
  - reflexivity.
  - reflexivity.
Qed.

End SimProtocol.

(** X6. Round trip on the simulated file system.  On a free path
    that is a plain name (one component of the working directory: the
    names for which the simulated [open] answers as a file system does)
    [Create] succeeds and the [Close] of the [File] it returned returns
    nil; afterwards the path is gone and every other name is as before,
    the descriptor of the call is closed and the others are as before, and
    the path is free again, so that the next [Create] succeeds. *)
Theorem Sim_Create_Close_round_trip :
  forall fuel path (w : Sim.FS) t,
    plain_name path = true ->
    Sim_free path w ->
    exists file s1 s2,
      Posix.Create (S fuel) path (mkState w t) = (Ret (Some file, None), s1)
      /\ Posix.Close file s1 = (Ret (None, Posix.mkFile path None), s2)
      /\ Sim.dir (world s2) = delete path (Sim.dir w)
      /\ Sim.fds (world s2) = delete (Sim.next_fd w) (Sim.fds w)
      /\ Sim_free path (world s2).
Proof.
  intros fuel path w t _ Hfree.
  destruct (Sim_Create_free fuel path w t Hfree)
    as (w1 & evs1 & Hcreate & Hheld & Hdir & Hfds).
  destruct (Sim_Close_by_holder path (Sim.next_fd w) path w1 (t ++ evs1)
              Hheld)
    as (w2 & evs2 & Hclose & Hf2 & Hdir2 & Hfds2).
  eexists _, _, _. split; [exact Hcreate|]. split; [exact Hclose|].
  cbn [world]. split; [|split].
  - rewrite Hdir2. apply map_eq. intros p.
    destruct (decide (p = path)) as [->|Hp].
    + rewrite !lookup_delete_eq. reflexivity.
    + rewrite !lookup_delete_ne by congruence. apply Hdir. exact Hp.
  - rewrite Hfds2. apply map_eq. intros fd.
    destruct (decide (fd = Sim.next_fd w)) as [->|Hfd].
    + rewrite !lookup_delete_eq. reflexivity.
    + rewrite !lookup_delete_ne by congruence. apply Hfds. exact Hfd.
  - split; [exact Hf2|]. rewrite Hdir2, lookup_delete_eq. exact I.
Qed.

Lemma Sim_free_empty path : Sim_free path Sim.empty.
Proof.
  split; [reflexivity|]. cbn [Sim.empty Sim.dir]. rewrite lookup_empty.
  exact I.
Qed.

Lemma Sim_Create_Close_round_trip_witness :
  plain_name "test.lock" = true
  /\ Sim_free "test.lock" Sim.empty
  /\ exists file s1 s2,
       Posix.Create 1 "test.lock" (mkState Sim.empty [])
       = (Ret (Some file, None), s1)
       /\ Posix.Close file s1
          = (Ret (None, Posix.mkFile "test.lock" None), s2)
       /\ Sim.dir (world s2) = delete "test.lock" (Sim.dir Sim.empty)
       /\ Sim.fds (world s2)
          = delete (Sim.next_fd Sim.empty) (Sim.fds Sim.empty)
       /\ Sim_free "test.lock" (world s2).
Proof.
  split; [reflexivity|]. split; [apply Sim_free_empty|].
  exact (Sim_Create_Close_round_trip 0%nat "test.lock" Sim.empty []
           eq_refl (Sim_free_empty "test.lock")).
Defined.

(** X7. Exclusion on the simulated file system, for a path that is a
    plain name (one component of the working directory: the names for
    which the simulated [open] answers as a file system does).  While
    the [File] of a successful [Create] is open, another [Create] of the
    same path by this process is refused with [os.ErrExist]; the refusal
    does not disturb the holder, whose [Close] still returns nil and
    frees the path. *)
Theorem Sim_Create_refused_while_held :
  forall fuel fuel' path (w : Sim.FS) t,
    plain_name path = true ->
    Sim_free path w ->
    exists file s1 s2 s3,
      Posix.Create (S fuel) path (mkState w t) = (Ret (Some file, None), s1)
      /\ Posix.Create (S fuel') path s1 = (Ret (None, Some ErrExist), s2)
      /\ Posix.Close file s2 = (Ret (None, Posix.mkFile path None), s3)
      /\ Sim_free path (world s3).
Proof.
  intros fuel fuel' path w t _ Hfree.
  destruct (Sim_Create_free fuel path w t Hfree)
    as (w1 & evs1 & Hcreate & Hheld & _).
  destruct (Sim_Create_while_held fuel' path (Sim.next_fd w) w1 (t ++ evs1)
              Hheld)
    as (w2 & evs2 & Hsecond & Hheld2 & _).
  destruct (Sim_Close_by_holder path (Sim.next_fd w) path w2
              ((t ++ evs1) ++ evs2) Hheld2)
    as (w3 & evs3 & Hclose & Hf3 & Hdir3 & _).
  eexists _, _, _, _. split; [exact Hcreate|]. split; [exact Hsecond|].
  split; [exact Hclose|].
  split; [exact Hf3|]. cbn [world]. rewrite Hdir3, lookup_delete_eq. exact I.
Qed.

Lemma Sim_free_stale :
  Sim_free "test.lock" (Sim.with_file "test.lock" 0 None).
Proof.
  split; [reflexivity|].
  cbn [Sim.with_file Sim.dir Sim.inodes]. rewrite lookup_singleton_eq.
  exists (Sim.mkInode 0 1 None). rewrite lookup_singleton_eq.
  repeat split. discriminate.
Qed.

Lemma Sim_Create_refused_while_held_witness :
  let w := Sim.with_file "test.lock" 0 None in
  plain_name "test.lock" = true
  /\ Sim_free "test.lock" w
  /\ exists file s1 s2 s3,
       Posix.Create 1 "test.lock" (mkState w []) = (Ret (Some file, None), s1)
       /\ Posix.Create 1 "test.lock" s1 = (Ret (None, Some ErrExist), s2)
       /\ Posix.Close file s2
          = (Ret (None, Posix.mkFile "test.lock" None), s3)
       /\ Sim_free "test.lock" (world s3).
Proof.
  intros w. split; [reflexivity|]. split; [apply Sim_free_stale|].
  exact (Sim_Create_refused_while_held 0%nat 0%nat "test.lock" w []
           eq_refl Sim_free_stale).
Defined.

(** ** The windows build *)

Section WindowsRuns.
Context {W : Type} {WS : WinSys W}.
Variable EINVAL_windows : Z.

(** [createFile] either refuses the name without a system call or makes
    the one call and passes its answer on. *)
Lemma createFile_run name access share mode attrs (s : State W) :
  (String.length name = 0%nat \/ Windows.has_NUL name = true) /\
  Windows.createFile EINVAL_windows name access share mode attrs s
  = (Ret (inr (Errno EINVAL_windows)), s)
  \/
  (String.length name <> 0%nat /\ Windows.has_NUL name = false) /\
  Windows.createFile EINVAL_windows name access share mode attrs s
  = (let (r, w) := sys_CreateFile name access share mode attrs (world s) in
     (Ret match r with inl h => inl h | inr e => inr (Errno e) end,
      mkState w (trace s ++ [EvCreateFile name access share mode attrs r]))).
Proof.
  unfold Windows.createFile.
  destruct (Nat.eqb_spec (String.length name) 0) as [Hlen|Hlen].
  - left. split; [left; exact Hlen|reflexivity].
  - destruct (Windows.has_NUL name) eqn:Hnul.
    + left. split; [right; reflexivity|reflexivity].
    + right. split; [split; [exact Hlen|reflexivity]|].
      unfold bind, request, ret.
      destruct (sys_CreateFile _ _ _ _ _ _) as [[h|e] w]; reflexivity.
Qed.

End WindowsRuns.

(** X8. On windows [Create] refuses an empty path and a path with a
    NUL byte with [EINVAL] before any system call: the state is as it
    was.  The error is permanent.  ([EINVAL] of windows is a value the
    library invents, none of the two system errors [Create] maps.) *)
Theorem Windows_Create_invalid_name :
  forall (W : Type) (WS : WinSys W) (EINVAL_windows : Z) path (s : State W),
    EINVAL_windows <> ERROR_FILE_EXISTS ->
    EINVAL_windows <> ERROR_ACCESS_DENIED ->
    String.length path = 0%nat \/ Windows.has_NUL path = true ->
    Windows.Create EINVAL_windows path s
    = (Ret (None, Some (Errno EINVAL_windows)), s)
    /\ forall GOOS, IsTemporary GOOS (Some (Errno EINVAL_windows)) = false.
Proof.
  intros W WS EINVAL_windows path s Hne1 Hne2 Hbad.
  split; [|reflexivity].
  unfold Windows.Create. unfold bind at 1.
  destruct (createFile_run EINVAL_windows path Windows.GENERIC_READ 0
              Windows.CREATE_NEW
              (Z.lor Windows.FILE_ATTRIBUTE_TEMPORARY
                 Windows.FILE_FLAG_DELETE_ON_CLOSE) s)
    as [[_ ->]|[[Hlen Hnul] _]].
  - destruct (Z.eqb_spec EINVAL_windows ERROR_FILE_EXISTS); [contradiction|].
    destruct (Z.eqb_spec EINVAL_windows ERROR_ACCESS_DENIED);
      [contradiction|].
    reflexivity.
  - destruct Hbad as [Hbad|Hbad]; [contradiction|congruence].
Qed.

Lemma Windows_Create_invalid_name_witness :
  let EINVAL_windows := 0x20000029 in
  let s := mkState Sim_win_locked [] in
  EINVAL_windows <> ERROR_FILE_EXISTS
  /\ EINVAL_windows <> ERROR_ACCESS_DENIED
  /\ (String.length "" = 0%nat \/ Windows.has_NUL "" = true)
  /\ Windows.Create EINVAL_windows "" s
     = (Ret (None, Some (Errno EINVAL_windows)), s)
  /\ forall GOOS, IsTemporary GOOS (Some (Errno EINVAL_windows)) = false.
Proof.
  intros EINVAL_windows s.
  assert (H1 : EINVAL_windows <> ERROR_FILE_EXISTS) by discriminate.
  assert (H2 : EINVAL_windows <> ERROR_ACCESS_DENIED) by discriminate.
  assert (H3 : String.length "" = 0%nat \/ Windows.has_NUL "" = true)
    by (left; reflexivity).
  split; [exact H1|]. split; [exact H2|]. split; [exact H3|].
  exact (Windows_Create_invalid_name Sim.WinFS _ EINVAL_windows "" s
           H1 H2 H3).
Defined.

Lemma list_app_one_neq {A} (l : list A) a : l <> l ++ [a].
Proof.
  intros Heq. apply (f_equal (@length A)) in Heq.
  rewrite length_app in Heq. cbn in Heq. lia.
Qed.

(** The runs of the windows [Create]: the name is refused before any
    system call, or one create-new call is made and its answer decides
    the result. *)
Lemma Windows_Create_cases (W : Type) (WS : WinSys W) (EINVAL_windows : Z)
    path (s s' : State W) f err :
  EINVAL_windows <> ERROR_FILE_EXISTS ->
  EINVAL_windows <> ERROR_ACCESS_DENIED ->
  Windows.Create EINVAL_windows path s = (Ret (f, err), s') ->
  (s' = s /\ f = None /\ err = Some (Errno EINVAL_windows)
   /\ (String.length path = 0%nat \/ Windows.has_NUL path = true))
  \/ exists r,
       s' = mkState
              (snd (sys_CreateFile path Windows.GENERIC_READ 0
                      Windows.CREATE_NEW
                      (Z.lor Windows.FILE_ATTRIBUTE_TEMPORARY
                         Windows.FILE_FLAG_DELETE_ON_CLOSE) (world s)))
              (trace s ++ [EvCreateNew path r])
       /\ r = fst (sys_CreateFile path Windows.GENERIC_READ 0
                     Windows.CREATE_NEW
                     (Z.lor Windows.FILE_ATTRIBUTE_TEMPORARY
                        Windows.FILE_FLAG_DELETE_ON_CLOSE) (world s))
       /\ ((exists h, r = inl h
                      /\ f = Some (Windows.mkFile (Some (os.mkFile h path)))
                      /\ err = None)
           \/ (r = inr ERROR_FILE_EXISTS /\ f = None /\ err = Some ErrExist)
           \/ (r = inr ERROR_ACCESS_DENIED /\ f = None
               /\ err = Some ErrPermission)
           \/ (exists e, r = inr e /\ e <> ERROR_FILE_EXISTS
                         /\ e <> ERROR_ACCESS_DENIED
                         /\ f = None /\ err = Some (Errno e))).
Proof.
  intros Hne1 Hne2 Hrun.
  unfold Windows.Create in Hrun. unfold bind at 1 in Hrun.
  destruct (createFile_run EINVAL_windows path Windows.GENERIC_READ 0
              Windows.CREATE_NEW
              (Z.lor Windows.FILE_ATTRIBUTE_TEMPORARY
                 Windows.FILE_FLAG_DELETE_ON_CLOSE) s)
    as [[Hbad Hcf]|[_ Hcf]]; rewrite Hcf in Hrun; clear Hcf.
  - destruct (Z.eqb_spec EINVAL_windows ERROR_FILE_EXISTS);
      [contradiction|].
    destruct (Z.eqb_spec EINVAL_windows ERROR_ACCESS_DENIED);
      [contradiction|].
    unfold ret in Hrun. injection Hrun as <- <- <-. left. auto.
  - fold (EvCreateNew path) in Hrun. right.
    destruct (sys_CreateFile _ _ _ _ _ _) as [[h|e] w]; cbn [fst snd].
    + unfold ret in Hrun. injection Hrun as <- <- <-.
      eexists. split; [reflexivity|]. split; [reflexivity|]. left. eauto.
    + destruct (Z.eqb_spec e ERROR_FILE_EXISTS) as [->|He1];
        [unfold ret in Hrun; injection Hrun as <- <- <-;
         eexists; split; [reflexivity|]; split; [reflexivity|];
         right; left; auto|].
      destruct (Z.eqb_spec e ERROR_ACCESS_DENIED) as [->|He2];
        [unfold ret in Hrun; injection Hrun as <- <- <-;
         eexists; split; [reflexivity|]; split; [reflexivity|];
         right; right; left; auto|].
      unfold ret in Hrun. injection Hrun as <- <- <-.
      eexists. split; [reflexivity|]. split; [reflexivity|].
      right; right; right.
      exists e. auto.
Qed.

(** X9. On windows [Create] makes at most one system call, a create-new
    with no sharing of a temporary, delete-on-close file: either the
    name is refused and the state is as it was, or the state is the one
    that call leaves and the trace has grown by that one event, whose
    answer decides the result (a handle, [ERROR_FILE_EXISTS],
    [ERROR_ACCESS_DENIED] or another errno, which is returned as it
    is).  It returns [os.ErrExist] exactly when that call failed with
    [ERROR_FILE_EXISTS] and [os.ErrPermission] exactly when it failed
    with [ERROR_ACCESS_DENIED]; its error is temporary on windows in
    these two cases and in no other; it returns a [File] exactly when
    the call answered with a handle, and the [File] wraps that handle. *)
Theorem Windows_Create_result :
  forall (W : Type) (WS : WinSys W) (EINVAL_windows : Z) path
         (s s' : State W) f err,
    EINVAL_windows <> ERROR_FILE_EXISTS ->
    EINVAL_windows <> ERROR_ACCESS_DENIED ->
    Windows.Create EINVAL_windows path s = (Ret (f, err), s') ->
    ((s' = s /\ f = None /\ err = Some (Errno EINVAL_windows)
      /\ (String.length path = 0%nat \/ Windows.has_NUL path = true))
     \/ exists r,
          s' = mkState
                 (snd (sys_CreateFile path Windows.GENERIC_READ 0
                         Windows.CREATE_NEW
                         (Z.lor Windows.FILE_ATTRIBUTE_TEMPORARY
                            Windows.FILE_FLAG_DELETE_ON_CLOSE) (world s)))
                 (trace s ++ [EvCreateNew path r])
          /\ r = fst (sys_CreateFile path Windows.GENERIC_READ 0
                        Windows.CREATE_NEW
                        (Z.lor Windows.FILE_ATTRIBUTE_TEMPORARY
                           Windows.FILE_FLAG_DELETE_ON_CLOSE) (world s))
          /\ ((exists h,
                  r = inl h
                  /\ f = Some (Windows.mkFile (Some (os.mkFile h path)))
                  /\ err = None)
              \/ (r = inr ERROR_FILE_EXISTS /\ f = None
                  /\ err = Some ErrExist)
              \/ (r = inr ERROR_ACCESS_DENIED /\ f = None
                  /\ err = Some ErrPermission)
              \/ (exists e, r = inr e /\ e <> ERROR_FILE_EXISTS
                            /\ e <> ERROR_ACCESS_DENIED
                            /\ f = None /\ err = Some (Errno e))))
    /\ (err = Some ErrExist <->
        trace s' = trace s ++ [EvCreateNew path (inr ERROR_FILE_EXISTS)])
    /\ (err = Some ErrPermission <->
        trace s' = trace s ++ [EvCreateNew path (inr ERROR_ACCESS_DENIED)])
    /\ (IsTemporary "windows" err = true <->
        err = Some ErrExist \/ err = Some ErrPermission)
    /\ (forall h,
          f = Some (Windows.mkFile (Some (os.mkFile h path))) /\ err = None
          <-> trace s' = trace s ++ [EvCreateNew path (inl h)]).
Proof.
  intros W WS EINVAL_windows path s s' f err Hne1 Hne2 Hrun.
  pose proof (Windows_Create_cases W WS EINVAL_windows path s s' f err
                Hne1 Hne2 Hrun) as Hcases.
  split; [exact Hcases|].
  assert (Hone : forall r r', trace s' = trace s ++ [EvCreateNew path r] ->
                   trace s' = trace s ++ [EvCreateNew path r'] -> r = r').
  { intros r r' H1 H2. rewrite H1 in H2. apply app_inv_head in H2.
    injection H2 as ->. reflexivity. }
  destruct Hcases as [(Hs & -> & -> & _)|(r & Hs & _ & Hr)].
  - assert (Hno : forall r, trace s' <> trace s ++ [EvCreateNew path r])
      by (intros r; rewrite Hs; apply list_app_one_neq).
    split; [|split; [|split]].
    + split; [discriminate|]. intros H. destruct (Hno _ H).
    + split; [discriminate|]. intros H. destruct (Hno _ H).
    + split; [discriminate|]. intros [H|H]; discriminate H.
    + intros h. split; [intros [H _]; discriminate H|].
      intros H. destruct (Hno _ H).
  - assert (Htr : trace s' = trace s ++ [EvCreateNew path r])
      by (rewrite Hs; reflexivity).
    clear Hs.
    destruct Hr as [(h & -> & -> & ->)|[(-> & -> & ->)|[(-> & -> & ->)
                    |(e & -> & He1 & He2 & -> & ->)]]].
    + split; [|split; [|split]].
      * split; [discriminate|]. intros H. discriminate (Hone _ _ Htr H).
      * split; [discriminate|]. intros H. discriminate (Hone _ _ Htr H).
      * split; [discriminate|]. intros [H|H]; discriminate H.
      * intros h'. split.
        -- intros [[= ->] _]. exact Htr.
        -- intros H. injection (Hone _ _ Htr H) as ->. auto.
    + split; [|split; [|split]].
      * split; [intros _; exact Htr|reflexivity].
      * split; [discriminate|]. intros H. discriminate (Hone _ _ Htr H).
      * split; [intros _; left; reflexivity|reflexivity].
      * intros h. split; [intros [H _]; discriminate H|].
        intros H. discriminate (Hone _ _ Htr H).
    + split; [|split; [|split]].
      * split; [discriminate|]. intros H. discriminate (Hone _ _ Htr H).
      * split; [intros _; exact Htr|reflexivity].
      * split; [intros _; right; reflexivity|reflexivity].
      * intros h. split; [intros [H _]; discriminate H|].
        intros H. discriminate (Hone _ _ Htr H).
    + split; [|split; [|split]].
      * split; [discriminate|]. intros H.
        injection (Hone _ _ Htr H) as ->. contradiction.
      * split; [discriminate|]. intros H.
        injection (Hone _ _ Htr H) as ->. contradiction.
      * split; [discriminate|]. intros [H|H]; discriminate H.
      * intros h. split; [intros [H _]; discriminate H|].
        intros H. discriminate (Hone _ _ Htr H).
Qed.

Lemma Windows_Create_result_witness :
  let EINVAL_windows := 0x20000029 in
  let run :=
    Windows.Create EINVAL_windows "test.lock" (mkState Sim_win_locked []) in
  EINVAL_windows <> ERROR_FILE_EXISTS
  /\ EINVAL_windows <> ERROR_ACCESS_DENIED
  /\ run = (Ret (None, Some ErrExist), snd run)
  /\ trace (snd run) = [EvCreateNew "test.lock" (inr ERROR_FILE_EXISTS)]
  /\ (Some ErrExist = Some ErrExist <->
      trace (snd run)
      = [] ++ [EvCreateNew "test.lock" (inr ERROR_FILE_EXISTS)])
  /\ (IsTemporary "windows" (Some ErrExist) = true <->
      Some ErrExist = Some ErrExist \/ Some ErrExist = Some ErrPermission).
Proof.
  intros EINVAL_windows run.
  assert (H1 : EINVAL_windows <> ERROR_FILE_EXISTS) by discriminate.
  assert (H2 : EINVAL_windows <> ERROR_ACCESS_DENIED) by discriminate.
  assert (Hrun : run = (Ret (None, Some ErrExist), snd run))
    by (vm_compute; reflexivity).
  pose proof (Windows_Create_result Sim.WinFS _ EINVAL_windows "test.lock"
                _ _ None (Some ErrExist) H1 H2 Hrun) as H.
  split; [exact H1|]. split; [exact H2|]. split; [exact Hrun|].
  split; [vm_compute; reflexivity|].
  split; [exact (proj1 (proj2 H))|exact (proj1 (proj2 (proj2 (proj2 H))))].
Defined.

Section SimWindows.
Import Sim.
Variable EINVAL_windows : Z.

Lemma SimWin_Create_new name (w : WinFS) t :
  String.length name <> 0%nat -> Windows.has_NUL name = false ->
  name ∉ files w ->
  Windows.Create EINVAL_windows name (mkState w t)
  = (Ret (Some (Windows.mkFile (Some (os.mkFile (next_handle w) name))),
          None),
     mkState
       (mkWinFS ({[ name ]} ∪ files w)
          (<[next_handle w := name]> (handles w)) (next_handle w + 1))
       (t ++ [EvCreateNew name (inl (next_handle w))])).
Proof.
  intros Hlen Hnul Hnew.
  unfold Windows.Create, Windows.createFile.
  destruct (Nat.eqb_spec (String.length name) 0); [contradiction|].
  rewrite Hnul. unfold bind, request, ret.
  cbn [sys_CreateFile windows world trace]. unfold CreateFile.
  rewrite decide_False by exact Hnew. reflexivity.
Qed.

Lemma SimWin_Create_existing name (w : WinFS) t :
  String.length name <> 0%nat -> Windows.has_NUL name = false ->
  name ∈ files w ->
  Windows.Create EINVAL_windows name (mkState w t)
  = (Ret (None, Some ErrExist),
     mkState w (t ++ [EvCreateNew name (inr ERROR_FILE_EXISTS)])).
Proof.
  intros Hlen Hnul Hold.
  unfold Windows.Create, Windows.createFile.
  destruct (Nat.eqb_spec (String.length name) 0); [contradiction|].
  rewrite Hnul. unfold bind, request, ret.
  cbn [sys_CreateFile windows world trace]. unfold CreateFile.
  rewrite decide_True by exact Hold. reflexivity.
Qed.

End SimWindows.

(** X10. The windows build on the simulated name space.  A name that
    exists is refused with [os.ErrExist] whether or not any handle is
    open on it, and the name space is left as it was.  On a name that
    does not exist [Create] succeeds; until the [File] is closed another
    [Create] of the name is refused with [os.ErrExist]; [Close] returns
    nil and, the file being deleted on close, the files and the handles
    are as they were before the first [Create]. *)
Theorem SimWin_Create_Close_round_trip :
  forall (EINVAL_windows : Z) name (w : Sim.WinFS) t,
    String.length name <> 0%nat -> Windows.has_NUL name = false ->
    (name ∈ Sim.files w ->
     exists s1,
       Windows.Create EINVAL_windows name (mkState w t)
       = (Ret (None, Some ErrExist), s1)
       /\ world s1 = w)
    /\ (name ∉ Sim.files w ->
        Sim.handles w !! Sim.next_handle w = None ->
        exists file s1 s2 s3,
          Windows.Create EINVAL_windows name (mkState w t)
          = (Ret (Some file, None), s1)
          /\ Windows.Create EINVAL_windows name s1
             = (Ret (None, Some ErrExist), s2)
          /\ Windows.Close file s2 = (Ret (None, Windows.mkFile None), s3)
          /\ Sim.files (world s3) = Sim.files w
          /\ Sim.handles (world s3) = Sim.handles w).
Proof.
  intros EINVAL_windows name w t Hlen Hnul. split.
  - intros Hold. eexists. split.
    + apply SimWin_Create_existing; assumption.
    + reflexivity.
  - intros Hnew Hfresh.
    eexists _, _, _, _. split; [|split; [|split; [|split]]].
    + apply SimWin_Create_new; assumption.
    + apply SimWin_Create_existing; [assumption|assumption|].
      cbn [Sim.files]. apply elem_of_union_l, elem_of_singleton_2.
      reflexivity.
    + unfold Windows.Close. cbn [Windows.file].
      unfold Windows.File_Close, bind, request, ret.
      cbn [sys_CloseHandle Sim.windows world trace os.fd].
      unfold Sim.CloseHandle. cbn [Sim.handles].
      rewrite lookup_insert_eq. reflexivity.
    + cbn [world Sim.files]. apply set_eq. intros x.
      rewrite elem_of_difference, elem_of_union, elem_of_singleton.
      split; [intros [[->|Hx] Hne]; [contradiction|exact Hx]|].
      intros Hx. split; [right; exact Hx|]. intros ->. contradiction.
    + cbn [world Sim.handles]. apply delete_insert_id. exact Hfresh.
Qed.

Lemma SimWin_Create_Close_round_trip_witness :
  let w := Sim.mkWinFS ∅ ∅ 7 in
  String.length "test.lock" <> 0%nat
  /\ Windows.has_NUL "test.lock" = false
  /\ (("test.lock" ∈ Sim.files Sim_win_locked)
      /\ exists s1,
           Windows.Create 0x20000029 "test.lock" (mkState Sim_win_locked [])
           = (Ret (None, Some ErrExist), s1)
           /\ world s1 = Sim_win_locked)
  /\ (("test.lock" ∉ Sim.files w)
      /\ Sim.handles w !! Sim.next_handle w = None
      /\ exists file s1 s2 s3,
           Windows.Create 0x20000029 "test.lock" (mkState w [])
           = (Ret (Some file, None), s1)
           /\ Windows.Create 0x20000029 "test.lock" s1
              = (Ret (None, Some ErrExist), s2)
           /\ Windows.Close file s2 = (Ret (None, Windows.mkFile None), s3)
           /\ Sim.files (world s3) = Sim.files w
           /\ Sim.handles (world s3) = Sim.handles w).
Proof.
  intros w.
  assert (Hlen : String.length "test.lock" <> 0%nat) by discriminate.
  assert (Hnul : Windows.has_NUL "test.lock" = false) by reflexivity.
  assert (Hold : "test.lock" ∈ Sim.files Sim_win_locked)
    by (refine (bool_decide_eq_true_1 _ _); vm_compute; reflexivity).
  assert (Hnew : "test.lock" ∉ Sim.files w)
    by (refine (bool_decide_eq_false_1 _ _); vm_compute; reflexivity).
  assert (Hfresh : Sim.handles w !! Sim.next_handle w = None)
    by reflexivity.
  split; [exact Hlen|]. split; [exact Hnul|]. split.
  - split; [exact Hold|].
    exact (proj1 (SimWin_Create_Close_round_trip 0x20000029 "test.lock"
                    Sim_win_locked [] Hlen Hnul) Hold).
  - split; [exact Hnew|]. split; [exact Hfresh|].
    exact (proj2 (SimWin_Create_Close_round_trip 0x20000029 "test.lock"
                    w [] Hlen Hnul) Hnew Hfresh).
Defined.

(** ** [WaitCtx]: the shape of its runs *)

Lemma quiet_app evs evs' : quiet evs -> quiet evs' -> quiet (evs ++ evs').
Proof.
  unfold quiet. intros H1 H2. rewrite List.filter_app, H1, H2. reflexivity.
Qed.

Lemma quiet_not_In evs ev : quiet evs -> is_wait_event ev = true -> ~ In ev evs.
Proof.
  unfold quiet. intros Hq Hev Hin.
  assert (Hf : In ev (List.filter is_wait_event evs))
    by (apply List.filter_In; split; assumption).
  rewrite Hq in Hf. destruct Hf.
Qed.

Lemma quiet_draws evs : quiet evs -> draws_of evs = [].
Proof.
  unfold quiet. induction evs as [|ev evs IH]; [reflexivity|].
  cbn [List.filter]. destruct ev; cbn [is_wait_event];
    try discriminate; intros Hq; cbn [draws_of flat_map app];
    apply IH; exact Hq.
Qed.

Lemma quiet_timers evs : quiet evs -> timers_of evs = [].
Proof.
  unfold quiet. induction evs as [|ev evs IH]; [reflexivity|].
  cbn [List.filter]. destruct ev; cbn [is_wait_event];
    try discriminate; intros Hq; cbn [timers_of flat_map app];
    apply IH; exact Hq.
Qed.

(** The events of [Create] are quiet on both builds. *)
Lemma Create_run_quiet path evs o :
  Create_run path evs o -> quiet evs /\ forall msg, o <> Panic msg.
Proof.
  induction 1 as [|e|fd e c|fd e c|fd st Hsz|fd st Hsz Hl
                  |fd st c evs o Hsz Hl Hrun [IHq IHo]];
    try (split; [reflexivity|discriminate]).
  split; [|exact IHo]. apply quiet_app; [reflexivity|exact IHq].
Qed.

Section WaitShape.
Context {W : Type} {RT : Runtime W}.
Variable GOOS : string.
Variable File : Type.
Variable Create : string -> M W (option File * option error).
Hypothesis Create_quiet :
  forall path (s s' : State W) o,
    Create path s = (o, s') ->
    (forall msg, o <> Panic msg)
    /\ exists evs, trace s' = trace s ++ evs /\ quiet evs.

(** A draw for an attempt that is not negative. *)
Lemma randomBackoff_run a (s : State W) :
  0 <= a ->
  exists d w,
    randomBackoff a s
    = (Ret (time.Millisecond * d),
       mkState w (trace s ++ [EvIntN (backoff_bound a) d]))
    /\ 0 <= d < backoff_bound a.
Proof.
  intros Ha. unfold randomBackoff. rewrite (backoff_bound_eq a Ha).
  fold (backoff_bound a).
  assert (Hb : 10 <= backoff_bound a <= 1000)
    by (unfold backoff_bound; lia).
  pose proof (rt_IntN_range (backoff_bound a) (world s) ltac:(lia)) as Hd.
  unfold rand_IntN, bind, request, ret.
  destruct (Z.leb_spec (backoff_bound a) 0) as [|_]; [lia|].
  destruct (rt_IntN (backoff_bound a) (world s)) as [d w] eqn:Hdraw.
  cbn [fst] in Hd. exists d, w. split; [|exact Hd].
  rewrite wrap64_small
    by (unfold time.Millisecond, min_int64, max_int64; lia).
  reflexivity.
Qed.

(** Every run of the loop follows [Loop_run]. *)
Lemma WaitCtx_loop_sound fuel path :
  forall a (s s' : State W) o,
    0 <= a -> a + Z.of_nat fuel <= max_int64 ->
    WaitCtx_loop GOOS File Create fuel path a s = (o, s') ->
    exists evs, trace s' = trace s ++ evs /\ Loop_run GOOS a evs o.
Proof.
  induction fuel as [|fuel IH]; intros a s s' o Ha Hmax Hrun.
  - injection Hrun as <- <-. exists []. rewrite app_nil_r.
    split; [reflexivity|constructor].
  - cbn [WaitCtx_loop] in Hrun.
    unfold select_Done_or_timer in Hrun.
    unfold bind at 1 in Hrun. unfold request in Hrun.
    destruct (rt_select (world s)) as [[why|] w1].
    { unfold ret in Hrun. injection Hrun as <- <-. eexists.
      split; [reflexivity|constructor]. }
    unfold bind at 1 in Hrun.
    destruct (Create path _) as [o1 s2] eqn:Hcreate.
    apply Create_quiet in Hcreate as (Hnp & cevs & Htr2 & Hq).
    cbn [trace] in Htr2.
    destruct o1 as [[file [e|]]|msg|].
    + destruct (IsTemporary GOOS (Some e)) eqn:Htemp; cbn [negb] in Hrun.
      * rewrite wrap64_small in Hrun
          by (unfold min_int64, max_int64 in *; lia).
        destruct (randomBackoff_run (a + 1) s2 ltac:(lia))
          as (d & w3 & Hdraw & Hd).
        unfold bind at 1 in Hrun. rewrite Hdraw in Hrun.
        unfold bind at 1 in Hrun. unfold timer_Reset at 1 in Hrun.
        cbn [world trace] in Hrun.
        apply IH in Hrun as (evs & Htr & Hevs); [|lia|lia].
        cbn [trace] in Htr. rewrite Htr, Htr2.
        eexists. split; [|apply (LR_again GOOS a cevs d evs o Hq Hd Hevs)].
        rewrite <- !app_assoc. reflexivity.
      * unfold ret in Hrun. injection Hrun as <- <-. rewrite Htr2.
        eexists. split; [|apply (LR_permanent GOOS a cevs e Hq Htemp)].
        rewrite <- !app_assoc. reflexivity.
    + unfold ret in Hrun. injection Hrun as <- <-. rewrite Htr2.
      eexists. split; [|apply (LR_acquired GOOS a cevs file Hq)].
      rewrite <- !app_assoc. reflexivity.
    + destruct (Hnp msg). reflexivity.
    + injection Hrun as <- <-. rewrite Htr2.
      eexists. split; [|apply (LR_create_out_of_fuel GOOS a cevs Hq)].
      rewrite <- !app_assoc. reflexivity.
Qed.

End WaitShape.

Lemma Posix_Create_quiet {W : Type} {PS : PosixSys W} fuel :
  forall path (s s' : State W) o,
    Posix.Create fuel path s = (o, s') ->
    (forall msg, o <> Panic msg)
    /\ exists evs, trace s' = trace s ++ evs /\ quiet evs.
Proof.
  intros path s s' o Hrun.
  apply Create_sound in Hrun as (evs & Htr & Hevs).
  apply Create_run_quiet in Hevs as [Hq Ho].
  split; [exact Ho|]. exists evs. split; assumption.
Qed.

(** The windows [Create] is quiet as well and does not panic. *)
Lemma Windows_Create_quiet {W : Type} {WS : WinSys W} (EINVAL_windows : Z) :
  forall path (s s' : State W) o,
    Windows.Create EINVAL_windows path s = (o, s') ->
    (forall msg, o <> Panic msg)
    /\ exists evs, trace s' = trace s ++ evs /\ quiet evs.
Proof.
  intros path s s' o Hrun.
  unfold Windows.Create in Hrun. unfold bind at 1 in Hrun.
  destruct (createFile_run EINVAL_windows path Windows.GENERIC_READ 0
              Windows.CREATE_NEW
              (Z.lor Windows.FILE_ATTRIBUTE_TEMPORARY
                 Windows.FILE_FLAG_DELETE_ON_CLOSE) s)
    as [[_ Hcf]|[_ Hcf]]; rewrite Hcf in Hrun; clear Hcf.
  - destruct (EINVAL_windows =? ERROR_FILE_EXISTS);
      [|destruct (EINVAL_windows =? ERROR_ACCESS_DENIED)];
      unfold ret in Hrun; injection Hrun as <- <-;
      (split; [discriminate|]); exists []; rewrite app_nil_r;
      split; reflexivity.
  - destruct (sys_CreateFile _ _ _ _ _ _) as [[h|e] w].
    + unfold ret in Hrun. injection Hrun as <- <-.
      split; [discriminate|]. eexists. split; reflexivity.
    + destruct (e =? ERROR_FILE_EXISTS);
        [|destruct (e =? ERROR_ACCESS_DENIED)];
        unfold ret in Hrun; injection Hrun as <- <-;
        (split; [discriminate|]); eexists; split; reflexivity.
Qed.

Lemma bounds_from_S a k :
  bounds_from a (S k) = backoff_bound a :: bounds_from (a + 1) k.
Proof.
  unfold bounds_from. cbn [seq map]. rewrite Z.add_0_r. f_equal.
  rewrite <- seq_shift, map_map. apply map_ext. intros i.
  f_equal. lia.
Qed.

Lemma draws_of_app evs evs' :
  draws_of (evs ++ evs') = draws_of evs ++ draws_of evs'.
Proof. apply flat_map_app. Qed.

Lemma timers_of_app evs evs' :
  timers_of (evs ++ evs') = timers_of evs ++ timers_of evs'.
Proof. apply flat_map_app. Qed.

(** The draws and the timers of a run of the loop. *)
Lemma Loop_run_schedule {File : Type} GOOS a evs
    (o : outcome (option File * option error)) :
  Loop_run GOOS a evs o ->
  (forall msg, o <> Panic msg)
  /\ (exists k, map fst (draws_of evs) = bounds_from (a + 1) k)
  /\ Forall (fun nd => 0 <= snd nd < fst nd) (draws_of evs)
  /\ timers_of evs = map (fun nd => time.Millisecond * snd nd) (draws_of evs).
Proof.
  induction 1 as [a|a why|a cevs file Hq|a cevs e Hq Htemp|a cevs Hq
                  |a cevs d evs o Hq Hd Hrun (IHo & [k IHk] & IHf & IHt)].
  - split; [discriminate|]. split; [exists 0%nat; reflexivity|].
    split; [constructor|reflexivity].
  - split; [discriminate|]. split; [exists 0%nat; reflexivity|].
    split; [constructor|reflexivity].
  - change (EvSelect SelTimer :: cevs) with ([EvSelect SelTimer] ++ cevs).
    rewrite draws_of_app, timers_of_app, (quiet_draws _ Hq),
      (quiet_timers _ Hq).
    split; [discriminate|]. split; [exists 0%nat; reflexivity|].
    split; [constructor|reflexivity].
  - change (EvSelect SelTimer :: cevs) with ([EvSelect SelTimer] ++ cevs).
    rewrite draws_of_app, timers_of_app, (quiet_draws _ Hq),
      (quiet_timers _ Hq).
    split; [discriminate|]. split; [exists 0%nat; reflexivity|].
    split; [constructor|reflexivity].
  - change (EvSelect SelTimer :: cevs) with ([EvSelect SelTimer] ++ cevs).
    rewrite draws_of_app, timers_of_app, (quiet_draws _ Hq),
      (quiet_timers _ Hq).
    split; [discriminate|]. split; [exists 0%nat; reflexivity|].
    split; [constructor|reflexivity].
  - change (EvSelect SelTimer :: cevs ++ ?l)
      with ([EvSelect SelTimer] ++ cevs ++ l).
    rewrite !draws_of_app, !timers_of_app, (quiet_draws _ Hq),
      (quiet_timers _ Hq).
    cbn [draws_of timers_of flat_map app map fst snd].
    split; [exact IHo|]. split; [|split].
    + exists (S k). rewrite bounds_from_S, IHk. reflexivity.
    + constructor; [exact Hd|exact IHf].
    + rewrite IHt. reflexivity.
Qed.

(** X11. The backoff schedule of [WaitCtx], on either build.  In a run
    of [WaitCtx] the i-th draw asks for a number below
    [(min i 99 + 1) * 10] (10, 20, 30, ... up to 1000), the answer is in
    that range, and each time the timer is armed or reset it is with
    exactly the number of milliseconds just drawn.  The attempt counter
    does not overflow, so [rand.IntN] never panics. *)
Theorem WaitCtx_backoff_schedule :
  forall (W : Type) (RT : Runtime W) (GOOS : string) (File : Type)
         (Create : string -> M W (option File * option error))
         (fuel : nat) (path : string) (s s' : State W) o,
    (forall p (s1 s2 : State W) o1,
        Create p s1 = (o1, s2) ->
        (forall msg, o1 <> Panic msg)
        /\ exists evs, trace s2 = trace s1 ++ evs /\ quiet evs) ->
    Z.of_nat fuel <= max_int64 ->
    WaitCtx GOOS File Create fuel path s = (o, s') ->
    (forall msg, o <> Panic msg)
    /\ exists evs,
         trace s' = trace s ++ evs
         /\ (exists k, map fst (draws_of evs) = bounds_from 0 k)
         /\ Forall (fun nd => 0 <= snd nd < fst nd) (draws_of evs)
         /\ timers_of evs
            = map (fun nd => time.Millisecond * snd nd) (draws_of evs).
Proof.
  intros W RT GOOS File Create fuel path s s' o Hquiet Hfuel Hrun.
  unfold WaitCtx in Hrun. unfold bind at 1 in Hrun.
  destruct (Create path s) as [o1 s1] eqn:Hcreate.
  apply Hquiet in Hcreate as (Hnp & cevs & Htr1 & Hq).
  assert (Hnone : draws_of cevs = [] /\ timers_of cevs = [])
    by (split; [apply quiet_draws|apply quiet_timers]; exact Hq).
  destruct Hnone as [Hd0 Ht0].
  destruct o1 as [[file [e|]]|msg|].
  - destruct (IsTemporary GOOS (Some e)); cbn [negb] in Hrun.
    + destruct (randomBackoff_run 0 s1 ltac:(lia)) as (d & w2 & Hdraw & Hd).
      unfold bind at 1 in Hrun. rewrite Hdraw in Hrun.
      unfold bind at 1 in Hrun. unfold time_NewTimer at 1 in Hrun.
      cbn [world trace] in Hrun.
      apply (WaitCtx_loop_sound GOOS File Create Hquiet) in Hrun
        as (evs & Htr & Hevs); [|lia|lia].
      cbn [trace] in Htr.
      apply Loop_run_schedule in Hevs as (Ho & [k Hk] & Hf & Ht).
      split; [exact Ho|].
      exists (cevs ++ [EvIntN (backoff_bound 0) d;
                       EvNewTimer (time.Millisecond * d)] ++ evs).
      split; [rewrite Htr, Htr1, <- !app_assoc; reflexivity|].
      rewrite !draws_of_app, !timers_of_app, Hd0, Ht0.
      cbn [draws_of timers_of flat_map app map fst snd].
      split; [|split].
      * exists (S k). rewrite bounds_from_S, Hk. reflexivity.
      * constructor; [exact Hd|exact Hf].
      * rewrite Ht. reflexivity.
    + unfold ret in Hrun. injection Hrun as <- <-.
      split; [discriminate|]. exists cevs. split; [exact Htr1|].
      rewrite Hd0, Ht0. split; [exists 0%nat; reflexivity|].
      split; [constructor|reflexivity].
  - unfold ret in Hrun. injection Hrun as <- <-.
    split; [discriminate|]. exists cevs. split; [exact Htr1|].
    rewrite Hd0, Ht0. split; [exists 0%nat; reflexivity|].
    split; [constructor|reflexivity].
  - destruct (Hnp msg). reflexivity.
  - injection Hrun as <- <-.
    split; [discriminate|]. exists cevs. split; [exact Htr1|].
    rewrite Hd0, Ht0. split; [exists 0%nat; reflexivity|].
    split; [constructor|reflexivity].
Qed.

Lemma WaitCtx_backoff_schedule_witness :
  let s := Sim.start (Sim_contended [SelTimer; SelDone CtxCanceled]) in
  let run := WaitCtx "linux" Posix.File (Posix.Create 1) 4%nat "test.lock" s in
  Z.of_nat 4 <= max_int64
  /\ run = (fst run, snd run)
  /\ draws_of (trace (snd run)) = [(10, 7); (20, 15)]
  /\ timers_of (trace (snd run)) = [7000000; 15000000]
  /\ (forall msg, fst run <> Panic msg)
  /\ exists evs,
       trace (snd run) = [] ++ evs
       /\ (exists k, map fst (draws_of evs) = bounds_from 0 k)
       /\ Forall (fun nd => 0 <= snd nd < fst nd) (draws_of evs)
       /\ timers_of evs
          = map (fun nd => time.Millisecond * snd nd) (draws_of evs).
Proof.
  intros s run.
  assert (Hfuel : Z.of_nat 4 <= max_int64) by (vm_compute; discriminate).
  assert (Hrun : run = (fst run, snd run)) by (vm_compute; reflexivity).
  split; [exact Hfuel|]. split; [exact Hrun|].
  split; [vm_compute; reflexivity|]. split; [vm_compute; reflexivity|].
  exact (WaitCtx_backoff_schedule Sim.FS _ "linux" Posix.File
           (Posix.Create 1) 4%nat "test.lock" s (snd run) (fst run)
           (Posix_Create_quiet 1) Hfuel Hrun).
Defined.

(** Where an element that is not in [l1] sits in [l1 ++ l2]. *)
Lemma app_split_not_in {A} (x : A) (l1 l2 pre post : list A) :
  l1 ++ l2 = pre ++ x :: post -> ~ In x l1 ->
  exists pre', pre = l1 ++ pre' /\ l2 = pre' ++ x :: post.
Proof.
  revert pre. induction l1 as [|a l1 IH]; intros pre Heq Hnin.
  - exists pre. split; [reflexivity|exact Heq].
  - destruct pre as [|b pre].
    + injection Heq as -> _. contradiction Hnin. left. reflexivity.
    + injection Heq as -> Heq.
      destruct (IH pre Heq) as (pre' & -> & ->).
      * intros Hin. apply Hnin. right. exact Hin.
      * exists pre'. split; reflexivity.
Qed.

(** An answer [Done] of the [select] ends the loop: wherever it stands
    in the events of the loop, nothing follows it. *)
Lemma Loop_run_Done_last {File : Type} GOOS a evs
    (o : outcome (option File * option error)) :
  Loop_run GOOS a evs o ->
  forall pre why post,
    evs = pre ++ EvSelect (SelDone why) :: post ->
    post = [] /\ o = Ret (None, Some (ctx_Err why)).
Proof.
  assert (Hcevs : forall cevs why,
             quiet cevs ->
             ~ In (EvSelect (SelDone why)) (EvSelect SelTimer :: cevs)).
  { intros cevs why Hq [Hin|Hin]; [discriminate Hin|].
    apply (quiet_not_In cevs _ Hq) in Hin; [exact Hin|reflexivity]. }
  assert (Hround : forall cevs why pre post,
             quiet cevs ->
             EvSelect SelTimer :: cevs
             <> pre ++ EvSelect (SelDone why) :: post).
  { intros cevs why pre post Hq Heq.
    apply (Hcevs cevs why Hq). rewrite Heq. apply in_elt. }
  induction 1 as [a|a why0|a cevs file Hq|a cevs e Hq Htemp|a cevs Hq
                  |a cevs d evs o Hq Hd Hrun IH];
    intros pre why post Heq.
  - destruct pre; discriminate Heq.
  - destruct pre as [|ev pre].
    + injection Heq as <- <-. split; reflexivity.
    + injection Heq as _ Heq. destruct pre; discriminate Heq.
  - destruct (Hround cevs why pre post Hq Heq).
  - destruct (Hround cevs why pre post Hq Heq).
  - destruct (Hround cevs why pre post Hq Heq).
  - change (EvSelect SelTimer :: cevs ++ ?l ++ evs)
      with ((EvSelect SelTimer :: cevs) ++ l ++ evs) in Heq.
    rewrite app_assoc in Heq.
    apply app_split_not_in in Heq as (pre' & _ & Heq).
    + exact (IH pre' why post Heq).
    + intros Hin. apply in_app_or in Hin as [Hin|Hin].
      * exact (Hcevs cevs why Hq Hin).
      * destruct Hin as [Hin|[Hin|[]]]; discriminate Hin.
Qed.

(** X12. Once the [select] of [WaitCtx] has answered that the context
    is done, nothing more happens: wherever such an answer stands in
    the events of the run, it is the last one (no call of [Create], no
    draw, no timer and no other [select] follows it), and the result is
    the error of the context the answer named. *)
Theorem WaitCtx_Done_is_last :
  forall (W : Type) (RT : Runtime W) (GOOS : string) (File : Type)
         (Create : string -> M W (option File * option error))
         (fuel : nat) (path : string) (s s' : State W) o,
    (forall p (s1 s2 : State W) o1,
        Create p s1 = (o1, s2) ->
        (forall msg, o1 <> Panic msg)
        /\ exists evs, trace s2 = trace s1 ++ evs /\ quiet evs) ->
    Z.of_nat fuel <= max_int64 ->
    WaitCtx GOOS File Create fuel path s = (o, s') ->
    exists evs,
      trace s' = trace s ++ evs
      /\ (forall pre why post,
            evs = pre ++ EvSelect (SelDone why) :: post ->
            post = [] /\ o = Ret (None, Some (ctx_Err why)))
      /\ (forall why,
            In (EvSelect (SelDone why)) evs ->
            o = Ret (None, Some (ctx_Err why))
            /\ exists pre, evs = pre ++ [EvSelect (SelDone why)]).
Proof.
  intros W RT GOOS File Create fuel path s s' o Hquiet Hfuel Hrun.
  assert (Hsplit : exists evs,
             trace s' = trace s ++ evs
             /\ forall pre why post,
                  evs = pre ++ EvSelect (SelDone why) :: post ->
                  post = [] /\ o = Ret (None, Some (ctx_Err why))).
  { unfold WaitCtx in Hrun. unfold bind at 1 in Hrun.
    destruct (Create path s) as [o1 s1] eqn:Hcreate.
    apply Hquiet in Hcreate as (Hnp & cevs & Htr1 & Hq).
    assert (Hno : forall why, ~ In (EvSelect (SelDone why)) cevs)
      by (intros why; apply quiet_not_In; [exact Hq|reflexivity]).
    assert (Hearly : forall o0 : outcome (option File * option error),
               exists evs,
                 trace s1 = trace s ++ evs
                 /\ forall pre why post,
                      evs = pre ++ EvSelect (SelDone why) :: post ->
                      post = [] /\ o0 = Ret (None, Some (ctx_Err why))).
    { intros o0. exists cevs. split; [exact Htr1|].
      intros pre why post Heq. destruct (Hno why).
      rewrite Heq. apply in_elt. }
    destruct o1 as [[file [e|]]|msg|].
    - destruct (IsTemporary GOOS (Some e)); cbn [negb] in Hrun.
      + destruct (randomBackoff_run 0 s1 ltac:(lia))
          as (d & w2 & Hdraw & Hd).
        unfold bind at 1 in Hrun. rewrite Hdraw in Hrun.
        unfold bind at 1 in Hrun. unfold time_NewTimer at 1 in Hrun.
        cbn [world trace] in Hrun.
        apply (WaitCtx_loop_sound GOOS File Create Hquiet) in Hrun
          as (evs & Htr & Hevs); [|lia|lia].
        cbn [trace] in Htr.
        exists (cevs ++ [EvIntN (backoff_bound 0) d;
                         EvNewTimer (time.Millisecond * d)] ++ evs).
        split; [rewrite Htr, Htr1, <- !app_assoc; reflexivity|].
        intros pre why post Heq.
        rewrite app_assoc in Heq.
        apply app_split_not_in in Heq as (pre' & _ & Heq).
        * exact (Loop_run_Done_last GOOS 0 evs o Hevs pre' why post Heq).
        * intros Hin. apply in_app_or in Hin as [Hin|Hin].
          -- exact (Hno why Hin).
          -- destruct Hin as [Hin|[Hin|[]]]; discriminate Hin.
      + unfold ret in Hrun. injection Hrun as <- <-. apply Hearly.
    - unfold ret in Hrun. injection Hrun as <- <-. apply Hearly.
    - destruct (Hnp msg). reflexivity.
    - injection Hrun as <- <-. apply Hearly. }
  destruct Hsplit as (evs & Htr & Hlast).
  exists evs. split; [exact Htr|]. split; [exact Hlast|].
  intros why Hin. apply in_split in Hin as (pre & post & Heq).
  destruct (Hlast pre why post Heq) as [-> Ho].
  split; [exact Ho|]. exists pre. exact Heq.
Qed.

Lemma WaitCtx_Done_is_last_witness :
  let s := Sim.start (Sim_contended [SelTimer; SelDone CtxCanceled]) in
  let run := WaitCtx "linux" Posix.File (Posix.Create 1) 4%nat "test.lock" s in
  Z.of_nat 4 <= max_int64
  /\ run = (Ret (None, Some Canceled), snd run)
  /\ (exists pre, trace (snd run) = pre ++ [EvSelect (SelDone CtxCanceled)])
  /\ exists evs,
       trace (snd run) = [] ++ evs
       /\ (forall pre why post,
             evs = pre ++ EvSelect (SelDone why) :: post ->
             post = []
             /\ Ret (@None Posix.File, Some Canceled)
                = Ret (None, Some (ctx_Err why)))
       /\ (forall why,
             In (EvSelect (SelDone why)) evs ->
             Ret (@None Posix.File, Some Canceled)
             = Ret (None, Some (ctx_Err why))
             /\ exists pre, evs = pre ++ [EvSelect (SelDone why)]).
Proof.
  intros s run.
  assert (Hfuel : Z.of_nat 4 <= max_int64) by (vm_compute; discriminate).
  assert (Hrun : run = (Ret (None, Some Canceled), snd run))
    by (vm_compute; reflexivity).
  split; [exact Hfuel|]. split; [exact Hrun|].
  split; [exists (removelast (trace (snd run))); vm_compute; reflexivity|].
  exact (WaitCtx_Done_is_last Sim.FS _ "linux" Posix.File
           (Posix.Create 1) 4%nat "test.lock" s (snd run) _
           (Posix_Create_quiet 1) Hfuel Hrun).
Defined.

(** ** Waiting for a lock that is never released *)

Section SimContention.
Import Sim.

Lemma Sim_Create_other fuel path w t :
  Sim_held_by_other path w ->
  exists w1 evs,
    Posix.Create (S fuel) path (mkState w t)
    = (Ret (None, Some ErrExist), mkState w1 (t ++ evs))
    /\ Sim_held_by_other path w1
    /\ selects w1 = selects w.
Proof.
  intros (Hf & ino & i & Hd & Hi & Hl).
  pose proof (Sim_open_existing path os.O_CREATE 256 w ino Hf Hd) as Ho.
  set (w1 := with_files w (dir w) (inodes w) (<[next_fd w := ino]> (fds w))
               (next_fd w + 1) (next_ino w)) in Ho.
  assert (Hfd1 : fds w1 !! next_fd w = Some ino) by apply lookup_insert_eq.
  assert (Hne : Other <> Self (next_fd w)) by discriminate.
  pose proof (Sim_flock_held (next_fd w) LOCK_EX_NB w1 ino i Other Hf
                Hfd1 Hi Hl Hne) as Hlock.
  pose proof (Sim_close_open (next_fd w) w1 ino Hf Hfd1) as Hclose.
  eexists _, [EvOpen path os.O_CREATE 256 (inl (next_fd w));
              EvFlock (next_fd w) LOCK_EX_NB (Some EWOULDBLOCK);
              EvClose (next_fd w) None].
  split; [|split].
  - cbn [Posix.Create].
    unfold os.OpenFile, syscall.Flock, os.File_Close, bind, request, ret.
    fold LOCK_EX_NB.
    cbn [sys_open sys_flock sys_close posix world trace].
    rewrite Ho. cbn [os.fd world trace option_map].
    rewrite Hlock. cbn [os.fd world trace option_map].
    rewrite Hclose. cbn [world trace]. rewrite <- !app_assoc. reflexivity.
  - split; [exact Hf|]. exists ino, i. split; [exact Hd|].
    split; [|exact Hl].
    cbn [w1 with_files inodes]. rewrite lookup_alter_eq, Hi.
    cbn. unfold unlock_of. rewrite Hl. reflexivity.
  - reflexivity.
Qed.

Lemma Sim_IntN_other path n w :
  Sim_held_by_other path w ->
  Sim_held_by_other path (snd (IntN n w))
  /\ selects (snd (IntN n w)) = selects w.
Proof.
  intros H. unfold IntN. destruct (draws w); cbn [snd]; split;
    first [exact H|reflexivity].
Qed.

Lemma Sim_select_other path w :
  Sim_held_by_other path w ->
  Sim_held_by_other path (snd (select w)).
Proof.
  intros H. unfold select. destruct (selects w); cbn [snd]; exact H.
Qed.

End SimContention.

Lemma randomBackoff_eq {W : Type} {RT : Runtime W} a (s : State W) :
  0 <= a ->
  randomBackoff a s
  = (Ret (time.Millisecond * fst (rt_IntN (backoff_bound a) (world s))),
     mkState (snd (rt_IntN (backoff_bound a) (world s)))
       (trace s ++ [EvIntN (backoff_bound a)
                      (fst (rt_IntN (backoff_bound a) (world s)))])).
Proof.
  intros Ha. unfold randomBackoff. rewrite (backoff_bound_eq a Ha).
  fold (backoff_bound a).
  assert (Hb : 10 <= backoff_bound a <= 1000)
    by (unfold backoff_bound; lia).
  pose proof (rt_IntN_range (backoff_bound a) (world s) ltac:(lia)) as Hd.
  unfold rand_IntN, bind, request, ret.
  destruct (Z.leb_spec (backoff_bound a) 0) as [|_]; [lia|].
  destruct (rt_IntN (backoff_bound a) (world s)) as [d w] eqn:Hdraw.
  cbn [fst snd] in *.
  rewrite wrap64_small
    by (unfold time.Millisecond, min_int64, max_int64; lia).
  reflexivity.
Qed.

Lemma Sim_loop_other GOOS cfuel fuel path :
  forall a (w : Sim.FS) t o s',
    Sim_held_by_other path w ->
    0 <= a -> a + Z.of_nat fuel <= max_int64 ->
    WaitCtx_loop GOOS Posix.File (Posix.Create (S cfuel)) fuel path a
      (mkState w t) = (o, s') ->
    Sim_held_by_other path (world s')
    /\ ((exists why, o = Ret (None, Some (ctx_Err why)))
        \/ (o = OutOfFuel /\ (fuel <= length (Sim.selects w))%nat)).
Proof.
  induction fuel as [|fuel IH]; intros a w t o s' Hheld Ha Hmax Hrun.
  - injection Hrun as <- <-. split; [exact Hheld|].
    right. split; [reflexivity|lia].
  - cbn [WaitCtx_loop] in Hrun. unfold select_Done_or_timer in Hrun.
    unfold bind at 1 in Hrun. unfold request in Hrun.
    cbn [world trace rt_select Sim.runtime] in Hrun.
    pose proof (Sim_select_other path w Hheld) as Hheld1.
    unfold Sim.select in Hrun, Hheld1.
    destruct (Sim.selects w) as [|[why|] xs] eqn:Hsel;
      cbn [snd] in Hheld1.
    + unfold ret in Hrun. injection Hrun as <- <-.
      split; [exact Hheld|]. left. exists CtxDeadlineExceeded. reflexivity.
    + unfold ret in Hrun. injection Hrun as <- <-.
      split; [exact Hheld1|]. left. exists why. reflexivity.
    + unfold bind at 1 in Hrun.
      match type of Hrun with
      | context [Posix.Create (S cfuel) path (mkState ?w1 ?t1)] =>
          destruct (Sim_Create_other cfuel path w1 t1 Hheld1)
            as (w2 & evs & Hcreate & Hheld2 & Hsel2)
      end.
      rewrite Hcreate in Hrun. cbn [Sim.selects] in Hsel2.
      replace (IsTemporary GOOS (Some ErrExist)) with true in Hrun
        by reflexivity.
      cbn [negb] in Hrun.
      rewrite wrap64_small in Hrun
        by (unfold min_int64, max_int64 in *; lia).
      unfold bind at 1 in Hrun.
      rewrite (randomBackoff_eq (a + 1)) in Hrun by lia.
      unfold bind at 1 in Hrun. unfold timer_Reset at 1 in Hrun.
      cbn [world trace rt_IntN rt_timer Sim.runtime] in Hrun.
      destruct (Sim_IntN_other path (backoff_bound (a + 1)) w2 Hheld2)
        as [Hheld3 Hsel3].
      apply IH in Hrun as [Hheld' Hout]; [|exact Hheld3|lia|lia].
      split; [exact Hheld'|].
      destruct Hout as [Hret|[-> Hlen]]; [left; exact Hret|].
      right. split; [reflexivity|].
      rewrite Hsel3, Hsel2 in Hlen. cbn [length]. lia.
Qed.

(** [WaitCtx] against a lock that another process keeps. *)
Lemma Sim_WaitCtx_other :
  forall (GOOS : string) (cfuel fuel : nat) path (w : Sim.FS) t o s',
    Sim_held_by_other path w ->
    Z.of_nat fuel <= max_int64 ->
    WaitCtx GOOS Posix.File (Posix.Create (S cfuel)) fuel path (mkState w t)
    = (o, s') ->
    Sim_held_by_other path (world s')
    /\ (forall file err, o <> Ret (Some file, err))
    /\ ((length (Sim.selects w) < fuel)%nat ->
        exists why, o = Ret (None, Some (ctx_Err why))).
Proof.
  intros GOOS cfuel fuel path w t o s' Hheld Hfuel Hrun.
  unfold WaitCtx in Hrun. unfold bind at 1 in Hrun.
  destruct (Sim_Create_other cfuel path w t Hheld)
    as (w1 & evs & Hcreate & Hheld1 & Hsel1).
  rewrite Hcreate in Hrun.
  replace (IsTemporary GOOS (Some ErrExist)) with true in Hrun
    by reflexivity.
  cbn [negb] in Hrun.
  unfold bind at 1 in Hrun.
  rewrite (randomBackoff_eq 0) in Hrun by lia.
  unfold bind at 1 in Hrun. unfold time_NewTimer at 1 in Hrun.
  cbn [world trace rt_IntN rt_timer Sim.runtime] in Hrun.
  destruct (Sim_IntN_other path (backoff_bound 0) w1 Hheld1)
    as [Hheld2 Hsel2].
  apply Sim_loop_other in Hrun as [Hheld' Hout];
    [|exact Hheld2|lia|lia].
  split; [exact Hheld'|]. split.
  - intros file err. destruct Hout as [[why ->]|[-> _]]; discriminate.
  - intros Hlen. destruct Hout as [Hret|[_ Hle]]; [exact Hret|].
    rewrite Hsel2, Hsel1 in Hle. lia.
Qed.

(** X13. Waiting for a lock that another process never releases, on the
    simulated file system: whatever the draws and the answers of the
    [select], [WaitCtx] never returns a [File], every attempt leaves the
    lock with its holder, and as soon as the rounds allowed outnumber the
    times the timer can fire the call ends with the error of the
    context. *)
Theorem Sim_WaitCtx_never_false_success :
  forall (GOOS : string) (cfuel fuel : nat) path (w : Sim.FS) t o s',
    Sim_held_by_other path w ->
    Z.of_nat fuel <= max_int64 ->
    WaitCtx GOOS Posix.File (Posix.Create (S cfuel)) fuel path (mkState w t)
    = (o, s') ->
    Sim_held_by_other path (world s')
    /\ (forall file err, o <> Ret (Some file, err))
    /\ ((length (Sim.selects w) < fuel)%nat ->
        exists why, o = Ret (None, Some (ctx_Err why))).
Proof.
  intros GOOS cfuel fuel path w t o s' Hheld Hfuel Hrun.
  destruct (Sim_WaitCtx_other GOOS cfuel fuel path w t o s' Hheld Hfuel Hrun)
    as (Hkept & Hnone & Hend).
  split; [exact Hkept|]. split; [exact Hnone|exact Hend].
Qed.

Lemma Sim_held_by_other_contended script :
  Sim_held_by_other "test.lock" (Sim_contended script).
Proof.
  split; [reflexivity|]. exists 2, (Sim.mkInode 0 1 (Some Sim.Other)).
  cbn [Sim_contended Sim.dir Sim.inodes].
  rewrite !lookup_singleton_eq. repeat split.
Qed.

Lemma Sim_WaitCtx_never_false_success_witness :
  let w := Sim_contended [SelTimer; SelTimer] in
  let run :=
    WaitCtx "linux" Posix.File (Posix.Create 1) 5%nat "test.lock"
      (mkState w []) in
  Sim_held_by_other "test.lock" w
  /\ Z.of_nat 5 <= max_int64
  /\ run = (Ret (None, Some DeadlineExceeded), snd run)
  /\ Sim_held_by_other "test.lock" (world (snd run))
  /\ (forall (file : Posix.File) err,
         Ret (None, Some DeadlineExceeded) <> Ret (Some file, err))
  /\ ((length (Sim.selects w) < 5)%nat ->
      exists why,
        Ret (@None Posix.File, Some DeadlineExceeded)
        = Ret (None, Some (ctx_Err why))).
Proof.
  intros w run.
  assert (Hheld : Sim_held_by_other "test.lock" w)
    by apply Sim_held_by_other_contended.
  assert (Hfuel : Z.of_nat 5 <= max_int64) by (vm_compute; discriminate).
  assert (Hrun : run = (Ret (None, Some DeadlineExceeded), snd run))
    by (vm_compute; reflexivity).
  split; [exact Hheld|]. split; [exact Hfuel|]. split; [exact Hrun|].
  exact (Sim_WaitCtx_never_false_success "linux" 0%nat 5%nat "test.lock" w
           [] _ (snd run) Hheld Hfuel Hrun).
Defined.

(** ** The example *)

(** X14. [ExampleWaitCtx] on the simulated file system.  When the path
    [test.lock] is free the example prints the one line [Lock Acquired]
    (its documented output) and leaves the path free.  When another
    process holds the lock for as long as the context lasts, it prints
    the acquisition failure with the error of the context and nothing
    else. *)
Theorem Example_output :
  forall (GOOS : string) (fuel cfuel : nat) (w : Sim.FS) t,
    (Sim_free "test.lock" w ->
     exists s',
       Tests.ExampleWaitCtx GOOS fuel (S cfuel) (mkState w t)
       = (Ret [("Lock Acquired" +:+ Tests.newline, None)], s')
       /\ Sim_free "test.lock" (world s'))
    /\ (Sim_held_by_other "test.lock" w ->
        Z.of_nat fuel <= max_int64 ->
        (length (Sim.selects w) < fuel)%nat ->
        exists why s',
          Tests.ExampleWaitCtx GOOS fuel (S cfuel) (mkState w t)
          = (Ret [("Lock Acquisition Failed: %v" +:+ Tests.newline,
                   Some (ctx_Err why))], s')).
Proof.
  intros GOOS fuel cfuel w t. split.
  - intros Hfree.
    destruct (Sim_Create_free cfuel "test.lock" w t Hfree)
      as (w1 & evs1 & Hcreate & Hheld & _).
    destruct (Sim_Close_by_holder "test.lock" (Sim.next_fd w) "test.lock"
                w1 (t ++ evs1) Hheld)
      as (w2 & evs2 & Hclose & Hf2 & Hdir2 & _).
    eexists. split.
    + unfold Tests.ExampleWaitCtx, WaitCtx.
      unfold bind at 1. unfold bind at 1. rewrite Hcreate.
      unfold ret at 1. unfold bind at 1. rewrite Hclose. reflexivity.
    + split; [exact Hf2|]. cbn [world].
      rewrite Hdir2, lookup_delete_eq. exact I.
  - intros Hheld Hfuel Hlen.
    destruct (WaitCtx GOOS Posix.File (Posix.Create (S cfuel)) fuel
                "test.lock" (mkState w t)) as [o s'] eqn:Hrun.
    destruct (Sim_WaitCtx_other GOOS cfuel fuel "test.lock" w t o s'
                Hheld Hfuel Hrun) as (_ & _ & Hend).
    destruct (Hend Hlen) as [why ->].
    exists why, s'. unfold Tests.ExampleWaitCtx. unfold bind at 1.
    rewrite Hrun. reflexivity.
Qed.

Lemma Example_output_witness :
  let held := Sim_contended [SelTimer] in
  (Sim_free "test.lock" Sim.empty
   /\ exists s',
        Tests.ExampleWaitCtx "linux" 3 1 (mkState Sim.empty [])
        = (Ret [("Lock Acquired" +:+ Tests.newline, None)], s')
        /\ Sim_free "test.lock" (world s'))
  /\ (Sim_held_by_other "test.lock" held
      /\ Z.of_nat 3 <= max_int64
      /\ (length (Sim.selects held) < 3)%nat
      /\ exists why s',
           Tests.ExampleWaitCtx "linux" 3 1 (mkState held [])
           = (Ret [("Lock Acquisition Failed: %v" +:+ Tests.newline,
                    Some (ctx_Err why))], s')).
Proof.
  intros held.
  assert (Hfree : Sim_free "test.lock" Sim.empty) by apply Sim_free_empty.
  assert (Hheld : Sim_held_by_other "test.lock" held)
    by apply Sim_held_by_other_contended.
  assert (Hfuel : Z.of_nat 3 <= max_int64) by (vm_compute; discriminate).
  assert (Hlen : (length (Sim.selects held) < 3)%nat) by (cbn; lia).
  split.
  - split; [exact Hfree|].
    exact (proj1 (Example_output "linux" 3%nat 0%nat Sim.empty []) Hfree).
  - split; [exact Hheld|]. split; [exact Hfuel|]. split; [exact Hlen|].
    exact (proj2 (Example_output "linux" 3%nat 0%nat held []) Hheld Hfuel
             Hlen).
Defined.

(** ** The race detector of the tests *)

Lemma Tests_calls_cons c cs counter :
  fst (Tests.calls (c :: cs) counter)
  = fst (Tests.call c counter)
    :: fst (Tests.calls cs (snd (Tests.call c counter))).
Proof.
  cbn [Tests.calls]. destruct (Tests.call c counter) as [err counter'].
  cbn [fst snd]. destruct (Tests.calls cs counter'). reflexivity.
Qed.

Lemma Tests_calls_spec cs :
  forall counter,
    counter = 0 \/ counter = 1 ->
    Forall (fun err => err = None) (fst (Tests.calls cs counter))
    <-> Tests.alternate (counter =? 1) cs = true.
Proof.
  induction cs as [|c cs IH]; intros counter Hc.
  - cbn. split; [reflexivity|constructor].
  - rewrite Tests_calls_cons, List.Forall_cons_iff.
    cbn [Tests.alternate].
    destruct Hc as [-> | ->], c.
    + change (Tests.call Tests.Acquire 0) with (@None error, 1).
      cbn [fst snd]. rewrite (IH 1 (or_intror eq_refl)).
      change (0 =? 1) with false. change (1 =? 1) with true.
      cbn [negb andb]. tauto.
    + change (fst (Tests.call Tests.Release 0))
        with (Some (errorString
                ("subtracting 1 from the lock counter returned an "
                   +:+ "unexpected value: -1"))).
      change (0 =? 1) with false. cbn [andb].
      split; [intros [Hnone _]; discriminate Hnone|discriminate].
    + change (fst (Tests.call Tests.Acquire 1))
        with (Some (errorString
                ("adding 1 to lock counter returned an unexpected "
                   +:+ "value: 2"))).
      change (1 =? 1) with true. cbn [negb andb].
      split; [intros [Hnone _]; discriminate Hnone|discriminate].
    + change (Tests.call Tests.Release 1) with (@None error, 0).
      cbn [fst snd]. rewrite (IH 0 (or_introl eq_refl)).
      change (1 =? 1) with true. change (0 =? 1) with false.
      cbn [andb]. tauto.
Qed.

(** X15. The race detector of the tests.  Starting from a counter of
    zero, a sequence of calls of [acquire] and [release], taken in the
    order of their atomic additions, reports no error exactly when the
    calls alternate, an [acquire] first: that is, when no acquisition
    happened while the lock was recorded as held and no release while it
    was not. *)
Theorem Tests_no_error_iff_alternate :
  forall cs : list Tests.Call,
    Forall (fun err => err = None) (fst (Tests.calls cs 0))
    <-> Tests.alternate false cs = true.
Proof.
  intros cs. exact (Tests_calls_spec cs 0 (or_introl eq_refl)).
Qed.

(** ** A negative attempt *)

(** X16. [randomBackoff] panics on a negative attempt number, before
    any draw: the bound it computes for [rand.IntN] is not positive.
    (The range excludes the attempts so far below zero that the
    multiplication by ten wraps around.) *)
Theorem randomBackoff_negative_panics :
  forall (W : Type) (RT : Runtime W) (n : Z) (s : State W),
    min_int64 <= (1 + n) * 10 -> n <= -1 ->
    randomBackoff n s = (Panic "invalid argument to IntN", s).
Proof.
  intros W RT n s Hmin Hneg. unfold randomBackoff.
  destruct (Z.gtb_spec n 99) as [|_]; [lia|].
  rewrite (wrap64_small (1 + n))
    by (unfold min_int64, max_int64 in *; lia).
  rewrite wrap64_small by (unfold min_int64, max_int64 in *; lia).
  unfold rand_IntN, bind.
  destruct (Z.leb_spec ((1 + n) * 10) 0) as [_|]; [reflexivity|lia].
Qed.

Lemma randomBackoff_negative_panics_witness :
  min_int64 <= (1 + -1) * 10
  /\ -1 <= -1
  /\ randomBackoff (-1) (Sim.start Sim.empty)
     = (Panic "invalid argument to IntN", Sim.start Sim.empty).
Proof.
  assert (Hmin : min_int64 <= (1 + -1) * 10) by (vm_compute; discriminate).
  assert (Hneg : -1 <= -1) by lia.
  split; [exact Hmin|]. split; [exact Hneg|].
  exact (randomBackoff_negative_panics Sim.FS _ (-1) (Sim.start Sim.empty)
           Hmin Hneg).
Defined.
